(** * Expense analyzer: record store, query engine, filter domains, aggregator

    A shallow embedding of the data-handling core of [ExpenseAnalyzer]
    (src/utils.py): [load_file], [create_filter_widgets], [update_combos],
    [analyze], [export_csv], [enable_edit_mode], [delete_record] and the
    [save] closure of [show_record_dialog].

    Conventions of the embedding.
    - A pandas DataFrame that went through the conversions of [load_file] is a
      list of typed rows ([row]); every row carries its index label ([idx],
      the DataFrame index, not a column) next to its column values.
    - The amounts of a row are whole numbers: the cells of an int64 column,
      or whole numbers in a float64 column below 2^53, on which comparison,
      subtraction and sums are exact.  The code that sums columns (the
      summary of [analyze], the charts) is embedded over the dtype of the
      amount columns ([Dtype]), with whole numbers ([int64]) and binary64
      floating point ([float64]) as instances.
    - A timestamp is a calendar date (year, month, day); the time of day is
      not represented.
    - Widgets are represented by the values they hold; message boxes by the
      list of messages an operation shows.
    - pandas itself is an interface ([Pandas]): regular-expression search,
      [sort_values] with its default sort kind, and the coercions
      [to_datetime] / [to_numeric] are taken with their documented contract.
      Where the contract leaves the result open (the order of rows with
      equal dates) the default sort kind is embedded as well ([Npysort]). *)

From Stdlib Require Import ZArith List String Ascii Bool Lia Permutation.
From Stdlib Require Import Sorted DecimalString.
From Corelib Require PrimFloat.
Import ListNotations.

Open Scope string_scope.
Open Scope list_scope.
Open Scope Z_scope.

Set Implicit Arguments.

(* ================================================================== *)
(** ** Text helpers *)

Module Text.

(** [str.lower()] on the ASCII letters; other bytes are left alone. *)
Definition lower_ascii (c : ascii) : ascii :=
  let n := N_of_ascii c in
  if (65 <=? n)%N && (n <=? 90)%N then ascii_of_N (n + 32) else c.

Fixpoint lower (text : string) {struct text} : string :=
  match text with
  | String c rest => String (lower_ascii c) (lower rest)
  | EmptyString => EmptyString
  end.

(** [pat in s]: [pat] occurs in [s] as a contiguous run. *)
Fixpoint contains (pat s : string) : bool :=
  String.prefix pat s ||
  match s with
  | EmptyString => false
  | String _ s' => contains pat s'
  end.

Definition is_space (c : ascii) : bool :=
  let n := N_of_ascii c in
  ((9 <=? n)%N && (n <=? 13)%N) || (n =? 32)%N.

Fixpoint lstrip (text : string) {struct text} : string :=
  match text with
  | String c rest => if is_space c then lstrip rest else text
  | EmptyString => EmptyString
  end.

(** Drops trailing white space: a character is kept when it is not a
    space or when something is kept after it. *)
Fixpoint rstrip (text : string) {struct text} : string :=
  match text with
  | String c rest =>
      match rstrip rest with
      | EmptyString => if is_space c then EmptyString else String c EmptyString
      | kept => String c kept
      end
  | EmptyString => EmptyString
  end.

Definition strip (s : string) : string := rstrip (lstrip s).

(** Characters with a meaning of their own in a Python regular
    expression: . ^ $ * + ? { } [ ] \ | ( ) *)
Definition regex_meta (c : ascii) : bool :=
  existsb (N.eqb (N_of_ascii c))
          [46; 94; 36; 42; 43; 63; 123; 125; 91; 93; 92; 124; 40; 41]%N.

Fixpoint regex_plain (pat : string) {struct pat} : bool :=
  match pat with
  | String c rest => negb (regex_meta c) && regex_plain rest
  | EmptyString => true
  end.

(** [str(n)] for an integer. *)
Definition str_of_Z (z : Z) : string := NilZero.string_of_int (Z.to_int z).

(** The format [{m:02d}], for [m >= 0]. *)
Definition fmt02 (m : Z) : string :=
  if m <? 10 then String.append "0" (str_of_Z m) else str_of_Z m.

(** The format [{y:04d}], for [y >= 0]. *)
Definition fmt04 (y : Z) : string :=
  if y <? 10 then String.append "000" (str_of_Z y)
  else if y <? 100 then String.append "00" (str_of_Z y)
  else if y <? 1000 then String.append "0" (str_of_Z y)
  else str_of_Z y.

Lemma prefix_refl (s : string) : String.prefix s s = true.
Proof.
  induction s as [|c s IH]; simpl; [reflexivity|].
  destruct (ascii_dec c c) as [_|Hne]; [exact IH | now destruct Hne].
Qed.

Lemma contains_refl (s : string) : contains s s = true.
Proof.
  destruct s; simpl.
  - reflexivity.
  - destruct (ascii_dec a a) as [_|Hne]; [|now destruct Hne].
    now rewrite prefix_refl.
Qed.

End Text.

(* ================================================================== *)
(** ** Data model *)

(** A value of the [Expense Date] column that is not [NaT]. *)
Record date := mkDate { year : Z; month : Z; day : Z }.

Definition date_eqb (a b : date) : bool :=
  (year a =? year b) && (month a =? month b) && (day a =? day b).

(** [a <= b] on timestamps. *)
Definition date_leb (a b : date) : bool :=
  (year a <? year b) ||
  ((year a =? year b) &&
   ((month a <? month b) || ((month a =? month b) && (day a <=? day b)))).

(** [strftime('%Y-%m-%d')]. *)
Definition strftime_ymd (d : date) : string :=
  String.append (Text.fmt04 (year d))
    (String.append "-" (String.append (Text.fmt02 (month d))
       (String.append "-" (Text.fmt02 (day d))))).

(** One row of [self.df] after the conversions of [load_file].  [None] is
    [NaN] / [NaT].  The three grouping columns were filled by [fillna] and
    the two amounts by [to_numeric(...).fillna(0)], so they hold values. *)
Record row := mkRow {
  idx : Z;                              (* index label *)
  report_name : option string;          (* 'Report Name' *)
  expense_date : option date;           (* 'Expense Date' *)
  expense_amount : Z;                   (* 'Expense Amount' *)
  income_amount : Z;                    (* 'Income Amount' *)
  expense_description : option string;  (* 'Expense Description' *)
  expense_category : string;            (* 'Expense Category' *)
  merchant_name : string;               (* 'Merchant Name' *)
  paid_through : string;                (* 'Paid Through' *)
  original_index : Z                    (* 'original_index' *)
}.

(** A row of the analysed frame: the columns of [row] and ['Bal']. *)
Record brow := mkBrow { base : row; bal : Z }.

(** [.astype(str)] on a text cell: [NaN] prints as [nan]. *)
Definition astype_str (c : option string) : string :=
  match c with Some s => s | None => "nan" end.

Definition has_date (r : row) : bool :=
  match expense_date r with Some _ => true | None => false end.

(** [df.dropna(subset=['Expense Date'])] *)
Definition dropna_date (rows : list row) : list row := filter has_date rows.

(** Order in which [sort_values('Expense Date', ascending=False)] leaves two
    neighbours: later date first, [NaT] last. *)
Definition date_desc (a b : brow) : Prop :=
  match expense_date (base a), expense_date (base b) with
  | Some x, Some y => date_leb y x = true
  | _, None => True
  | None, Some _ => False
  end.

(* ================================================================== *)
(** ** The pandas interface *)

(** A cell of a freshly read, not yet converted frame. *)
Inductive cell :=
| NaN
| Str (s : string)
| Num (z : Z)
| Stamp (d : date).

(** What the code takes from pandas.
    - [re_compile ignorecase pat]: the compiled pattern behind
      [Series.str.contains(pat, case=..., na=False)], as the test it performs
      on one string; [None] when [pat] is not a valid regular expression
      ([re.error]).  On a pattern without metacharacters the search is a
      literal one.
    - [sort_values_desc]: [DataFrame.sort_values('Expense Date',
      ascending=False)] with the default [kind='quicksort'].  pandas documents
      that only [kind='mergesort'] and [kind='stable'] keep the order of equal
      keys, so the contract is: same rows, later dates first.
    - [to_datetime], [to_numeric]: the per-cell result of
      [pd.to_datetime(..., errors='coerce')] and
      [pd.to_numeric(..., errors='coerce')]; [None] is [NaT] / [NaN]. *)
Class Pandas := {
  re_compile : bool -> string -> option (string -> bool);
  re_compile_plain :
    forall (ignorecase : bool) (pat : string),
      Text.regex_plain pat = true ->
      exists m, re_compile ignorecase pat = Some m /\
                forall s, m s = if ignorecase
                                then Text.contains (Text.lower pat) (Text.lower s)
                                else Text.contains pat s;
  sort_values_desc : list brow -> list brow;
  sort_values_perm : forall d, Permutation d (sort_values_desc d);
  sort_values_sorted : forall d, StronglySorted date_desc (sort_values_desc d);
  to_datetime : cell -> option date;
  to_numeric : cell -> option Z
}.

(* ================================================================== *)
(** ** Filter widgets *)

(** The text of a range-bound entry after [.get().strip()] and, when it is
    not empty, after the parser applied to it ([pd.to_datetime] for the date
    bounds, [float] for the amount bounds):
    - [Blank]: the key is not in [self.filters], or the text is empty;
    - [Malformed]: the parser raises on the text;
    - [Entered v]: the parser returns [v]. *)
Inductive entry (A : Type) : Type :=
| Blank
| Malformed
| Entered (v : A).
Arguments Blank {A}.
Arguments Malformed {A}.

(** The [*_var] variables.  A text variable holds ["All"] or a value; the
    year and month combos are read-only and only offer what [update_combos]
    put there, so their variable is kept as [int(val)] ([None] for ["All"]). *)
Record selection := mkSelection {
  report_var : string;
  year_var : option Z;
  month_var : option Z;
  category_var : string;
  merchant_var : string;
  paid_var : string;
  desc_var : string
}.

(** The advanced range bounds read by [analyze]. *)
Record ranges := mkRanges {
  date_start : entry date;
  date_end : entry date;
  exp_min : entry Z;
  exp_max : entry Z;
  inc_min : entry Z;
  inc_max : entry Z
}.

(** [combo['values']] of the six combo boxes. *)
Record combo_values := mkCombos {
  report_values : list string;
  year_values : list string;
  month_values : list string;
  category_values : list string;
  merchant_values : list string;
  paid_values : list string
}.

(** [self.filters] *)
Record filters_t := mkFilters {
  vars : selection;
  adv : ranges;
  combos : combo_values
}.

(** What [create_filter_widgets] builds before it calls [update_combos]:
    every variable on ["All"], an empty search box, and no range-bound key. *)
Definition fresh_selection : selection :=
  mkSelection "All" None None "All" "All" "All" "".

Definition no_ranges : ranges := mkRanges Blank Blank Blank Blank Blank Blank.

Definition fresh_filters : filters_t :=
  mkFilters fresh_selection no_ranges (mkCombos [] [] [] [] [] []).

(** An entry of [sels]: variables equal to ["All"] are left out. *)
Definition active (v : string) : option string :=
  if (v =? "All")%string then None else Some v.

(* ================================================================== *)
(** ** Generic list helpers *)

Section Sorting.
Variable A : Type.
Variable leb : A -> A -> bool.

Fixpoint insert_by (x : A) (l : list A) : list A :=
  match l with
  | [] => [x]
  | y :: l' => if leb x y then x :: l else y :: insert_by x l'
  end.

(** Python's [sorted]: ordered by [leb], equal elements in input order. *)
Definition sort_by (l : list A) : list A := fold_right insert_by [] l.

Lemma insert_by_perm (x : A) (l : list A) : Permutation (x :: l) (insert_by x l).
Proof.
  induction l as [|y l IH]; simpl; [reflexivity|].
  destruct (leb x y); [reflexivity|].
  rewrite perm_swap. now apply perm_skip.
Qed.

Lemma sort_by_perm (l : list A) : Permutation l (sort_by l).
Proof.
  induction l as [|x l IH]; simpl; [constructor|].
  rewrite <- insert_by_perm. now apply perm_skip.
Qed.

Lemma sort_by_In (l : list A) (x : A) : In x (sort_by l) <-> In x l.
Proof.
  split; apply Permutation_in;
    [symmetry|]; apply sort_by_perm.
Qed.

Lemma sort_by_NoDup (l : list A) : NoDup l -> NoDup (sort_by l).
Proof. apply Permutation_NoDup, sort_by_perm. Qed.

Lemma sort_by_length (l : list A) : List.length (sort_by l) = List.length l.
Proof. symmetry. apply Permutation_length, sort_by_perm. Qed.
End Sorting.

(** [Series.unique()]: first occurrences, in order of appearance. *)
Fixpoint unique (A : Type) (eqb : A -> A -> bool) (l : list A) : list A :=
  match l with
  | [] => []
  | x :: l' => x :: filter (fun y => negb (eqb x y)) (unique eqb l')
  end.

Definition sum_Z (l : list Z) : Z := fold_right Z.add 0 l.

(* ================================================================== *)
(** ** Query engine: the filters of [analyze] *)

(** Sequencing of steps that may raise: [None] is an exception that leaves
    the function. *)
Notation "x <- e ;; k" :=
  (match e with Some x => k | None => None end)
  (at level 61, e at next level, right associativity, only parsing).

Definition year_is (y : Z) (r : row) : bool :=
  match expense_date r with Some t => year t =? y | None => false end.

Definition month_is (m : Z) (r : row) : bool :=
  match expense_date r with Some t => month t =? m | None => false end.

(** [d['Expense Date'] >= t] and [d['Expense Date'] <= t]; a comparison
    with [NaT] is false. *)
Definition date_ge (t : date) (r : row) : bool :=
  match expense_date r with Some x => date_leb t x | None => false end.

Definition date_le (t : date) (r : row) : bool :=
  match expense_date r with Some x => date_leb x t | None => false end.

Definition mk_bal (r : row) : brow :=
  mkBrow r (income_amount r - expense_amount r).

(** The four combo boxes that filter on a text column. *)
Inductive text_key := KReport | KCategory | KMerchant | KPaid.

(** The cell of the column behind a key. *)
Definition column (k : text_key) (r : row) : option string :=
  match k with
  | KReport => report_name r
  | KCategory => Some (expense_category r)
  | KMerchant => Some (merchant_name r)
  | KPaid => Some (paid_through r)
  end.

(** [d[col].astype(str)] *)
Definition col_text (k : text_key) (r : row) : string := astype_str (column k r).

(** The variable behind a key. *)
Definition text_var (k : text_key) (s : selection) : string :=
  match k with
  | KReport => report_var s
  | KCategory => category_var s
  | KMerchant => merchant_var s
  | KPaid => paid_var s
  end.

Section QueryEngine.
Context {P : Pandas}.

(** [d[col.str.contains(pat, case=..., na=False)]] *)
Definition str_contains (ignorecase : bool) (pat : string)
           (col : row -> string) (d : list row) : option (list row) :=
  match re_compile ignorecase pat with
  | Some m => Some (filter (fun r => m (col r)) d)
  | None => None
  end.

(** [if key in sels: d = d[col.astype(str).str.contains(sels[key],
    case=False, na=False)]] *)
Definition contains_filter (v : string) (col : row -> string)
           (d : list row) : option (list row) :=
  match active v with
  | Some pat => str_contains true pat col d
  | None => Some d
  end.

Definition opt_filter (A : Type) (o : option A) (p : A -> row -> bool)
           (d : list row) : list row :=
  match o with
  | Some a => filter (p a) d
  | None => d
  end.

(** [desc = self.filters['desc_var'].get().strip().lower()] *)
Definition desc_of (s : selection) : string := Text.lower (Text.strip (desc_var s)).

Definition desc_col (r : row) : string :=
  Text.lower (astype_str (expense_description r)).

(** The block under [# Apply filters], in source order. *)
Definition text_filters (s : selection) (d : list row) : option (list row) :=
  d1 <- contains_filter (report_var s) (col_text KReport) d ;;
  let d2 := opt_filter (year_var s) year_is d1 in
  let d3 := opt_filter (month_var s) month_is d2 in
  d4 <- contains_filter (category_var s) (col_text KCategory) d3 ;;
  d5 <- contains_filter (merchant_var s) (col_text KMerchant) d4 ;;
  d6 <- contains_filter (paid_var s) (col_text KPaid) d5 ;;
  match desc_of s with
  | EmptyString => Some d6
  | desc => str_contains false desc desc_col d6
  end.

Definition is_malformed (A : Type) (e : entry A) : bool :=
  match e with Malformed => true | _ => false end.

Definition bound (A : Type) (e : entry A) : option A :=
  match e with Entered v => Some v | _ => None end.

(** The four amount bounds: [get_float] runs on all four keys before any
    of them is applied. *)
Definition amount_filters (a : ranges) (d : list row) : list row * bool :=
  if is_malformed (exp_min a) || is_malformed (exp_max a)
     || is_malformed (inc_min a) || is_malformed (inc_max a)
  then (d, true)
  else
    let d1 := opt_filter (bound (exp_min a)) (fun v r => v <=? expense_amount r) d in
    let d2 := opt_filter (bound (exp_max a)) (fun v r => expense_amount r <=? v) d1 in
    let d3 := opt_filter (bound (inc_min a)) (fun v r => v <=? income_amount r) d2 in
    let d4 := opt_filter (bound (inc_max a)) (fun v r => income_amount r <=? v) d3 in
    (d4, false).

(** The [try] block under [# Advanced Filters].  The second component
    tells whether the [except] branch ran ([Filter Error] printed): the
    statements after the one that raised are skipped, [d] keeps what was
    applied before. *)
Definition advanced_filters (a : ranges) (d : list row) : list row * bool :=
  match date_start a with
  | Malformed => (d, true)
  | s =>
      let d1 := opt_filter (bound s) date_ge d in
      match date_end a with
      | Malformed => (d1, true)
      | e => amount_filters a (opt_filter (bound e) date_le d1)
      end
  end.

(** The frame [d] of [analyze] when it reaches [if d.empty]; [None] when a
    pattern of the text filters does not compile. *)
Definition query (f : filters_t) (rows : list row) : option (list row) :=
  d <- text_filters (vars f) (dropna_date rows) ;;
  Some (fst (advanced_filters (adv f) d)).

End QueryEngine.

(* ================================================================== *)
(** ** The dtype of the amount columns *)

(** [pd.to_numeric] leaves an int64 column when every amount of the file is
    a whole number and a float64 column otherwise; an amount typed into the
    record dialog is a [float].  The summary code subtracts two cells, sums
    a column, sums the groups of a [groupby] and tests a sum against zero:
    the operations of a dtype. *)
Class Dtype := {
  num : Type;
  subtract : num -> num -> num;     (* [a - b], cell by cell *)
  series_sum : list num -> num;     (* [Series.sum()] *)
  group_sum : list num -> num;      (* the [sum] of a [groupby] *)
  gt_zero : num -> bool             (* [x > 0] *)
}.

(** Whole numbers.  Every operation is exact (the bound of int64 is not
    represented). *)
#[local] Instance int64 : Dtype := {|
  num := Z;
  subtract := Z.sub;
  series_sum := sum_Z;
  group_sum := sum_Z;
  gt_zero := Z.ltb 0
|}.

Section Float64.
Import PrimFloat.

(** The cells added one after the other.  On a column of two cells, the
    only ones summed below, numpy's pairwise summation and the compensated
    summation of [groupby] return this value too: the two cells added and
    rounded once. *)
Definition add_in_order (l : list float) : float := fold_left add l 0%float.

(** binary64: every operation rounds to the nearest float. *)
Definition float64 : Dtype := {|
  num := float;
  subtract := sub;
  series_sum := add_in_order;
  group_sum := add_in_order;
  gt_zero := ltb 0%float
|}.

End Float64.

(** The columns of the frame [d] that the summary and the charts read. *)
Class Columns (D : Dtype) (R : Type) := {
  category : R -> string;    (* 'Expense Category' *)
  merchant : R -> string;    (* 'Merchant Name' *)
  income : R -> num;         (* 'Income Amount' *)
  expense : R -> num;        (* 'Expense Amount' *)
  balance : R -> num         (* 'Bal' *)
}.

(** An analysed frame of whole-number amounts. *)
#[local] Instance brow_columns : Columns int64 brow := {|
  category := fun r => expense_category (base r);
  merchant := fun r => merchant_name (base r);
  income := fun r => income_amount (base r);
  expense := fun r => expense_amount (base r);
  balance := bal
|}.

(** A row of amounts of any dtype, with its two labels. *)
Record cells (D : Dtype) := mkCells {
  c_category : string;
  c_merchant : string;
  c_income : num;
  c_expense : num
}.

(** [d['Bal'] = d['Income Amount'] - d['Expense Amount']] *)
#[local] Instance cells_columns (D : Dtype) : Columns D (cells D) := {|
  category := @c_category D;
  merchant := @c_merchant D;
  income := @c_income D;
  expense := @c_expense D;
  balance := fun r => subtract (c_income r) (c_expense r)
|}.

(* ================================================================== *)
(** ** Aggregator: the summary part of [analyze] *)

Definition key_eqb (a b : string * string) : bool :=
  (fst a =? fst b)%string && (snd a =? snd b)%string.

(** Order of the group keys in the result of [groupby] ([sort=True]). *)
Definition key_leb (a b : string * string) : bool :=
  if (fst a =? fst b)%string then (snd a <=? snd b)%string
  else (fst a <=? fst b)%string.

Section Aggregator.
Context {D : Dtype} {R : Type} {C : Columns D R}.

(** The four summary labels, as the numbers they display. *)
Record totals := mkTotals {
  lbl_records : Z;   (* Total Records *)
  lbl_inc : num;     (* Total Income *)
  lbl_exp : num;     (* Total Expense *)
  lbl_bal : num      (* Net Balance *)
}.

(** A line of the summary tree: the columns
    [Category, Merchant, Count, Inc, Exp, Total] of [sum_grp]. *)
Record group_row := mkGroup {
  g_category : string;
  g_merchant : string;
  g_count : Z;
  g_inc : num;
  g_exp : num;
  g_total : num
}.

Definition group_key (r : R) : string * string := (category r, merchant r).

Definition group_keys (d : list R) : list (string * string) :=
  sort_by key_leb (unique key_eqb (map group_key d)).

Definition group_of (k : string * string) (d : list R) : list R :=
  filter (fun r => key_eqb k (group_key r)) d.

(** [.agg({'Income Amount': ['size', 'sum'], 'Expense Amount': 'sum',
    'Bal': 'sum'})] on one group. *)
Definition aggregate_group (d : list R) (k : string * string) : group_row :=
  let g := group_of k d in
  mkGroup (fst k) (snd k)
          (Z.of_nat (List.length g))
          (group_sum (map income g))
          (group_sum (map expense g))
          (group_sum (map balance g)).

(** [d.groupby(['Expense Category', 'Merchant Name'])[...].agg(...)
    .reset_index()] *)
Definition sum_grp (d : list R) : list group_row :=
  map (aggregate_group d) (group_keys d).

(** [d['Income Amount'].sum()] *)
Definition total_income (d : list R) : num := series_sum (map income d).

(** [d['Expense Amount'].sum()] *)
Definition total_expense (d : list R) : num := series_sum (map expense d).

Definition totals_of (d : list R) : totals :=
  mkTotals (Z.of_nat (List.length d)) (total_income d) (total_expense d)
           (subtract (total_income d) (total_expense d)).

End Aggregator.

(** A line of the raw data tree.  Amounts are kept as numbers (the display
    format [{:,.2f}] is not represented). *)
Record tree_item := mkItem {
  ti_date : string;
  ti_inc : Z;
  ti_exp : Z;
  ti_bal : Z;
  ti_desc : option string;
  ti_cat : string;
  ti_merch : string;
  ti_paid : string;
  ti_id : Z;          (* row['original_index'], the last column *)
  ti_odd : bool       (* tag 'odd' when the index label is odd *)
}.

(** The date column of a displayed or exported row.  Every row of an
    analysed frame has a date; the empty text stands for the case that
    does not occur. *)
Definition date_text (o : option date) : string :=
  match o with Some t => strftime_ymd t | None => "" end.

Definition tree_item_of (r : brow) : tree_item :=
  mkItem (date_text (expense_date (base r)))
         (income_amount (base r)) (expense_amount (base r)) (bal r)
         (expense_description (base r)) (expense_category (base r))
         (merchant_name (base r)) (paid_through (base r))
         (original_index (base r)) (Z.odd (idx (base r))).

(* ================================================================== *)
(** ** Application state *)

(** A frame as a reader delivers it: index labels and named columns. *)
Record raw_frame := mkRaw {
  raw_index : list Z;
  raw_cols : list (string * list cell)
}.

(** The value of [self.df]: a frame that went through every conversion of
    [load_file] and has the eight ledger columns ([Table]), or any other
    frame ([Raw]), which is what a load that stopped half-way leaves. *)
Inductive frame :=
| Table (rows : list row)
| Raw (t : raw_frame).

Inductive status :=
| StatusReady
| StatusLoaded (file_path : string)   (* "Loaded: <basename>" *)
| StatusLoadFailed                    (* "Load Failed" *)
| StatusEditEnabled.                  (* "EDIT MODE ENABLED" *)

Record app := mkApp {
  df : option frame;                (* self.df *)
  filters : filters_t;              (* self.filters *)
  filtered_df : option (list brow); (* self.filtered_df *)
  labels : option (@totals int64);  (* lbl_records, lbl_inc, lbl_exp, lbl_bal *)
  sum_tree : list (@group_row int64); (* self.sum_tree *)
  tree : list tree_item;            (* self.tree *)
  edit_mode : bool;                 (* self.edit_mode *)
  updating_combos : bool;           (* self.updating_combos *)
  current_file_path : option string;
  status_label : status
}.

(** The state built by [__init__]. *)
Definition initial_app : app :=
  mkApp None fresh_filters None None [] [] false false None StatusReady.

Definition set_df (o : option frame) (st : app) : app :=
  mkApp o (filters st) (filtered_df st) (labels st) (sum_tree st) (tree st)
        (edit_mode st) (updating_combos st) (current_file_path st)
        (status_label st).

Definition set_filters (f : filters_t) (st : app) : app :=
  mkApp (df st) f (filtered_df st) (labels st) (sum_tree st) (tree st)
        (edit_mode st) (updating_combos st) (current_file_path st)
        (status_label st).

(** The assignments of [analyze] after the emptiness test. *)
Definition set_views (d : list brow) (st : app) : app :=
  mkApp (df st) (filters st) (Some d) (Some (totals_of d)) (sum_grp d)
        (map tree_item_of d)
        (edit_mode st) (updating_combos st) (current_file_path st)
        (status_label st).

Definition set_status (s : status) (st : app) : app :=
  mkApp (df st) (filters st) (filtered_df st) (labels st) (sum_tree st)
        (tree st) (edit_mode st) (updating_combos st) (current_file_path st) s.

(** The first assignments of [load_file]. *)
Definition begin_load (file_path : string) (st : app) : app :=
  mkApp (df st) (filters st) (filtered_df st) (labels st) (sum_tree st)
        (tree st) false (updating_combos st) (Some file_path)
        (StatusLoaded file_path).

(** [ExpenseAnalyzer.enable_edit_mode], reached after a successful login. *)
Definition enable_edit_mode (st : app) : app :=
  mkApp (df st) (filters st) (filtered_df st) (labels st) (sum_tree st)
        (tree st) true (updating_combos st) (current_file_path st)
        StatusEditEnabled.

(** Message boxes. *)
Inductive message :=
| InfoNoRecords            (* "No records found." *)
| InfoAdded                (* "Record added." *)
| InfoUpdated              (* "Record updated." *)
| InfoDeleted (n : Z)      (* "<n> record(s) deleted." *)
| InfoExported             (* "Exported successfully." *)
| WarnSelectRecord         (* "Please select a record to delete." *)
| WarnCouldNotDelete       (* "Could not delete records." *)
| ErrorLoad                (* showerror("Error", str(e)) in load_file *)
| ErrorValidation          (* "Invalid input: ..." *)
| ErrorOperation.          (* "Operation failed: ..." *)

(** How a handler ends: it returns, or an exception leaves it.  Both carry
    the state reached and the message boxes shown. *)
Inductive result :=
| Returns (st : app) (shown : list message)
| Raises (st : app) (shown : list message).

Definition state_of (r : result) : app :=
  match r with Returns st _ | Raises st _ => st end.

Definition shown_of (r : result) : list message :=
  match r with Returns _ m | Raises _ m => m end.

Section Analyze.
Context {P : Pandas}.

(** [analyze] on a converted frame. *)
Definition analyze_table (rows : list row) (st : app) : result :=
  match query (filters st) rows with
  | None => Raises st []
  | Some [] => Returns st [InfoNoRecords]
  | Some d => Returns (set_views (sort_values_desc (map mk_bal d)) st) []
  end.

(** [ExpenseAnalyzer.analyze].  [None]: the frame in [self.df] is not a
    converted one, which this development does not follow. *)
Definition analyze (st : app) : option result :=
  match df st with
  | None => Some (Returns st [])
  | Some (Table rows) => Some (analyze_table rows st)
  | Some (Raw _) => None
  end.

End Analyze.

(** A line of the file written by [export_csv]: the columns of the
    analysed frame with the date as text. *)
Record export_row := mkExport { x_date : string; x_row : brow }.

(** [ExpenseAnalyzer.export_csv]; [path] is the answer of the save dialog.
    The result is the file written, if any, and the message shown. *)
Definition export_row_of (r : brow) : export_row :=
  mkExport (date_text (expense_date (base r))) r.

Definition export_csv (path : option string) (st : app)
  : option (string * list export_row) * list message :=
  match filtered_df st, path with
  | Some d, Some p => (Some (p, map export_row_of d), [InfoExported])
  | _, _ => (None, [])
  end.

(* ================================================================== *)
(** ** Filter domain calculator: [update_combos] *)

(** [d[d[col] == val]] on a text column; [NaN == val] is false. *)
Definition combo_match (k : text_key) (val : string) (r : row) : bool :=
  match column k r with
  | Some s => (s =? val)%string
  | None => false
  end.

Definition narrow_text (k : text_key) (s : selection) (d : list row) : list row :=
  match active (text_var k s) with
  | Some val => filter (combo_match k val) d
  | None => d
  end.

(** The loop [for k, val in sels.items()], in the order of [self.filters];
    the entry of the search box matches no branch. *)
Definition narrowed (s : selection) (rows : list row) : list row :=
  let d0 := dropna_date rows in
  let d1 := narrow_text KReport s d0 in
  let d2 := match year_var s with Some y => filter (year_is y) d1 | None => d1 end in
  let d3 := match month_var s with Some m => filter (month_is m) d2 | None => d2 end in
  let d4 := narrow_text KCategory s d3 in
  let d5 := narrow_text KMerchant s d4 in
  narrow_text KPaid s d5.

Fixpoint somes (A : Type) (l : list (option A)) : list A :=
  match l with
  | [] => []
  | Some a :: l' => a :: somes l'
  | None :: l' => somes l'
  end.

(** [d[col].dropna().unique()] *)
Definition text_domain (k : text_key) (d : list row) : list string :=
  unique String.eqb (somes (map (column k) d)).

(** [d['Expense Date'].dt.year.dropna().unique().astype(str)] *)
Definition year_domain (d : list row) : list string :=
  map Text.str_of_Z (unique Z.eqb (map year (somes (map expense_date d)))).

(** [[f"{m:02d}" for m in d['Expense Date'].dt.month.dropna().unique()]] *)
Definition month_domain (d : list row) : list string :=
  map Text.fmt02 (unique Z.eqb (map month (somes (map expense_date d)))).

(** [combo['values'] = ["All"] + sorted(list(values))] *)
Definition combo_list (values : list string) : list string :=
  "All" :: sort_by String.leb values.

Definition mem (s : string) (l : list string) : bool := existsb (String.eqb s) l.

(** The helper [update] on a text variable: the new value of the variable. *)
Definition reset_text (curr : string) (values : list string) : string :=
  if negb (curr =? "All")%string && negb (mem curr (combo_list values))
  then "All" else curr.

(** The helper [update] on the year or month variable; [render] is the text
    the variable holds. *)
Definition reset_num (render : Z -> string) (curr : option Z)
           (values : list string) : option Z :=
  match curr with
  | Some n => if mem (render n) (combo_list values) then Some n else None
  | None => None
  end.

(** The six calls of [update]. *)
Definition refresh_filters (f : filters_t) (rows : list row) : filters_t :=
  let s := vars f in
  let d := narrowed s rows in
  mkFilters
    (mkSelection
       (reset_text (report_var s) (text_domain KReport d))
       (reset_num Text.str_of_Z (year_var s) (year_domain d))
       (reset_num Text.fmt02 (month_var s) (month_domain d))
       (reset_text (category_var s) (text_domain KCategory d))
       (reset_text (merchant_var s) (text_domain KMerchant d))
       (reset_text (paid_var s) (text_domain KPaid d))
       (desc_var s))
    (adv f)
    (mkCombos
       (combo_list (text_domain KReport d))
       (combo_list (year_domain d))
       (combo_list (month_domain d))
       (combo_list (text_domain KCategory d))
       (combo_list (text_domain KMerchant d))
       (combo_list (text_domain KPaid d))).

(** [ExpenseAnalyzer.update_combos]; [None] on a frame that is not a
    converted one. *)
Definition update_combos (st : app) : option app :=
  match df st with
  | None => Some st
  | Some f =>
      if updating_combos st then Some st
      else match f with
           | Table rows => Some (set_filters (refresh_filters (filters st) rows) st)
           | Raw _ => None
           end
  end.

(** [ExpenseAnalyzer.create_filter_widgets] *)
Definition create_filter_widgets (st : app) : option app :=
  update_combos (set_filters fresh_filters st).

(* ================================================================== *)
(** ** Record store: [load_file] *)

Definition has_col (name : string) (t : raw_frame) : bool :=
  existsb (fun c => (fst c =? name)%string) (raw_cols t).

(** [df[name]]; [None] is [KeyError]. *)
Definition get_col (name : string) (t : raw_frame) : option (list cell) :=
  match find (fun c => (fst c =? name)%string) (raw_cols t) with
  | Some c => Some (snd c)
  | None => None
  end.

Fixpoint put_col (name : string) (vals : list cell)
         (cols : list (string * list cell)) : list (string * list cell) :=
  match cols with
  | [] => [(name, vals)]
  | c :: cs => if (fst c =? name)%string then (name, vals) :: cs
               else c :: put_col name vals cs
  end.

(** [df[name] = vals]: replaces the column, or adds it as the last one. *)
Definition set_col (name : string) (vals : list cell) (t : raw_frame) : raw_frame :=
  mkRaw (raw_index t) (put_col name vals (raw_cols t)).

(** [df.drop(columns=[name], inplace=True)] *)
Definition drop_col (name : string) (t : raw_frame) : raw_frame :=
  mkRaw (raw_index t)
        (filter (fun c => negb (fst c =? name)%string) (raw_cols t)).

(** [df[name] = f(df[name])]; [None] is the [KeyError] of the right-hand
    side. *)
Definition map_col (name : string) (f : cell -> cell) (t : raw_frame)
  : option raw_frame :=
  match get_col name t with
  | Some vals => Some (set_col name (map f vals) t)
  | None => None
  end.

(** [.fillna(v)] on one cell. *)
Definition fillna (v : cell) (c : cell) : cell :=
  match c with NaN => v | _ => c end.

(** How the conversions of [load_file] end: a [KeyError] with the frame as
    the statements before it left it, or the converted frame. *)
Inductive conversion :=
| KeyError (t : raw_frame)
| Converted (t : raw_frame).

(** What the reading block of [load_file] (the [if/elif/else] on the file
    extension) did:
    - [Unreadable]: an exception left the block before any assignment to
      [self.df];
    - [Interrupted t]: [self.df] was assigned [t] and an exception left the
      block afterwards (the conversion branch of the .xlsx reader followed by
      a failing fallback read);
    - [Delivered t]: the block completed with [self.df = t]. *)
Inductive read_result :=
| Unreadable
| Interrupted (t : raw_frame)
| Delivered (t : raw_frame).

Definition text_cell (c : cell) : option (option string) :=
  match c with
  | NaN => Some None
  | Str s => Some (Some s)
  | _ => None
  end.

Definition str_cell (c : cell) : option string :=
  match c with Str s => Some s | _ => None end.

Definition date_cell (c : cell) : option (option date) :=
  match c with
  | NaN => Some None
  | Stamp d => Some (Some d)
  | _ => None
  end.

Definition num_cell (c : cell) : option Z :=
  match c with Num z => Some z | _ => None end.

Definition all_some (A : Type) (cells : list (option A)) : option (list A) :=
  fold_right (fun o acc => a <- o ;; r <- acc ;; Some (a :: r)) (Some []) cells.

Definition cell_at (name : string) (i : nat) (t : raw_frame) : option cell :=
  vals <- get_col name t ;; nth_error vals i.

(** Row [i] of a converted frame as a typed row; [None] when one of the
    ledger columns is missing or holds a cell of another type. *)
Definition row_at (t : raw_frame) (i : nat) (label : Z) : option row :=
  c1 <- cell_at "Report Name" i t ;; rn <- text_cell c1 ;;
  c2 <- cell_at "Expense Date" i t ;; dt <- date_cell c2 ;;
  c3 <- cell_at "Expense Amount" i t ;; ea <- num_cell c3 ;;
  c4 <- cell_at "Income Amount" i t ;; ia <- num_cell c4 ;;
  c5 <- cell_at "Expense Description" i t ;; ds <- text_cell c5 ;;
  c6 <- cell_at "Expense Category" i t ;; ct <- str_cell c6 ;;
  c7 <- cell_at "Merchant Name" i t ;; mn <- str_cell c7 ;;
  c8 <- cell_at "Paid Through" i t ;; pt <- str_cell c8 ;;
  c9 <- cell_at "original_index" i t ;; oi <- num_cell c9 ;;
  Some (mkRow label rn dt ea ia ds ct mn pt oi).

Definition to_rows (t : raw_frame) : option (list row) :=
  all_some (map (fun p => row_at t (fst p) (snd p))
                (combine (seq 0 (List.length (raw_index t))) (raw_index t))).

(** The first statements after the reading block: the stable id column,
    the [Total] column dropped, the [Paid Through] column ensured. *)
Definition stage (t : raw_frame) : raw_frame :=
  let t1 := set_col "original_index" (map Num (raw_index t)) t in
  let t2 := if has_col "Total" t1 then drop_col "Total" t1 else t1 in
  if has_col "Paid Through" t2 then t2
  else set_col "Paid Through" (map (fun _ => Str "") (raw_index t2)) t2.

Section Load.
Context {P : Pandas}.

Definition datetime_cell (c : cell) : cell :=
  match to_datetime c with Some d => Stamp d | None => NaN end.

(** [pd.to_numeric(col, errors='coerce').fillna(0)] on one cell. *)
Definition numeric_cell (c : cell) : cell :=
  match to_numeric c with Some z => Num z | None => Num 0 end.

(** The statements of [load_file] between the reading block and
    [create_filter_widgets]. *)
Definition convert (t : raw_frame) : conversion :=
  let t3 := stage t in
  match map_col "Merchant Name" (fillna (Str "Unknown")) t3 with
  | None => KeyError t3
  | Some t4 =>
  match map_col "Expense Category" (fillna (Str "Uncategorized")) t4 with
  | None => KeyError t4
  | Some t5 =>
  match map_col "Paid Through" (fillna (Str "")) t5 with
  | None => KeyError t5
  | Some t6 =>
  match map_col "Expense Date" datetime_cell t6 with
  | None => KeyError t6
  | Some t7 =>
  match map_col "Expense Amount" numeric_cell t7 with
  | None => KeyError t7
  | Some t8 =>
  match map_col "Income Amount" numeric_cell t8 with
  | None => KeyError t8
  | Some t9 => Converted t9
  end end end end end end.

(** The [except Exception] branch of [load_file]. *)
Definition load_failed (st : app) (shown : list message) : result :=
  Returns (set_status StatusLoadFailed st) (shown ++ [ErrorLoad]).

(** [ExpenseAnalyzer.load_file].  [file_path] is the argument or the
    answer of the file dialog.  [None] as a result: the converted frame has
    no typed view (a ledger column other than the converted ones is
    missing or holds cells of another type) and ['Report Name'] is there;
    this development does not follow that case. *)
Definition load_file (file_path : option string) (read : read_result)
           (st : app) : option result :=
  match file_path with
  | None => Some (Returns st [])
  | Some p =>
      let st1 := begin_load p st in
      match read with
      | Unreadable => Some (load_failed st1 [])
      | Interrupted t => Some (load_failed (set_df (Some (Raw t)) st1) [])
      | Delivered t =>
          match convert t with
          | KeyError t' => Some (load_failed (set_df (Some (Raw t')) st1) [])
          | Converted t' =>
              if negb (has_col "Report Name" t')
              then (* KeyError in update_combos, after self.filters = {} *)
                Some (load_failed
                        (set_filters fresh_filters (set_df (Some (Raw t')) st1)) [])
              else
                rows <- to_rows t' ;;
                st2 <- create_filter_widgets (set_df (Some (Table rows)) st1) ;;
                r <- analyze st2 ;;
                Some (match r with
                      | Returns st3 shown => Returns st3 shown
                      | Raises st3 shown => load_failed st3 shown
                      end)
          end
      end
  end.

End Load.

(* ================================================================== *)
(** ** Record store: add, edit, delete *)

(** The result of a parser applied to the text of a dialog entry. *)
Inductive parsed (A : Type) : Type :=
| ParseError
| Parsed (a : A).
Arguments ParseError {A}.

(** The entries of the record dialog when [Save] is pressed:
    [pd.to_datetime] of the date text ([Parsed None] is [NaT]) and [float]
    of the two amounts. *)
Record dialog := mkDialog {
  in_date : parsed (option date);
  in_desc : string;
  in_cat : string;
  in_merch : string;
  in_paid : string;
  in_inc : parsed Z;
  in_exp : parsed Z
}.

Inductive dialog_mode :=
| ModeAdd
| ModeEdit (original_idx : Z).

Definition ids (rows : list row) : list Z := map original_index rows.

Definition labels_of (rows : list row) : list Z := map idx rows.

Definition with_idx (i : Z) (r : row) : row :=
  mkRow i (report_name r) (expense_date r) (expense_amount r) (income_amount r)
        (expense_description r) (expense_category r) (merchant_name r)
        (paid_through r) (original_index r).

(** The index after [pd.concat(..., ignore_index=True)]: [n], [n+1], ... *)
Fixpoint relabel (n : Z) (rows : list row) : list row :=
  match rows with
  | [] => []
  | r :: rs => with_idx n r :: relabel (n + 1) rs
  end.

Definition max_list (z : Z) (l : list Z) : Z := fold_left Z.max l z.

(** [self.df['original_index'].max() + 1 if not self.df.empty else 0] *)
Definition new_idx (rows : list row) : Z :=
  match ids rows with
  | [] => 0
  | z :: l => max_list z l + 1
  end.

(** [row_data] of the add branch; the index label is set by [relabel]. *)
Definition new_row (dt : option date) (inc exp : Z) (g : dialog) (id : Z) : row :=
  mkRow 0 (Some "Manual Entry") dt exp inc (Some (in_desc g)) (in_cat g)
        (in_merch g) (in_paid g) id.

(** [self.df = pd.concat([self.df, new_row], ignore_index=True)] *)
Definition add_row (dt : option date) (inc exp : Z) (g : dialog)
           (rows : list row) : list row :=
  relabel 0 (rows ++ [new_row dt inc exp g (new_idx rows)]).

(** The assignments [self.df.at[actual_idx, k] = v] of the edit branch. *)
Definition overwrite (dt : option date) (inc exp : Z) (g : dialog) (r : row) : row :=
  mkRow (idx r) (report_name r) dt exp inc (Some (in_desc g)) (in_cat g)
        (in_merch g) (in_paid g) (original_index r).

Definition edit_row (dt : option date) (inc exp : Z) (g : dialog)
           (original_idx : Z) (rows : list row) : option (list row) :=
  match find (fun r => original_index r =? original_idx) rows with
  | None => None      (* raise Exception("Record not found") *)
  | Some hit =>
      Some (map (fun r => if idx r =? idx hit then overwrite dt inc exp g r else r)
                rows)
  end.

(** [idx in self.df.index] *)
Definition in_index (i : Z) (rows : list row) : bool :=
  existsb (fun r => idx r =? i) rows.

(** [self.df.drop(idx, inplace=True)] *)
Definition drop (i : Z) (rows : list row) : list row :=
  filter (fun r => negb (idx r =? i)) rows.

(** The loop of [delete_record] over the selected items: the frame and
    [deleted_count]. *)
Fixpoint delete_loop (selected : list tree_item) (rows : list row) (count : Z)
  : list row * Z :=
  match selected with
  | [] => (rows, count)
  | item :: rest =>
      if in_index (ti_id item) rows
      then delete_loop rest (drop (ti_id item) rows) (count + 1)
      else delete_loop rest rows count
  end.

Section Mutations.
Context {P : Pandas}.

(** The closure [save] of [show_record_dialog].  [None] when [self.df] is
    not a converted frame (the dialog is opened on a loaded frame). *)
Definition save (m : dialog_mode) (g : dialog) (st : app) : option result :=
  match df st with
  | None | Some (Raw _) => None
  | Some (Table rows) =>
      match in_date g, in_inc g, in_exp g with
      | Parsed dt, Parsed inc, Parsed exp =>
          let changed :=
            match m with
            | ModeAdd => Some (add_row dt inc exp g rows, InfoAdded)
            | ModeEdit oi =>
                match edit_row dt inc exp g oi rows with
                | Some rows' => Some (rows', InfoUpdated)
                | None => None
                end
            end in
          match changed with
          | None => Some (Returns st [ErrorOperation])
          | Some (rows', info) =>
              match analyze_table rows' (set_df (Some (Table rows')) st) with
              | Returns st' shown => Some (Returns st' (info :: shown))
              | Raises st' shown =>
                  Some (Returns st' (info :: shown ++ [ErrorOperation]))
              end
          end
      | _, _, _ => Some (Returns st [ErrorValidation])
      end
  end.

(** [ExpenseAnalyzer.delete_record]; [selected] is [self.tree.selection()]
    and [confirm] the answer to the confirmation box. *)
Definition delete_record (selected : list tree_item) (confirm : bool)
           (st : app) : option result :=
  if negb (edit_mode st) then Some (Returns st [])
  else
    match df st with
    | None => Some (Returns st [])
    | Some (Raw _) => None
    | Some (Table rows) =>
        match selected with
        | [] => Some (Returns st [WarnSelectRecord])
        | _ =>
            if confirm then
              let (rows', count) := delete_loop selected rows 0 in
              if 0 <? count then
                match analyze_table rows' (set_df (Some (Table rows')) st) with
                | Returns st' shown =>
                    Some (Returns st' (shown ++ [InfoDeleted count]))
                | Raises st' shown => Some (Raises st' shown)
                end
              else Some (Returns (set_df (Some (Table rows')) st)
                                 [WarnCouldNotDelete])
            else Some (Returns st [])
        end
    end.

End Mutations.

(* ================================================================== *)
(** ** An implementation of the pandas interface *)

(** [date_desc] as a test. *)
Definition desc_leb (a b : brow) : bool :=
  match expense_date (base a), expense_date (base b) with
  | Some x, Some y => date_leb y x
  | _, None => true
  | None, Some _ => false
  end.

Ltac zbool :=
  repeat rewrite ?orb_true_iff, ?andb_true_iff, ?orb_false_iff, ?andb_false_iff,
         ?Z.ltb_lt, ?Z.eqb_eq, ?Z.leb_le, ?Z.ltb_ge, ?Z.eqb_neq, ?Z.leb_gt in *.

Lemma date_leb_refl (a : date) : date_leb a a = true.
Proof. unfold date_leb. zbool. lia. Qed.

Lemma date_leb_total (a b : date) : date_leb a b = false -> date_leb b a = true.
Proof. unfold date_leb. zbool. lia. Qed.

Lemma date_leb_trans (a b c : date) :
  date_leb a b = true -> date_leb b c = true -> date_leb a c = true.
Proof. unfold date_leb. zbool. lia. Qed.

Lemma date_leb_antisym (a b : date) :
  date_leb a b = true -> date_leb b a = true -> a = b.
Proof.
  destruct a as [y1 m1 d1], b as [y2 m2 d2]; unfold date_leb; simpl.
  zbool. intros H1 H2.
  assert (y1 = y2 /\ m1 = m2 /\ d1 = d2) as (-> & -> & ->) by lia.
  reflexivity.
Qed.

Lemma desc_leb_iff (a b : brow) : desc_leb a b = true <-> date_desc a b.
Proof.
  unfold desc_leb, date_desc.
  destruct (expense_date (base a)), (expense_date (base b)); intuition discriminate.
Qed.

Lemma desc_leb_total (a b : brow) : desc_leb a b = false -> desc_leb b a = true.
Proof.
  unfold desc_leb.
  destruct (expense_date (base a)), (expense_date (base b));
    try discriminate; auto using date_leb_total.
Qed.

Lemma desc_leb_trans (a b c : brow) :
  desc_leb a b = true -> desc_leb b c = true -> desc_leb a c = true.
Proof.
  unfold desc_leb.
  destruct (expense_date (base a)), (expense_date (base b)),
    (expense_date (base c)); try discriminate; auto.
  intros; eapply date_leb_trans; eauto.
Qed.

Section SortedInsertion.
Variable A : Type.
Variable leb : A -> A -> bool.
Hypothesis leb_total : forall a b, leb a b = false -> leb b a = true.
Hypothesis leb_trans :
  forall a b c, leb a b = true -> leb b c = true -> leb a c = true.

Let R (a b : A) : Prop := leb a b = true.

Lemma insert_by_sorted (x : A) (l : list A) :
  StronglySorted R l -> StronglySorted R (insert_by leb x l).
Proof.
  induction 1 as [|y l Hs IH Hy]; simpl.
  - repeat constructor.
  - destruct (leb x y) eqn:E.
    + constructor; [constructor; assumption|].
      constructor; [exact E|].
      eapply Forall_impl; [|exact Hy].
      intros z Hz. unfold R in *. eauto.
    + constructor; [exact IH|].
      eapply Permutation_Forall; [apply insert_by_perm|].
      constructor; [apply leb_total, E | exact Hy].
Qed.

Lemma sort_by_sorted (l : list A) : StronglySorted R (sort_by leb l).
Proof.
  induction l as [|x l IH]; simpl; [constructor|].
  now apply insert_by_sorted.
Qed.
End SortedInsertion.

Lemma StronglySorted_impl (A : Type) (R S : A -> A -> Prop) (l : list A) :
  (forall a b, R a b -> S a b) -> StronglySorted R l -> StronglySorted S l.
Proof.
  intros HRS; induction 1 as [|a l Hs IH Ha]; constructor.
  - exact IH.
  - eapply Forall_impl; [|exact Ha]. intros b; apply HRS.
Qed.

(** A sort that keeps rows of one date in their input order. *)
Definition sort_keep (d : list brow) : list brow := sort_by desc_leb d.

Lemma sort_keep_sorted (d : list brow) : StronglySorted date_desc (sort_keep d).
Proof.
  eapply StronglySorted_impl; [|apply sort_by_sorted].
  - intros a b; apply desc_leb_iff.
  - apply desc_leb_total.
  - apply desc_leb_trans.
Qed.

(** A regular-expression engine restricted to literal patterns. *)
Definition literal_compile (ignorecase : bool) (pat : string)
  : option (string -> bool) :=
  if Text.regex_plain pat
  then Some (fun s => if ignorecase
                      then Text.contains (Text.lower pat) (Text.lower s)
                      else Text.contains pat s)
  else None.

Lemma literal_compile_plain (ignorecase : bool) (pat : string) :
  Text.regex_plain pat = true ->
  exists m, literal_compile ignorecase pat = Some m /\
            forall s, m s = if ignorecase
                            then Text.contains (Text.lower pat) (Text.lower s)
                            else Text.contains pat s.
Proof.
  intros H. unfold literal_compile. rewrite H. eexists; split; reflexivity.
Qed.

(** Coercions that accept cells already of the right type. *)
Definition stamp_only (c : cell) : option date :=
  match c with Stamp d => Some d | _ => None end.

#[local] Instance pandas_keep : Pandas := {|
  re_compile := literal_compile;
  re_compile_plain := literal_compile_plain;
  sort_values_desc := sort_keep;
  sort_values_perm := sort_by_perm desc_leb;
  sort_values_sorted := sort_keep_sorted;
  to_datetime := stamp_only;
  to_numeric := num_cell
|}.

(* ================================================================== *)
(** ** The default sort kind *)

(** [DataFrame.sort_values(by, ascending=False)] with one key and no [kind]
    takes the order of its rows from [nargsort] (pandas/core/sorting.py),
    which calls [ndarray.argsort(kind='quicksort')]: numpy's [aquicksort]
    (npysort/quicksort), an introsort on an array of row positions.  Both
    are embedded here as the libraries write them, positions of the array
    [tosort] as integers. *)
Module Npysort.

Section Argsort.
Variable K : Type.
Variable LT : K -> K -> bool.     (* [LT(a, b)] of the key type *)
Variable v : nat -> K.            (* the keys: [v[i]] *)

(** [tosort[i]] and [tosort[i] = x]. *)
Definition get (a : list nat) (i : Z) : nat := nth (Z.to_nat i) a 0%nat.

Fixpoint put_nth (a : list nat) (n : nat) (x : nat) : list nat :=
  match a, n with
  | [], _ => []
  | _ :: a, O => x :: a
  | y :: a, S n => y :: put_nth a n x
  end.

Definition put (a : list nat) (i : Z) (x : nat) : list nat :=
  put_nth a (Z.to_nat i) x.

Definition INTP_SWAP (a : list nat) (i j : Z) : list nat :=
  put (put a i (get a j)) j (get a i).

Definition SMALL_QUICKSORT : Z := 16.

(** [int depth_limit = 0; while (unum >>= 1) depth_limit++;] *)
Definition npy_get_msb (num : Z) : Z := Z.log2 num.

(** [do ++pi; while (LT(v[*pi], vp));] with [room] cells left above [pi];
    [None]: the scan leaves the array. *)
Fixpoint scan_up (room : nat) (a : list nat) (vp : K) (pi : Z) : option Z :=
  match room with
  | O => None
  | S room =>
      let pi := pi + 1 in
      if LT (v (get a pi)) vp then scan_up room a vp pi else Some pi
  end.

(** [do --pj; while (LT(vp, v[*pj]));] with [room] cells left below [pj]. *)
Fixpoint scan_down (room : nat) (a : list nat) (vp : K) (pj : Z) : option Z :=
  match room with
  | O => None
  | S room =>
      let pj := pj - 1 in
      if LT vp (v (get a pj)) then scan_down room a vp pj else Some pj
  end.

(** [for (;;) { do ++pi ...; do --pj ...; if (pi >= pj) break;
    swap of tosort[pi] and tosort[pj]; }]; the result is the array and [pi]. *)
Fixpoint partition (fuel : nat) (a : list nat) (vp : K) (pi pj : Z)
  : option (list nat * Z) :=
  match fuel with
  | O => None
  | S fuel =>
      match scan_up (List.length a) a vp pi with
      | None => None
      | Some pi =>
          match scan_down (List.length a) a vp pj with
          | None => None
          | Some pj =>
              if pj <=? pi then Some (a, pi)
              else partition fuel (INTP_SWAP a pi pj) vp pi pj
          end
      end
  end.

(** [while (pj > pl && LT(vp, v[*pk])) { *pj-- = *pk--; }  *pj = vi;] with
    [pj = pl + k]. *)
Fixpoint shift (a : list nat) (pl : Z) (vi : nat) (k : nat) : list nat :=
  match k with
  | O => put a pl vi
  | S k' =>
      let pj := pl + Z.of_nat k in
      if LT (v vi) (v (get a (pj - 1)))
      then shift (put a pj (get a (pj - 1))) pl vi k'
      else put a pj vi
  end.

(** [for (pi = pl + 1; pi <= pr; ++pi) { vi = *pi; ... }] *)
Definition insertion_sort (a : list nat) (pl pr : Z) : list nat :=
  fold_left (fun a k => shift a pl (get a (pl + Z.of_nat k)) k)
            (seq 1 (Z.to_nat (pr - pl))) a.

(** The body of [aquicksort]: partitions while the range holds more than
    [SMALL_QUICKSORT] + 1 positions, sorts the rest by insertion, and goes
    on with the range on top of the stack; each stack entry holds a range
    and the depth left for it.  [None]: the depth is used up (the function
    turns to [aheapsort], which is not embedded), or a scan leaves the
    array, or [fuel] runs out. *)
Fixpoint aquicksort_loop (fuel : nat) (a : list nat) (pl pr cdepth : Z)
         (stack : list (Z * Z * Z)) : option (list nat) :=
  match fuel with
  | O => None
  | S fuel =>
      if SMALL_QUICKSORT <? pr - pl then
        let pm := pl + Z.shiftr (pr - pl) 1 in
        let a := if LT (v (get a pm)) (v (get a pl)) then INTP_SWAP a pm pl else a in
        let a := if LT (v (get a pr)) (v (get a pm)) then INTP_SWAP a pr pm else a in
        let a := if LT (v (get a pm)) (v (get a pl)) then INTP_SWAP a pm pl else a in
        let vp := v (get a pm) in
        let a := INTP_SWAP a pm (pr - 1) in
        match partition (List.length a) a vp pl (pr - 1) with
        | None => None
        | Some (a, pi) =>
            let a := INTP_SWAP a pi (pr - 1) in
            let cdepth := cdepth - 1 in
            (* push largest partition on stack *)
            if pi - pl <? pr - pi
            then aquicksort_loop fuel a pl (pi - 1) cdepth
                                 ((pi + 1, pr, cdepth) :: stack)
            else aquicksort_loop fuel a (pi + 1) pr cdepth
                                 ((pl, pi - 1, cdepth) :: stack)
        end
      else
        let a := insertion_sort a pl pr in
        match stack with
        | [] => Some a
        | (pl, pr, cdepth) :: stack =>
            if cdepth <? 0 then None
            else aquicksort_loop fuel a pl pr cdepth stack
        end
  end.

(** [aquicksort(v, tosort, num)] on [tosort = arange(num)]. *)
Definition aquicksort (num : nat) : option (list nat) :=
  aquicksort_loop (2 * num + 1) (seq 0 num) 0 (Z.of_nat num - 1)
                  (npy_get_msb (Z.of_nat num) * 2) [].

End Argsort.

(** [keys.argsort(kind='quicksort')] *)
Definition argsort (K : Type) (LT : K -> K -> bool) (keys : list K)
  : option (list nat) :=
  match keys with
  | [] => Some []
  | k0 :: _ => aquicksort LT (fun i => nth i keys k0) (List.length keys)
  end.

(** [a < b] on timestamps. *)
Definition date_ltb (a b : date) : bool := negb (date_leb b a).

Definition is_nat (r : brow) : bool := negb (has_date (base r)).

(** [nargsort(items, kind='quicksort', ascending=False, na_position='last')]
    on the column ['Expense Date']:
    [non_nans = items[~mask][::-1]], [non_nan_idx = idx[~mask][::-1]],
    [indexer = non_nan_idx[non_nans.argsort(kind=kind)][::-1]], then
    [np.concatenate([indexer, nan_idx])]. *)
Definition nargsort (d : list brow) : option (list nat) :=
  let idx := seq 0 (List.length d) in
  let mask := fun i => match nth_error d i with
                       | Some r => is_nat r
                       | None => false
                       end in
  let non_nans := rev (somes (map (fun r => expense_date (base r)) d)) in
  let non_nan_idx := rev (filter (fun i => negb (mask i)) idx) in
  let nan_idx := filter mask idx in
  match argsort date_ltb non_nans with
  | None => None
  | Some order =>
      Some (rev (map (fun i => nth i non_nan_idx 0%nat) order) ++ nan_idx)
  end.

(** [d.sort_values('Expense Date', ascending=False)]: the rows taken in the
    order of the indexer. *)
Definition sort_values (d : list brow) : option (list brow) :=
  match nargsort d with
  | None => None
  | Some indexer => Some (somes (map (nth_error d) indexer))
  end.

End Npysort.

(* ================================================================== *)
(** ** Facts about the list helpers *)

Section UniqueFacts.
Variable A : Type.
Variable eqb : A -> A -> bool.
Hypothesis eqb_spec : forall a b, eqb a b = true <-> a = b.

Lemma unique_In (l : list A) (x : A) : In x (unique eqb l) <-> In x l.
Proof.
  induction l as [|y l IH]; simpl; [tauto|].
  rewrite filter_In, IH. cbv beta. split.
  - intros [H|[H _]]; auto.
  - intros [H|H]; auto.
    destruct (eqb y x) eqn:E.
    + left. now apply eqb_spec.
    + right. split; [exact H | reflexivity].
Qed.

Lemma unique_NoDup (l : list A) : NoDup (unique eqb l).
Proof.
  induction l as [|y l IH]; simpl; constructor.
  - rewrite filter_In. cbv beta. intros [_ H].
    assert (E : eqb y y = true) by now apply eqb_spec.
    rewrite E in H. discriminate.
  - now apply NoDup_filter.
Qed.
End UniqueFacts.

Lemma key_eqb_spec (a b : string * string) : key_eqb a b = true <-> a = b.
Proof.
  destruct a as [a1 a2], b as [b1 b2]; unfold key_eqb; simpl.
  rewrite andb_true_iff, !String.eqb_eq. split.
  - now intros [-> ->].
  - intros H; inversion H; auto.
Qed.

Lemma somes_In (A : Type) (l : list (option A)) (x : A) :
  In x (somes l) <-> In (Some x) l.
Proof.
  induction l as [|[a|] l IH]; simpl.
  - tauto.
  - rewrite IH. split; intros [H|H]; auto; left; congruence.
  - rewrite IH. split; auto. intros [H|H]; [discriminate|auto].
Qed.

Lemma sum_Z_sub (A : Type) (f g : A -> Z) (l : list A) :
  sum_Z (map (fun a => f a - g a) l) = sum_Z (map f l) - sum_Z (map g l).
Proof. induction l as [|a l IH]; simpl; lia. Qed.

Lemma sum_Z_ext (A : Type) (f g : A -> Z) (l : list A) :
  (forall a, In a l -> f a = g a) -> sum_Z (map f l) = sum_Z (map g l).
Proof.
  induction l as [|a l IH]; simpl; intros H; [reflexivity|].
  rewrite H, IH; auto.
Qed.

Lemma filter_length_le (A : Type) (p : A -> bool) (l : list A) :
  (List.length (filter p l) <= List.length l)%nat.
Proof. induction l as [|a l IH]; simpl; [lia|]. destruct (p a); simpl; lia. Qed.

Section Grouping.
Context {D : Dtype} {R : Type} {C : Columns D R}.

Lemma group_keys_In (d : list R) (k : string * string) :
  In k (group_keys d) <-> exists r, In r d /\ group_key r = k.
Proof.
  unfold group_keys. rewrite sort_by_In, (@unique_In _ _ key_eqb_spec), in_map_iff.
  split; intros (r & H1 & H2); exists r; auto.
Qed.

Lemma group_keys_NoDup (d : list R) : NoDup (group_keys d).
Proof. apply sort_by_NoDup, (@unique_NoDup _ _ key_eqb_spec). Qed.

Lemma sum_grp_keys (d : list R) :
  map (fun g => (g_category g, g_merchant g)) (sum_grp d) = group_keys d.
Proof.
  unfold sum_grp. rewrite map_map. simpl.
  rewrite <- (map_id (group_keys d)) at 2.
  apply map_ext. now intros [a b].
Qed.

End Grouping.

(* ================================================================== *)
(** ** Sample data *)

Definition ledger_row (i : Z) (t : option date) (exp inc : Z)
           (desc cat merch : string) : row :=
  mkRow i (Some "R1") t exp inc (Some desc) cat merch "" i.

(** Three expenses: Food 30, Food 20, Travel 50, no income. *)
Definition food_travel : list brow :=
  map mk_bal
      [ ledger_row 0 (Some (mkDate 2024 1 5)) 30 0 "lunch" "Food" "Unknown";
        ledger_row 1 (Some (mkDate 2024 1 6)) 20 0 "snack" "Food" "Unknown";
        ledger_row 2 (Some (mkDate 2024 1 7)) 50 0 "train" "Travel" "Unknown" ].

Definition group_id {D : Dtype} (g : @group_row D) : string * string :=
  (g_category g, g_merchant g).

Section Rounding.
Import PrimFloat.

(** Two rows of one group in float64 columns: income 0.1 with expense 0.3,
    and income 0.2 with no expense. *)
Definition tenths : list (cells float64) :=
  [ @mkCells float64 "Food" "Cafe" (1 / 10)%float (3 / 10)%float;
    @mkCells float64 "Food" "Cafe" (2 / 10)%float 0%float ].

End Rounding.

(* ================================================================== *)
(** ** Aggregator *)

Section RoundedNet.
Import PrimFloat.

(** C7, as claimed, fails on float64 columns.  On the two rows of [tenths]
    the summary has one line, whose income sum is 0.1 + 0.2
    (0.30000000000000004), whose expense sum is 0.3 + 0 (0.3) and whose net,
    the sum of the balances 0.1 - 0.3 and 0.2 - 0, is 2^-55
    (2.78e-17), while the income sum minus the expense sum is 2^-54
    (5.55e-17): the net of the line is not sum(income) - sum(expense). *)
Lemma float_net_is_not_income_minus_expense :
  sum_grp tenths =
    [ @mkGroup float64 "Food" "Cafe" 2
               0x1.3333333333334p-2%float 0x1.3333333333333p-2%float
               0x1p-55%float ] /\
  (0x1.3333333333334p-2 - 0x1.3333333333333p-2 = 0x1p-54)%float /\
  ~ (forall g, In g (sum_grp tenths) ->
               g_total g = subtract (g_inc g) (g_exp g)).
Proof.
  split; [reflexivity|]. split; [reflexivity|].
  intros H. specialize (H _ (or_introl eq_refl)). vm_compute in H.
  assert (E : (0x1p-55 =? 0x1p-54)%float = true) by (rewrite H; reflexivity).
  discriminate E.
Qed.

End RoundedNet.

(** C7, amended.  For every analysed frame [d] of any dtype (whose [Bal]
    column is income minus expense row by row, as [analyze] computes it),
    the summary has exactly one line per distinct (category, merchant) pair
    of [d]; each line holds the number of rows of its pair, the sum of their
    incomes, the sum of their expenses, and as net the sum of their
    balances, income minus expense row by row; the totals are the number of
    rows, the total income, the total expense and their difference.  When
    the amounts are whole numbers the net of a line is the income sum minus
    the expense sum.  On Food 30, Food 20, Travel 50 with no income the
    lines are Food: 2 rows, 50 and Travel: 1 row, 50, and the total expense
    is 100. *)
Theorem aggregate_groups_and_totals
        (D : Dtype) (R : Type) (C : Columns D R) (d : list R) :
  (forall r, In r d -> balance r = subtract (income r) (expense r)) ->
  NoDup (map group_id (sum_grp d)) /\
  (forall k, In k (map group_id (sum_grp d)) <->
             exists r, In r d /\ (category r, merchant r) = k) /\
  (forall g, In g (sum_grp d) ->
     let rs := filter (fun r => (g_category g =? category r)%string &&
                                (g_merchant g =? merchant r)%string) d in
     g_count g = Z.of_nat (List.length rs) /\
     g_inc g = group_sum (map income rs) /\
     g_exp g = group_sum (map expense rs) /\
     g_total g = group_sum (map (fun r => subtract (income r) (expense r)) rs)) /\
  lbl_records (totals_of d) = Z.of_nat (List.length d) /\
  lbl_inc (totals_of d) = series_sum (map income d) /\
  lbl_exp (totals_of d) = series_sum (map expense d) /\
  lbl_bal (totals_of d) = subtract (lbl_inc (totals_of d)) (lbl_exp (totals_of d)) /\
  (forall whole : list brow,
     (forall r, In r whole ->
                bal r = income_amount (base r) - expense_amount (base r)) ->
     forall g, In g (sum_grp whole) -> g_total g = g_inc g - g_exp g) /\
  sum_grp food_travel =
    [ @mkGroup int64 "Food" "Unknown" 2 0 50 (-50);
      @mkGroup int64 "Travel" "Unknown" 1 0 50 (-50) ] /\
  lbl_exp (totals_of food_travel) = 100.
Proof.
  intros Hbal.
  assert (Hkeys : map group_id (sum_grp d) = group_keys d) by apply sum_grp_keys.
  split; [rewrite Hkeys; apply group_keys_NoDup|].
  split; [intros k; rewrite Hkeys; apply group_keys_In|].
  split.
  { intros g Hg. unfold sum_grp in Hg. apply in_map_iff in Hg as (k & <- & _).
    destruct k as [c m]. cbn zeta.
    split; [reflexivity|]. split; [reflexivity|]. split; [reflexivity|].
    unfold aggregate_group. cbn [g_total g_category g_merchant fst snd].
    f_equal. apply map_ext_in. intros r Hr. apply Hbal.
    unfold group_of in Hr. now apply filter_In in Hr. }
  split; [reflexivity|]. split; [reflexivity|]. split; [reflexivity|].
  split; [reflexivity|]. split; [|split; reflexivity].
  intros whole Hw g Hg. unfold sum_grp in Hg.
  apply in_map_iff in Hg as (k & <- & _).
  unfold aggregate_group. cbn [g_total g_inc g_exp].
  change (@group_sum int64) with sum_Z.
  rewrite <- (@sum_Z_sub brow). apply sum_Z_ext.
  intros r Hr. apply Hw. unfold group_of in Hr. now apply filter_In in Hr.
Qed.

Lemma aggregate_groups_and_totals_witness :
  (forall g, In g (sum_grp food_travel) ->
     g_total g =
     sum_Z (map (fun r => income_amount (base r) - expense_amount (base r))
                (filter (fun r => (g_category g =? category r)%string &&
                                  (g_merchant g =? merchant r)%string)
                        food_travel))) /\
  lbl_bal (totals_of food_travel) = -100.
Proof.
  assert (H : forall r, In r food_travel ->
                        bal r = income_amount (base r) - expense_amount (base r)).
  { intros r Hr. unfold food_travel in Hr. apply in_map_iff in Hr as (x & <- & _).
    reflexivity. }
  destruct (aggregate_groups_and_totals brow_columns food_travel H)
    as (_ & _ & Hg & _ & _ & _ & _ & _).
  split; [|reflexivity].
  intros g Hin. apply (Hg g Hin).
Defined.

(* ================================================================== *)
(** ** Filter domain calculator *)

(** A row passes every active selection of the combo boxes, with the
    matching of [update_combos]. *)
Definition selected (s : selection) (r : row) : Prop :=
  (forall k val, active (text_var k s) = Some val -> combo_match k val r = true) /\
  (forall y, year_var s = Some y -> year_is y r = true) /\
  (forall m, month_var s = Some m -> month_is m r = true).

Lemma narrow_text_In (k : text_key) (s : selection) (d : list row) (r : row) :
  In r (narrow_text k s d) <->
  In r d /\ (forall val, active (text_var k s) = Some val -> combo_match k val r = true).
Proof.
  unfold narrow_text. destruct (active (text_var k s)) as [v|].
  - rewrite filter_In. split.
    + intros [H1 H2]; split; [exact H1|]. intros val Hv; congruence.
    + intros [H1 H2]; split; auto.
  - split; [|tauto]. intros H; split; [exact H|discriminate].
Qed.

Lemma opt_narrow_In (o : option Z) (p : Z -> row -> bool) (d : list row) (r : row) :
  In r (match o with Some z => filter (p z) d | None => d end) <->
  In r d /\ (forall z, o = Some z -> p z r = true).
Proof.
  destruct o as [z|].
  - rewrite filter_In. split.
    + intros [H1 H2]; split; [exact H1|]. intros z' Hz; congruence.
    + intros [H1 H2]; split; auto.
  - split; [|tauto]. intros H; split; [exact H|discriminate].
Qed.

Lemma narrowed_In (s : selection) (rows : list row) (r : row) :
  In r (narrowed s rows) <-> In r rows /\ has_date r = true /\ selected s r.
Proof.
  unfold narrowed, selected.
  rewrite !narrow_text_In, !opt_narrow_In, narrow_text_In.
  unfold dropna_date. rewrite filter_In.
  split.
  - intros (((((H0 & Hr) & Hy) & Hm) & Hc) & Hme) . destruct H0 as [[Hin Hd] Hrep].
    repeat split; auto.
    intros [] val Hv; auto.
  - intros (Hin & Hd & Ht & Hy & Hm).
    repeat split; auto; intros val Hv; eapply Ht; eassumption.
Qed.

Lemma month_domain_In (d : list row) (s : string) :
  In s (month_domain d) <->
  exists r t, In r d /\ expense_date r = Some t /\ s = Text.fmt02 (month t).
Proof.
  unfold month_domain. rewrite in_map_iff. split.
  - intros (m & <- & Hm).
    apply (proj1 (@unique_In Z Z.eqb Z.eqb_eq _ _)) in Hm.
    apply in_map_iff in Hm as (t & <- & Ht).
    apply somes_In, in_map_iff in Ht as (r & Hr & Hin).
    now exists r, t.
  - intros (r & t & Hin & Hr & ->).
    exists (month t). split; [reflexivity|].
    apply (proj2 (@unique_In Z Z.eqb Z.eqb_eq _ _)), in_map_iff.
    exists t. split; [reflexivity|].
    apply somes_In, in_map_iff. now exists r.
Qed.

Lemma fmt02_month_length (m : Z) :
  1 <= m <= 12 -> String.length (Text.fmt02 m) = 2%nat.
Proof.
  intros H.
  assert (E : m = 1 \/ m = 2 \/ m = 3 \/ m = 4 \/ m = 5 \/ m = 6 \/ m = 7 \/
              m = 8 \/ m = 9 \/ m = 10 \/ m = 11 \/ m = 12) by lia.
  repeat (destruct E as [-> | E]; [reflexivity|]).
  subst m; reflexivity.
Qed.

(** Two records, dated January 2024 and February 2025. *)
Definition two_years : list row :=
  [ ledger_row 0 (Some (mkDate 2024 1 15)) 10 0 "a" "C1" "M1";
    ledger_row 1 (Some (mkDate 2025 2 10)) 20 0 "b" "C2" "M2" ].

Definition select_year (y : Z) : filters_t :=
  mkFilters (mkSelection "All" (Some y) None "All" "All" "All" "")
            no_ranges (mkCombos [] [] [] [] [] []).

Definition app_with (rows : list row) (f : filters_t) : app :=
  mkApp (Some (Table rows)) f None None [] [] true false (Some "ledger.csv")
        (StatusLoaded "ledger.csv").

Lemma active_inv (v val : string) :
  active v = Some val -> v = val /\ v <> "All"%string.
Proof.
  unfold active. destruct (v =? "All")%string eqn:E; [discriminate|].
  intros H; inversion H; subst. split; [reflexivity|]. now apply String.eqb_neq.
Qed.

Lemma active_intro (v : string) : v <> "All"%string -> active v = Some v.
Proof.
  intros H. unfold active. apply String.eqb_neq in H. now rewrite H.
Qed.

(** The record [r], dated [t], is in the subset narrowed by the selection
    [s], spelled out column by column: a combo variable other than "All"
    must be the content of its column (a missing report name is no
    content), a selected year or month must be the year or month of [t]. *)
Definition chosen (s : selection) (r : row) (t : date) : Prop :=
  expense_date r = Some t /\
  (report_var s <> "All"%string -> report_name r = Some (report_var s)) /\
  (forall y, year_var s = Some y -> year t = y) /\
  (forall m, month_var s = Some m -> month t = m) /\
  (category_var s <> "All"%string -> expense_category r = category_var s) /\
  (merchant_var s <> "All"%string -> merchant_name r = merchant_var s) /\
  (paid_var s <> "All"%string -> paid_through r = paid_var s).

(** The twelve months as two-digit texts. *)
Definition two_digit_months : list string :=
  ["01"; "02"; "03"; "04"; "05"; "06"; "07"; "08"; "09"; "10"; "11"; "12"]%string.

Definition two_digit (m : Z) : string :=
  nth (Z.to_nat (m - 1)) two_digit_months EmptyString.

(** Every date of the store has a calendar month. *)
Definition calendar_months (rows : list row) : Prop :=
  forall r t, In r rows -> expense_date r = Some t -> 1 <= month t <= 12.

Ltac month_cases m H :=
  let E := fresh "E" in
  assert (E : m = 1 \/ m = 2 \/ m = 3 \/ m = 4 \/ m = 5 \/ m = 6 \/ m = 7 \/
              m = 8 \/ m = 9 \/ m = 10 \/ m = 11 \/ m = 12) by lia;
  clear H;
  repeat (destruct E as [-> | E]; [|]); [..|subst m].

Lemma fmt02_two_digit (m : Z) : 1 <= m <= 12 -> Text.fmt02 m = two_digit m.
Proof. intros H. month_cases m H; reflexivity. Qed.

Lemma two_digit_inj (m n : Z) :
  1 <= m <= 12 -> 1 <= n <= 12 -> two_digit m = two_digit n -> m = n.
Proof.
  intros Hm Hn. month_cases m Hm; month_cases n Hn;
    intros E; first [reflexivity | discriminate E].
Qed.

Lemma selected_chosen (s : selection) (r : row) (t : date) :
  expense_date r = Some t -> (selected s r <-> chosen s r t).
Proof.
  intros Ht. unfold selected, chosen, combo_match, year_is, month_is.
  rewrite Ht. split.
  - intros (Hk & Hy & Hm). split; [reflexivity|].
    assert (Hcol : forall k, text_var k s <> "All"%string ->
                             column k r = Some (text_var k s)).
    { intros k Hne. specialize (Hk k _ (active_intro Hne)).
      destruct (column k r) as [c|]; [|discriminate].
      apply String.eqb_eq in Hk. now subst. }
    split; [apply (Hcol KReport)|].
    split; [intros y Ey; now apply Z.eqb_eq, Hy|].
    split; [intros m Em; now apply Z.eqb_eq, Hm|].
    split; [intros H; specialize (Hcol KCategory H); now inversion Hcol|].
    split; [intros H; specialize (Hcol KMerchant H); now inversion Hcol|].
    intros H. specialize (Hcol KPaid H). now inversion Hcol.
  - intros (_ & Hr & Hy & Hm & Hc & Hme & Hp). split; [|split].
    + intros k val Hv. apply active_inv in Hv as [Hv Hne].
      destruct k; simpl in *; subst val.
      * rewrite (Hr Hne). apply String.eqb_refl.
      * rewrite (Hc Hne). apply String.eqb_refl.
      * rewrite (Hme Hne). apply String.eqb_refl.
      * rewrite (Hp Hne). apply String.eqb_refl.
    + intros y Ey. apply Z.eqb_eq. now apply Hy.
    + intros m Em. apply Z.eqb_eq. now apply Hm.
Qed.

Lemma NoDup_two_digit (ms : list Z) :
  (forall m, In m ms -> 1 <= m <= 12) -> NoDup ms -> NoDup (map two_digit ms).
Proof.
  intros Hr Hnd. induction Hnd as [|m ms Hnin Hnd IH]; [constructor|].
  cbn [map]. constructor.
  - intros Hin. apply in_map_iff in Hin as (n & En & Hn).
    apply two_digit_inj in En; [subst n; now apply Hnin| |]; apply Hr;
      [now right | now left].
  - apply IH. intros n Hn. apply Hr. now right.
Qed.

Lemma month_domain_two_digit (d : list row) :
  (forall r t, In r d -> expense_date r = Some t -> 1 <= month t <= 12) ->
  month_domain d
  = map two_digit (unique Z.eqb (map month (somes (map expense_date d)))) /\
  NoDup (month_domain d).
Proof.
  intros Hcal.
  assert (Hms : forall m,
            In m (unique Z.eqb (map month (somes (map expense_date d)))) ->
            1 <= m <= 12).
  { intros m Hm. apply (proj1 (@unique_In Z Z.eqb Z.eqb_eq _ _)) in Hm.
    apply in_map_iff in Hm as (t & <- & Ht).
    apply somes_In, in_map_iff in Ht as (r & Hr & Hin). eauto. }
  assert (E : month_domain d
              = map two_digit
                    (unique Z.eqb (map month (somes (map expense_date d))))).
  { unfold month_domain. apply map_ext_in. intros m Hm.
    apply fmt02_two_digit, Hms, Hm. }
  split; [exact E|]. rewrite E. apply NoDup_two_digit; [exact Hms|].
  apply (@unique_NoDup Z Z.eqb Z.eqb_eq).
Qed.

(** Three records: January 2024 and March 2024 in two categories, February
    2025. *)
Definition seasons : list row :=
  [ ledger_row 0 (Some (mkDate 2024 1 15)) 10 0 "a" "C1" "M1";
    ledger_row 1 (Some (mkDate 2024 3 2)) 30 0 "c" "C2" "M1";
    ledger_row 2 (Some (mkDate 2025 2 10)) 20 0 "b" "C1" "M2" ].

Definition select (y m : option Z) (category merchant : string) : filters_t :=
  mkFilters (mkSelection "All" y m category merchant "All" "")
            no_ranges (mkCombos [] [] [] [] [] []).

Definition months_offered (rows : list row) (f : filters_t) : option (list string) :=
  option_map (fun a => month_values (combos (filters a)))
             (update_combos (app_with rows f)).

(** C8.  On a loaded store whose dates have calendar months,
    [update_combos] sets the values of the month combo to ["All"] followed
    by the month domain, in which no text occurs twice; a text is in the
    domain exactly when it is the two-digit text ("01" to "12") of the month
    of some dated record of the store whose report name, category, merchant
    and payment method are the selected ones and whose date has the selected
    year and the selected month, a combo left on "All" selecting nothing.
    With one record in January 2024 and one in February 2025, selecting the
    year 2024 leaves the month domain ["01"] alone; on a store with records
    in January and March 2024 and February 2025, a selected month, category
    or merchant narrows the domain in the same way. *)
Theorem month_domain_of_selection (st : app) (rows : list row) :
  df st = Some (Table rows) ->
  updating_combos st = false ->
  calendar_months rows ->
  exists st' dom,
    update_combos st = Some st' /\
    month_values (combos (filters st')) = "All"%string :: dom /\
    NoDup dom /\
    (forall s, In s dom <->
       exists r t, In r rows /\ chosen (vars (filters st)) r t /\
                   s = two_digit (month t)) /\
    months_offered two_years (select_year 2024) = Some ["All"; "01"]%string /\
    months_offered seasons (select (Some 2024) None "All" "All")
    = Some ["All"; "01"; "03"]%string /\
    months_offered seasons (select None (Some 3) "All" "All")
    = Some ["All"; "03"]%string /\
    months_offered seasons (select None None "C1" "All")
    = Some ["All"; "01"; "02"]%string /\
    months_offered seasons (select (Some 2024) None "All" "M2")
    = Some ["All"]%string.
Proof.
  intros Hdf Hup Hcal.
  set (d := narrowed (vars (filters st)) rows).
  assert (Hd : forall r t, In r d -> expense_date r = Some t ->
                           1 <= month t <= 12).
  { intros r t Hr Ht. apply narrowed_In in Hr as (Hr & _). eauto. }
  destruct (month_domain_two_digit d Hd) as [Edom Hnd].
  exists (set_filters (refresh_filters (filters st) rows) st).
  exists (sort_by String.leb (month_domain d)).
  split; [unfold update_combos; now rewrite Hdf, Hup|].
  split; [reflexivity|].
  split; [now apply sort_by_NoDup|].
  split; [|repeat split; reflexivity].
  intros s. rewrite sort_by_In, month_domain_In. split.
  - intros (r & t & Hin & Ht & ->).
    pose proof (Hd r t Hin Ht) as Hm.
    apply narrowed_In in Hin as (Hin & _ & Hsel).
    exists r, t. split; [exact Hin|].
    split; [now apply selected_chosen | now apply fmt02_two_digit].
  - intros (r & t & Hin & Hch & ->).
    pose proof Hch as (Ht & _).
    exists r, t. split; [|split; [exact Ht|]].
    + apply narrowed_In. split; [exact Hin|].
      split; [unfold has_date; now rewrite Ht | now apply (selected_chosen _ _ Ht)].
    + symmetry. apply fmt02_two_digit. eauto.
Qed.

(** Year 2024 and category C2 together leave March alone. *)
Lemma month_domain_of_selection_witness :
  exists st' dom,
    update_combos (app_with seasons (select (Some 2024) None "C2" "All"))
    = Some st' /\
    month_values (combos (filters st')) = "All"%string :: dom /\
    In "03"%string dom /\ ~ In "01"%string dom.
Proof.
  assert (Hcal : calendar_months seasons).
  { intros r t Hr Ht. simpl in Hr.
    destruct Hr as [<-|[<-|[<-|[]]]]; inversion Ht; subst t; simpl; lia. }
  destruct (@month_domain_of_selection
              (app_with seasons (select (Some 2024) None "C2" "All"))
              seasons eq_refl eq_refl Hcal)
    as (st' & dom & H1 & H2 & _ & H4 & _).
  exists st', dom. split; [exact H1|]. split; [exact H2|]. split.
  - apply H4.
    exists (ledger_row 1 (Some (mkDate 2024 3 2)) 30 0 "c" "C2" "M1"),
           (mkDate 2024 3 2).
    split; [simpl; auto|]. split; [|reflexivity].
    repeat split; try reflexivity; simpl; intros; congruence.
  - intros Hin. apply H4 in Hin as (r & t & Hr & Hch & E).
    destruct Hch as (Ht & _ & Hy & _ & Hc & _).
    simpl in Hr. destruct Hr as [<-|[<-|[<-|[]]]]; inversion Ht; subst t.
    + specialize (Hc ltac:(discriminate)). discriminate Hc.
    + discriminate E.
    + specialize (Hy 2024 eq_refl). discriminate Hy.
Defined.

(* ================================================================== *)
(** ** Query engine *)

(** No range bound holds a text its parser rejects. *)
Definition well_formed (a : ranges) : bool :=
  negb (is_malformed (date_start a) || is_malformed (date_end a)
        || is_malformed (exp_min a) || is_malformed (exp_max a)
        || is_malformed (inc_min a) || is_malformed (inc_max a)).

(** The range bounds that [analyze] applies: the bounds up to the first
    statement of the [try] block that raises.  A malformed start blanks all
    six; a malformed end keeps the start; a malformed amount bound keeps the
    two dates and blanks the four amounts. *)
Definition effective (a : ranges) : ranges :=
  if is_malformed (date_start a) then no_ranges
  else if is_malformed (date_end a)
       then mkRanges (date_start a) Blank Blank Blank Blank Blank
       else if is_malformed (exp_min a) || is_malformed (exp_max a)
               || is_malformed (inc_min a) || is_malformed (inc_max a)
            then mkRanges (date_start a) (date_end a) Blank Blank Blank Blank
            else a.

(** A row passes every active range bound. *)
Definition range_ok (a : ranges) (r : row) : Prop :=
  (forall t, date_start a = Entered t -> date_ge t r = true) /\
  (forall t, date_end a = Entered t -> date_le t r = true) /\
  (forall v, exp_min a = Entered v -> v <= expense_amount r) /\
  (forall v, exp_max a = Entered v -> expense_amount r <= v) /\
  (forall v, inc_min a = Entered v -> v <= income_amount r) /\
  (forall v, inc_max a = Entered v -> income_amount r <= v).

Lemma effective_well_formed (a : ranges) : well_formed (effective a) = true.
Proof.
  unfold effective, well_formed.
  destruct (is_malformed (date_start a)) eqn:E1; [reflexivity|].
  destruct (is_malformed (date_end a)) eqn:E2; simpl; [now rewrite E1|].
  destruct (is_malformed (exp_min a) || is_malformed (exp_max a)
            || is_malformed (inc_min a) || is_malformed (inc_max a)) eqn:E3;
    simpl; rewrite E1, E2; simpl; [reflexivity|].
  rewrite <- !orb_assoc in *. now rewrite E3.
Qed.

Lemma effective_id (a : ranges) : well_formed a = true -> effective a = a.
Proof.
  unfold well_formed, effective. rewrite negb_true_iff, !orb_false_iff.
  intros (((((-> & ->) & ->) & ->) & ->) & ->). reflexivity.
Qed.

Section QueryFacts.
Context {P : Pandas}.

(** A row passes every active text, year, month and description filter,
    with the matching of [analyze]. *)
Definition text_ok (s : selection) (r : row) : Prop :=
  (forall k val, active (text_var k s) = Some val ->
     exists m, re_compile true val = Some m /\ m (col_text k r) = true) /\
  (forall y, year_var s = Some y -> year_is y r = true) /\
  (forall m, month_var s = Some m -> month_is m r = true) /\
  (desc_of s <> EmptyString ->
     exists m, re_compile false (desc_of s) = Some m /\ m (desc_col r) = true).

Lemma contains_filter_In (v : string) (col : row -> string)
      (d d' : list row) (r : row) :
  contains_filter v col d = Some d' ->
  (In r d' <->
   In r d /\ forall val, active v = Some val ->
               exists m, re_compile true val = Some m /\ m (col r) = true).
Proof.
  unfold contains_filter, str_contains.
  destruct (active v) as [pat|].
  - destruct (re_compile true pat) as [m|] eqn:E; [|discriminate].
    intros H; inversion H; subst d'; clear H.
    rewrite filter_In. split.
    + intros [H1 H2]; split; [exact H1|].
      intros val Hv; inversion Hv; subst; eauto.
    + intros [H1 H2]; split; [exact H1|].
      destruct (H2 pat eq_refl) as (m' & Hm & Hr). congruence.
  - intros H; inversion H; subst. split; [|tauto].
    intros Hin; split; [exact Hin | discriminate].
Qed.

Lemma opt_filter_In (A : Type) (o : option A) (p : A -> row -> bool)
      (d : list row) (r : row) :
  In r (opt_filter o p d) <-> In r d /\ forall a, o = Some a -> p a r = true.
Proof.
  unfold opt_filter. destruct o as [a|].
  - rewrite filter_In. split.
    + intros [H1 H2]; split; [exact H1|]. intros a' Ha; congruence.
    + intros [H1 H2]; split; auto.
  - split; [|tauto]. intros H; split; [exact H|discriminate].
Qed.

Lemma text_filters_In (s : selection) (d d' : list row) (r : row) :
  text_filters s d = Some d' -> (In r d' <-> In r d /\ text_ok s r).
Proof.
  unfold text_filters.
  destruct (contains_filter (report_var s) (col_text KReport) d) as [d1|] eqn:E1;
    [|discriminate].
  destruct (contains_filter (category_var s) (col_text KCategory) _)
    as [d4|] eqn:E4; [|discriminate].
  destruct (contains_filter (merchant_var s) (col_text KMerchant) d4)
    as [d5|] eqn:E5; [|discriminate].
  destruct (contains_filter (paid_var s) (col_text KPaid) d5)
    as [d6|] eqn:E6; [|discriminate].
  pose proof (contains_filter_In _ _ _ r E1) as H1.
  pose proof (contains_filter_In _ _ _ r E4) as H4.
  pose proof (contains_filter_In _ _ _ r E5) as H5.
  pose proof (contains_filter_In _ _ _ r E6) as H6.
  rewrite !opt_filter_In in H4.
  assert (Hbase : In r d6 <->
            In r d /\
            (forall k val, active (text_var k s) = Some val ->
               exists m, re_compile true val = Some m /\ m (col_text k r) = true) /\
            (forall y, year_var s = Some y -> year_is y r = true) /\
            (forall m, month_var s = Some m -> month_is m r = true)).
  { rewrite H6, H5, H4, H1. split.
    - intros ((((((Hin & Hr) & Hy) & Hm) & Hc) & Hme) & Hp).
      repeat split; auto. intros [] val Hv; auto.
    - intros (Hin & Ht & Hy & Hm).
      repeat split; auto; intros val Hv; eapply Ht; eassumption. }
  unfold text_ok.
  destruct (desc_of s) as [|c desc] eqn:Ed.
  - intros H; inversion H; subst d'. rewrite Hbase.
    split; [|tauto]. intros (Hin & Ht & Hy & Hm).
    repeat split; auto. intros Hne; now destruct Hne.
  - unfold str_contains.
    destruct (re_compile false (String c desc)) as [m|] eqn:Ec; [|discriminate].
    intros H; inversion H; subst d'. rewrite filter_In, Hbase. split.
    + intros ((Hin & Ht & Hy & Hm) & Hd). repeat split; eauto.
    + intros (Hin & Ht & Hy & Hm & Hd). repeat split; auto.
      destruct Hd as (m' & Hm' & Hr); [discriminate|]. congruence.
Qed.

Lemma advanced_filters_effective (a : ranges) (d : list row) :
  fst (advanced_filters a d) = fst (advanced_filters (effective a) d).
Proof.
  unfold advanced_filters, effective.
  destruct (date_start a) as [| |t1] eqn:Es; simpl; try reflexivity;
    (destruct (date_end a) as [| |t2] eqn:Ee; simpl; rewrite ?Es; simpl;
     try reflexivity);
    unfold amount_filters;
    (destruct (is_malformed (exp_min a) || is_malformed (exp_max a)
               || is_malformed (inc_min a) || is_malformed (inc_max a)) eqn:Em;
     simpl; rewrite ?Es, ?Ee, ?Em; simpl; reflexivity).
Qed.

Lemma advanced_filters_In (a : ranges) (d : list row) (r : row) :
  well_formed a = true ->
  (In r (fst (advanced_filters a d)) <-> In r d /\ range_ok a r).
Proof.
  destruct a as [s e a1 a2 a3 a4].
  unfold well_formed, advanced_filters, amount_filters, range_ok; simpl.
  destruct s as [| |t1]; try discriminate;
    destruct e as [| |t2]; try discriminate;
    destruct a1 as [| |v1]; try discriminate;
    destruct a2 as [| |v2]; try discriminate;
    destruct a3 as [| |v3]; try discriminate;
    destruct a4 as [| |v4]; try discriminate;
    intros _; simpl;
    (split;
     [ intros H; repeat (apply filter_In in H; destruct H as [H ?]);
       repeat split; auto; intros x Hx; try discriminate;
       inversion Hx; subst; try apply Z.leb_le; assumption
     | intros (Hin & Hs & He & H1 & H2 & H3 & H4);
       repeat (apply filter_In; split); auto;
       first [ apply Z.leb_le; eauto | eauto ] ]).
Qed.

Lemma analyze_shown (st st' : app) (rows : list row) :
  df st = Some (Table rows) ->
  analyze st = Some (Returns st' []) ->
  exists q, query (filters st) rows = Some q /\ q <> [] /\
            st' = set_views (sort_values_desc (map mk_bal q)) st.
Proof.
  intros Hdf. unfold analyze, analyze_table. rewrite Hdf.
  destruct (query (filters st) rows) as [[|r q]|]; intros H; inversion H.
  exists (r :: q). repeat split. discriminate.
Qed.

End QueryFacts.

Section QueryLengths.
Context {P : Pandas}.

Lemma contains_filter_length (v : string) (col : row -> string)
      (d d' : list row) :
  contains_filter v col d = Some d' -> (List.length d' <= List.length d)%nat.
Proof.
  unfold contains_filter, str_contains.
  destruct (active v) as [pat|].
  - destruct (re_compile true pat); [|discriminate].
    intros H; inversion H. apply filter_length_le.
  - intros H; inversion H; subst; lia.
Qed.

Lemma opt_filter_length (A : Type) (o : option A) (p : A -> row -> bool)
      (d : list row) :
  (List.length (opt_filter o p d) <= List.length d)%nat.
Proof.
  unfold opt_filter. destruct o; [apply filter_length_le | lia].
Qed.

Lemma query_length (f : filters_t) (rows q : list row) :
  query f rows = Some q -> (List.length q <= List.length rows)%nat.
Proof.
  unfold query.
  destruct (text_filters (vars f) (dropna_date rows)) as [d|] eqn:E; [|discriminate].
  intros H; inversion H; subst q; clear H.
  assert (Hl : (List.length (fst (advanced_filters (adv f) d))
                <= List.length d)%nat).
  { unfold advanced_filters, amount_filters.
    destruct (date_start (adv f)); simpl; try lia;
      destruct (date_end (adv f)); simpl;
      try (destruct (is_malformed (exp_min (adv f)) || is_malformed (exp_max (adv f))
                     || is_malformed (inc_min (adv f))
                     || is_malformed (inc_max (adv f))); simpl);
      repeat (etransitivity; [apply opt_filter_length|]);
      try apply filter_length_le; try lia;
      try (etransitivity; [apply filter_length_le|]; try apply filter_length_le; lia). }
  assert (Hd : (List.length d <= List.length rows)%nat).
  { clear Hl. revert E. unfold text_filters.
    destruct (contains_filter (report_var (vars f)) _ _) as [d1|] eqn:E1;
      [|discriminate].
    destruct (contains_filter (category_var (vars f)) _ _) as [d4|] eqn:E4;
      [|discriminate].
    destruct (contains_filter (merchant_var (vars f)) _ _) as [d5|] eqn:E5;
      [|discriminate].
    destruct (contains_filter (paid_var (vars f)) _ _) as [d6|] eqn:E6;
      [|discriminate].
    apply contains_filter_length in E1, E4, E5, E6.
    pose proof (opt_filter_length (month_var (vars f)) month_is
                  (opt_filter (year_var (vars f)) year_is d1)) as Hm.
    pose proof (opt_filter_length (year_var (vars f)) year_is d1) as Hy.
    pose proof (filter_length_le has_date rows) as H0.
    unfold dropna_date in *.
    destruct (desc_of (vars f)).
    - intros H; inversion H; subst. lia.
    - unfold str_contains. destruct (re_compile false _) as [m|]; [|discriminate].
      intros H; inversion H; subst.
      pose proof (filter_length_le (fun r => m (desc_col r)) d6). lia. }
  lia.
Qed.

End QueryLengths.

(** Two expenses, in January and in March 2024. *)
Definition jan_row : row :=
  ledger_row 0 (Some (mkDate 2024 1 10)) 30 0 "lunch" "Food" "Cafe".

Definition mar_row : row :=
  ledger_row 1 (Some (mkDate 2024 3 5)) 50 0 "train" "Travel" "Rail".

Definition spring : list row := [jan_row; mar_row].

Definition with_ranges (a : ranges) : filters_t :=
  mkFilters fresh_selection a (mkCombos [] [] [] [] [] []).

(** A start bound that does not parse, an end bound of 1 February 2024. *)
Definition bad_start : ranges :=
  mkRanges Malformed (Entered (mkDate 2024 2 1)) Blank Blank Blank Blank.

(** The same bounds with the start left empty. *)
Definition no_start : ranges :=
  mkRanges Blank (Entered (mkDate 2024 2 1)) Blank Blank Blank Blank.

(** C4, as stated, fails: with an unparseable start date and the end date
    1 February 2024, the query returns the January and the March record;
    with the start date absent it returns the January record only.  The end
    bound, processed after the malformed one, is not applied. *)
Lemma malformed_start_disables_end_bound :
  @query pandas_keep (with_ranges bad_start) spring = Some [jan_row; mar_row] /\
  @query pandas_keep (with_ranges no_start) spring = Some [jan_row].
Proof. split; reflexivity. Qed.

(** C4, amended.  A malformed range bound never makes the query fail: it
    returns what the same filters return with the bounds [effective] keeps,
    that is with the malformed bound and every range bound processed after
    it blank (a malformed start date blanks all six bounds, a malformed end
    date the end date and the four amounts, a malformed amount the four
    amounts); the text, year and month filters and the range bounds
    processed before it are applied. *)
Theorem malformed_bound_ends_range_filters {P : Pandas}
        (f : filters_t) (rows : list row) :
  query f rows = query (mkFilters (vars f) (effective (adv f)) (combos f)) rows /\
  well_formed (effective (adv f)) = true /\
  (forall d, text_filters (vars f) (dropna_date rows) = Some d ->
             exists q, query f rows = Some q /\
                       forall r, In r q <->
                                 In r d /\ range_ok (effective (adv f)) r) /\
  (well_formed (adv f) = true -> effective (adv f) = adv f).
Proof.
  split; [|split; [|split]].
  - unfold query; simpl.
    destruct (text_filters (vars f) (dropna_date rows)) as [d|]; [|reflexivity].
    now rewrite advanced_filters_effective.
  - apply effective_well_formed.
  - intros d Hd. unfold query. rewrite Hd. eexists; split; [reflexivity|].
    intros r. rewrite advanced_filters_effective.
    apply advanced_filters_In, effective_well_formed.
  - apply effective_id.
Qed.

Lemma malformed_bound_ends_range_filters_witness :
  @query pandas_keep (with_ranges bad_start) spring
  = @query pandas_keep (with_ranges no_ranges) spring.
Proof.
  exact (proj1 (@malformed_bound_ends_range_filters pandas_keep
                  (with_ranges bad_start) spring)).
Defined.

(* ================================================================== *)
(** ** Rows shown by [analyze] *)

(** C6, as stated, fails: with an unparseable start date and the end date
    1 February 2024, [analyze] shows the March record, which does not pass
    the active end-date bound. *)
Lemma shown_row_misses_active_bound :
  exists st' : app,
    @analyze pandas_keep (app_with spring (with_ranges bad_start))
    = Some (Returns st' []) /\
    filtered_df st' = Some [mk_bal mar_row; mk_bal jan_row] /\
    date_end (adv (filters (app_with spring (with_ranges bad_start))))
    = Entered (mkDate 2024 2 1) /\
    date_le (mkDate 2024 2 1) mar_row = false.
Proof. eexists. repeat split. Qed.

(** C6, amended.  For every store and every filter state with no malformed
    range bound: when [analyze] shows rows, they are at most as many as the
    rows of the store, and each of them is a row of the store with a date,
    passes every active text, year, month and description filter and every
    active range bound, and carries [Bal] equal to income minus expense. *)
Theorem shown_rows_pass_filters {P : Pandas} (st st' : app) (rows : list row) :
  df st = Some (Table rows) ->
  well_formed (adv (filters st)) = true ->
  analyze st = Some (Returns st' []) ->
  exists d,
    filtered_df st' = Some d /\
    (List.length d <= List.length rows)%nat /\
    forall b, In b d ->
      In (base b) rows /\
      expense_date (base b) <> None /\
      text_ok (vars (filters st)) (base b) /\
      range_ok (adv (filters st)) (base b) /\
      bal b = income_amount (base b) - expense_amount (base b).
Proof.
  intros Hdf Hwf Han.
  destruct (@analyze_shown _ _ _ _ Hdf Han) as (q & Hq & _ & ->).
  exists (sort_values_desc (map mk_bal q)).
  split; [reflexivity|]. split.
  - rewrite <- (Permutation_length (sort_values_perm (map mk_bal q))).
    rewrite length_map. eapply query_length; eassumption.
  - intros b Hb.
    apply (Permutation_in _ (Permutation_sym (sort_values_perm _))) in Hb.
    apply in_map_iff in Hb as (r & <- & Hr). simpl.
    unfold query in Hq.
    destruct (text_filters (vars (filters st)) (dropna_date rows)) as [d|] eqn:Et;
      [|discriminate].
    inversion Hq; subst q; clear Hq.
    apply (proj1 (@advanced_filters_In _ _ r Hwf)) in Hr as [Hr Hrange].
    apply (proj1 (@text_filters_In _ _ _ _ r Et)) in Hr as [Hr Htext].
    unfold dropna_date in Hr. apply filter_In in Hr as [Hr Hdate].
    repeat split; try assumption; try apply Htext; try apply Hrange.
    unfold has_date in Hdate. destruct (expense_date r); [discriminate|discriminate].
Qed.

(** The search box holds "LUN"; expenses of at most 40. *)
Definition lunch_search : filters_t :=
  mkFilters (mkSelection "All" (Some 2024) None "food" "All" "All" " LUN ")
            (mkRanges Blank Blank Blank (Entered 40) Blank Blank)
            (mkCombos [] [] [] [] [] []).

Lemma shown_rows_pass_filters_witness :
  exists d,
    filtered_df (state_of (@analyze_table pandas_keep spring
                             (app_with spring lunch_search))) = Some d /\
    (List.length d <= List.length spring)%nat /\
    forall b, In b d ->
      In (base b) spring /\
      expense_date (base b) <> None /\
      @text_ok pandas_keep (vars lunch_search) (base b) /\
      range_ok (adv lunch_search) (base b) /\
      bal b = income_amount (base b) - expense_amount (base b).
Proof.
  exact (@shown_rows_pass_filters pandas_keep (app_with spring lunch_search)
           (state_of (@analyze_table pandas_keep spring
                        (app_with spring lunch_search)))
           spring eq_refl eq_refl eq_refl).
Defined.

(* ================================================================== *)
(** ** Order of the rows shown *)

(** The rows of a frame dated [t], in the order of the frame. *)
Definition on_date (t : date) (b : brow) : bool :=
  match expense_date (base b) with
  | Some x => date_eqb x t
  | None => false
  end.

(** Two neighbours of a frame sorted by date, newest first. *)
Definition newer_first (a b : brow) : Prop :=
  exists x y, expense_date (base a) = Some x /\ expense_date (base b) = Some y /\
              date_leb y x = true.

Lemma dated_sorted (d : list brow) :
  (forall b, In b d -> expense_date (base b) <> None) ->
  StronglySorted date_desc d -> StronglySorted newer_first d.
Proof.
  intros Hd Hs. induction Hs as [|a l Hs IH Ha]; constructor.
  - apply IH. intros b Hb. apply Hd. now right.
  - rewrite Forall_forall in *. intros b Hb.
    specialize (Ha b Hb). unfold date_desc in Ha. unfold newer_first.
    pose proof (Hd a (or_introl eq_refl)) as H1.
    pose proof (Hd b (or_intror Hb)) as H2.
    destruct (expense_date (base a)) as [x|]; [|now destruct H1].
    destruct (expense_date (base b)) as [y|]; [|now destruct H2].
    now exists x, y.
Qed.

(** Two expenses of the same day. *)
Definition same_day : list row :=
  [ ledger_row 0 (Some (mkDate 2024 1 5)) 30 0 "first" "Food" "Cafe";
    ledger_row 1 (Some (mkDate 2024 1 5)) 20 0 "second" "Food" "Cafe" ].

(** Eighteen expenses of the same day, numbered 0 to 17. *)
Definition crowded_day : list row :=
  map (fun i => ledger_row i (Some (mkDate 2024 1 5)) (i + 1) 0
                           "coffee" "Food" "Cafe")
      [0; 1; 2; 3; 4; 5; 6; 7; 8; 9; 10; 11; 12; 13; 14; 15; 16; 17].

(** C5, as stated, fails: the code calls [sort_values] with its default sort
    kind, which sorts ranges of up to seventeen rows by insertion and
    partitions longer ones.  Two records of one day keep their order; but
    eighteen records of one day, all of which the fresh filters let through,
    come out of the sort of [analyze] in descending date order with the
    records 2 to 16 in the reverse of their order in the store: the rows of
    one date do not always keep their relative order. *)
Lemma equal_dates_may_swap :
  Npysort.sort_values (map mk_bal same_day) = Some (map mk_bal same_day) /\
  @query pandas_keep fresh_filters crowded_day = Some crowded_day /\
  exists d,
    Npysort.sort_values (map mk_bal crowded_day) = Some d /\
    map (fun b => idx (base b)) d =
      [0; 1; 16; 15; 14; 13; 12; 11; 10; 9; 8; 7; 6; 5; 4; 3; 2; 17] /\
    StronglySorted date_desc d /\
    filter (on_date (mkDate 2024 1 5)) d <>
    filter (on_date (mkDate 2024 1 5)) (map mk_bal crowded_day).
Proof.
  split; [reflexivity|]. split; [reflexivity|].
  eexists. split; [vm_compute; reflexivity|].
  split; [reflexivity|]. split.
  - repeat match goal with
           | |- StronglySorted _ _ => constructor
           | |- Forall _ _ => constructor
           | |- date_desc _ _ => exact eq_refl
           end.
  - intros H. vm_compute in H. discriminate H.
Qed.

(** C5, amended.  When [analyze] shows rows, they are the rows the filters
    let through, each with its [Bal], rearranged so that every row is dated
    no earlier than the rows after it; the relative order of rows with equal
    dates is not determined. *)
Theorem shown_rows_newest_first {P : Pandas} (st st' : app) (rows : list row) :
  df st = Some (Table rows) ->
  analyze st = Some (Returns st' []) ->
  exists q d,
    query (filters st) rows = Some q /\
    filtered_df st' = Some d /\
    Permutation (map mk_bal q) d /\
    StronglySorted newer_first d.
Proof.
  intros Hdf Han.
  destruct (@analyze_shown _ _ _ _ Hdf Han) as (q & Hq & _ & ->).
  exists q, (sort_values_desc (map mk_bal q)).
  repeat split; try assumption.
  - apply sort_values_perm.
  - apply dated_sorted; [|apply sort_values_sorted].
    intros b Hb.
    apply (Permutation_in _ (Permutation_sym (sort_values_perm _))) in Hb.
    apply in_map_iff in Hb as (r & <- & Hr). simpl.
    unfold query in Hq.
    destruct (text_filters (vars (filters st)) (dropna_date rows)) as [d|] eqn:Et;
      [|discriminate].
    inversion Hq; subst q; clear Hq.
    rewrite advanced_filters_effective in Hr.
    apply (proj1 (@advanced_filters_In _ _ r (effective_well_formed _))) in Hr
      as [Hr _].
    apply (proj1 (@text_filters_In _ _ _ _ r Et)) in Hr as [Hr _].
    unfold dropna_date in Hr. apply filter_In in Hr as [_ Hdate].
    unfold has_date in Hdate. destruct (expense_date r); discriminate.
Qed.

Lemma shown_rows_newest_first_witness :
  exists q d,
    @query pandas_keep fresh_filters spring = Some q /\
    filtered_df (state_of (@analyze_table pandas_keep spring
                             (app_with spring fresh_filters))) = Some d /\
    Permutation (map mk_bal q) d /\
    StronglySorted newer_first d.
Proof.
  exact (@shown_rows_newest_first pandas_keep (app_with spring fresh_filters)
           (state_of (@analyze_table pandas_keep spring
                        (app_with spring fresh_filters)))
           spring eq_refl eq_refl).
Defined.

(* ================================================================== *)
(** ** Empty result *)

(** The state after a query that showed the two records of [spring], with
    the category combo then set to a value no record has. *)
Definition after_query : app :=
  state_of (@analyze_table pandas_keep spring (app_with spring fresh_filters)).

Definition no_match : app :=
  set_filters
    (mkFilters (mkSelection "All" None None "Rent" "All" "All" "")
               no_ranges (mkCombos [] [] [] [] [] []))
    after_query.

(** C10.  When the filters let no record through, [analyze] shows
    "No records found." and returns without touching its outputs: the
    filtered frame, the summary labels, the summary tree and the raw data
    tree are those of the state before the call, so an export that follows
    writes the rows of the previous filtered frame. *)
Theorem empty_result_keeps_previous_views {P : Pandas}
        (st : app) (rows : list row) :
  df st = Some (Table rows) ->
  query (filters st) rows = Some [] ->
  exists st',
    analyze st = Some (Returns st' [InfoNoRecords]) /\
    filtered_df st' = filtered_df st /\
    labels st' = labels st /\
    sum_tree st' = sum_tree st /\
    tree st' = tree st /\
    forall prev p,
      filtered_df st = Some prev ->
      export_csv (Some p) st' = (Some (p, map export_row_of prev), [InfoExported]).
Proof.
  intros Hdf Hq. exists st.
  repeat split.
  - unfold analyze, analyze_table. now rewrite Hdf, Hq.
  - intros prev p Hprev. unfold export_csv. now rewrite Hprev.
Qed.

Lemma empty_result_keeps_previous_views_witness :
  exists st',
    @analyze pandas_keep no_match = Some (Returns st' [InfoNoRecords]) /\
    filtered_df st' = Some [mk_bal mar_row; mk_bal jan_row] /\
    fst (export_csv (Some "out.csv") st')
    = Some ("out.csv", [ mkExport "2024-03-05" (mk_bal mar_row);
                         mkExport "2024-01-10" (mk_bal jan_row) ]).
Proof.
  destruct (@empty_result_keeps_previous_views pandas_keep no_match spring
              eq_refl eq_refl) as (st' & H1 & H2 & _ & _ & _ & H6).
  exists st'. split; [exact H1|]. split; [now rewrite H2|].
  now rewrite (H6 _ "out.csv" eq_refl).
Defined.

(* ================================================================== *)
(** ** Matching of the two components *)

Section Matching.
Context {P : Pandas}.

(** The test [analyze] applies to a row for the combo [k] holding [val]:
    [d[col].astype(str).str.contains(val, case=False, na=False)].  [None]
    when [val] does not compile. *)
Definition query_match (k : text_key) (val : string) : option (row -> bool) :=
  match re_compile true val with
  | Some m => Some (fun r => m (col_text k r))
  | None => None
  end.

Lemma contains_filter_query_match (k : text_key) (v val : string) (d : list row) :
  active v = Some val ->
  contains_filter v (col_text k) d =
  match query_match k val with
  | Some p => Some (filter p d)
  | None => None
  end.
Proof.
  intros Hv. unfold contains_filter, str_contains, query_match. rewrite Hv.
  now destruct (re_compile true val).
Qed.

Lemma narrow_text_combo_match (k : text_key) (s : selection) (val : string)
      (d : list row) :
  active (text_var k s) = Some val ->
  narrow_text k s d = filter (combo_match k val) d.
Proof. intros Hv. unfold narrow_text. now rewrite Hv. Qed.

End Matching.

(** C1, as stated, fails for every implementation of the pandas interface:
    on a record of category "Food" and the selection "foo", the test of
    [analyze] holds (a case-insensitive search finds "foo" in "Food") and the
    test of [update_combos] does not ("Food" is not equal to "foo"). *)
Lemma narrowing_is_not_query_matching :
  ~ exists P : Pandas,
      forall (k : text_key) (val : string) (r : row),
        val <> "All" ->
        (combo_match k val r = true <->
         exists p, query_match k val = Some p /\ p r = true).
Proof.
  intros [P H].
  assert (Hne : "foo" <> "All") by discriminate.
  destruct (H KCategory "foo" jan_row Hne) as [_ H2].
  assert (Hc : combo_match KCategory "foo" jan_row = true).
  { apply H2. unfold query_match.
    destruct (re_compile_plain true "foo" eq_refl) as (m & -> & Hm).
    eexists; split; [reflexivity|]. cbv beta. rewrite Hm. reflexivity. }
  discriminate Hc.
Qed.

(** C1, amended.  The narrowing test of [update_combos] for a text key is
    equality of the field with the selected value (case-sensitive, a missing
    field never matches); the test of [analyze] for the same key is a
    case-insensitive search of the value in the field.  For a selected value
    other than ["All"] without regular-expression metacharacters, a record
    that passes the narrowing test passes the test of [analyze]; the
    converse does not hold. *)
Theorem narrowing_implies_query_matching {P : Pandas}
        (k : text_key) (val : string) (r : row) :
  val <> "All" ->
  Text.regex_plain val = true ->
  (combo_match k val r = true <-> column k r = Some val) /\
  (exists p, query_match k val = Some p /\
             (forall r', p r' = Text.contains (Text.lower val)
                                              (Text.lower (col_text k r'))) /\
             (combo_match k val r = true -> p r = true)).
Proof.
  intros _ Hplain. split.
  - unfold combo_match. destruct (column k r) as [s|].
    + rewrite String.eqb_eq. split; congruence.
    + split; discriminate.
  - unfold query_match.
    destruct (re_compile_plain true val Hplain) as (m & -> & Hm).
    eexists; split; [reflexivity|]. split.
    + intros r'. cbv beta. apply Hm.
    + unfold combo_match, col_text. destruct (column k r) as [s|]; [|discriminate].
      rewrite String.eqb_eq. intros ->. rewrite Hm. simpl.
      apply Text.contains_refl.
Qed.

Lemma narrowing_implies_query_matching_witness :
  exists p, @query_match pandas_keep KCategory "Food" = Some p /\
            p jan_row = true.
Proof.
  assert (Hne : "Food" <> "All") by discriminate.
  destruct (@narrowing_implies_query_matching pandas_keep KCategory "Food"
              jan_row Hne eq_refl) as (_ & p & Hp & _ & Himp).
  exists p. split; [exact Hp|]. apply Himp. reflexivity.
Defined.

(* ================================================================== *)
(** ** Loading *)

(** The columns whose absence stops the conversions of [load_file]. *)
Definition required_columns : list string :=
  ["Merchant Name"; "Expense Category"; "Expense Date";
   "Expense Amount"; "Income Amount"].

Definition col_names (t : raw_frame) : list string := map fst (raw_cols t).

Lemma has_col_put (n n' : string) (vals : list cell)
      (cols : list (string * list cell)) :
  existsb (fun c => (fst c =? n)%string) (put_col n' vals cols)
  = (n' =? n)%string || existsb (fun c => (fst c =? n)%string) cols.
Proof.
  induction cols as [|c cs IH]; simpl.
  - reflexivity.
  - destruct (fst c =? n')%string eqn:E; simpl.
    + apply String.eqb_eq in E. rewrite E.
      now destruct (n' =? n)%string.
    + rewrite IH.
      destruct (fst c =? n)%string, (n' =? n)%string; reflexivity.
Qed.

Lemma has_col_set (n n' : string) (vals : list cell) (t : raw_frame) :
  has_col n (set_col n' vals t) = (n' =? n)%string || has_col n t.
Proof. apply has_col_put. Qed.

Lemma has_col_drop (n n' : string) (t : raw_frame) :
  has_col n (drop_col n' t) = negb (n =? n')%string && has_col n t.
Proof.
  unfold has_col, drop_col; simpl.
  induction (raw_cols t) as [|c cs IH]; simpl.
  - now rewrite andb_false_r.
  - destruct (fst c =? n')%string eqn:E1; simpl.
    + rewrite IH. destruct (fst c =? n)%string eqn:E2; simpl; [|reflexivity].
      apply String.eqb_eq in E1, E2. subst.
      now rewrite String.eqb_refl.
    + rewrite IH. destruct (fst c =? n)%string eqn:E2; simpl; [|reflexivity].
      apply String.eqb_eq in E2. subst n.
      now rewrite E1.
Qed.

Lemma get_col_none (n : string) (t : raw_frame) :
  get_col n t = None <-> has_col n t = false.
Proof.
  unfold get_col, has_col.
  induction (raw_cols t) as [|c cs IH]; simpl; [tauto|].
  destruct (fst c =? n)%string; simpl; [|exact IH].
  split; discriminate.
Qed.

Lemma map_col_none (n : string) (f : cell -> cell) (t : raw_frame) :
  has_col n t = false -> map_col n f t = None.
Proof.
  intros H. unfold map_col. apply get_col_none in H. now rewrite H.
Qed.

Lemma map_col_has (n n' : string) (f : cell -> cell) (t t' : raw_frame) :
  map_col n' f t = Some t' ->
  has_col n t' = has_col n t /\ raw_index t' = raw_index t.
Proof.
  unfold map_col. destruct (get_col n' t) as [vals|] eqn:E; [|discriminate].
  intros H; inversion H; subst t'; clear H. split; [|reflexivity].
  rewrite has_col_set.
  destruct (n' =? n)%string eqn:En; [|reflexivity].
  apply String.eqb_eq in En; subst n'. simpl.
  destruct (has_col n t) eqn:Eh; [reflexivity|].
  apply get_col_none in Eh. congruence.
Qed.

Lemma stage_index (t : raw_frame) : raw_index (stage t) = raw_index t.
Proof.
  unfold stage.
  destruct (has_col "Total" _); destruct (has_col "Paid Through" _); reflexivity.
Qed.

Lemma stage_required (n : string) (t : raw_frame) :
  In n required_columns -> has_col n (stage t) = has_col n t.
Proof.
  intros Hn. unfold stage.
  assert (H1 : has_col n (set_col "original_index" (map Num (raw_index t)) t)
               = has_col n t).
  { rewrite has_col_set. simpl in Hn.
    repeat (destruct Hn as [<-|Hn]; [reflexivity|]). destruct Hn. }
  set (t1 := set_col "original_index" (map Num (raw_index t)) t) in *.
  assert (H2 : has_col n (if has_col "Total" t1 then drop_col "Total" t1 else t1)
               = has_col n t).
  { destruct (has_col "Total" t1); [|exact H1].
    rewrite has_col_drop, H1. simpl in Hn.
    repeat (destruct Hn as [<-|Hn]; [reflexivity|]). destruct Hn. }
  set (t2 := if has_col "Total" t1 then drop_col "Total" t1 else t1) in *.
  destruct (has_col "Paid Through" t2); [exact H2|].
  rewrite has_col_set, H2. simpl in Hn.
  repeat (destruct Hn as [<-|Hn]; [reflexivity|]). destruct Hn.
Qed.

Section LoadFacts.
Context {P : Pandas}.

(** A missing required column ends the conversions with a [KeyError],
    the frame read from the file being the one under conversion. *)
Lemma convert_missing (n : string) (t : raw_frame) :
  In n required_columns ->
  has_col n t = false ->
  exists t', convert t = KeyError t' /\
             raw_index t' = raw_index t /\
             has_col "original_index" t' = true /\
             has_col n t' = false.
Proof.
  intros Hn Hmiss.
  rewrite <- (@stage_required n t Hn) in Hmiss.
  assert (Hoi : has_col "original_index" (stage t) = true).
  { unfold stage.
    destruct (has_col "Total" _) eqn:E1; destruct (has_col "Paid Through" _) eqn:E2;
      rewrite ?has_col_set, ?has_col_drop, ?has_col_set; reflexivity. }
  pose proof (stage_index t) as Hidx.
  unfold convert. set (t3 := stage t) in *. clearbody t3.
  destruct (map_col "Merchant Name" (fillna (Str "Unknown")) t3) as [t4|] eqn:E4;
    [|now exists t3].
  destruct (@map_col_has n _ _ _ _ E4) as [Hn4 Hi4].
  destruct (@map_col_has "original_index" _ _ _ _ E4) as [Ho4 _].
  destruct (map_col "Expense Category" (fillna (Str "Uncategorized")) t4)
    as [t5|] eqn:E5; [|exists t4; repeat split; congruence].
  destruct (@map_col_has n _ _ _ _ E5) as [Hn5 Hi5].
  destruct (@map_col_has "original_index" _ _ _ _ E5) as [Ho5 _].
  destruct (map_col "Paid Through" (fillna (Str "")) t5) as [t6|] eqn:E6;
    [|exists t5; repeat split; congruence].
  destruct (@map_col_has n _ _ _ _ E6) as [Hn6 Hi6].
  destruct (@map_col_has "original_index" _ _ _ _ E6) as [Ho6 _].
  destruct (map_col "Expense Date" datetime_cell t6) as [t7|] eqn:E7;
    [|exists t6; repeat split; congruence].
  destruct (@map_col_has n _ _ _ _ E7) as [Hn7 Hi7].
  destruct (@map_col_has "original_index" _ _ _ _ E7) as [Ho7 _].
  destruct (map_col "Expense Amount" numeric_cell t7) as [t8|] eqn:E8;
    [|exists t7; repeat split; congruence].
  destruct (@map_col_has n _ _ _ _ E8) as [Hn8 Hi8].
  destruct (@map_col_has "original_index" _ _ _ _ E8) as [Ho8 _].
  destruct (map_col "Income Amount" numeric_cell t8) as [t9|] eqn:E9;
    [|exists t8; repeat split; congruence].
  exfalso.
  assert (Hall : forall m, In m required_columns -> has_col m t3 = true).
  { intros m Hm.
    assert (Hx : forall f u, map_col m f u <> None -> has_col m u = true).
    { intros f u Hu. destruct (has_col m u) eqn:Eu; [reflexivity|].
      now rewrite (@map_col_none m f u Eu) in Hu. }
    simpl in Hm.
    destruct Hm as [<-|[<-|[<-|[<-|[<-|[]]]]]].
    - apply (Hx (fillna (Str "Unknown"))). congruence.
    - rewrite <- (proj1 (@map_col_has "Expense Category" _ _ _ _ E4)).
      apply (Hx (fillna (Str "Uncategorized"))). congruence.
    - rewrite <- (proj1 (@map_col_has "Expense Date" _ _ _ _ E4)),
              <- (proj1 (@map_col_has "Expense Date" _ _ _ _ E5)),
              <- (proj1 (@map_col_has "Expense Date" _ _ _ _ E6)).
      apply (Hx datetime_cell). congruence.
    - rewrite <- (proj1 (@map_col_has "Expense Amount" _ _ _ _ E4)),
              <- (proj1 (@map_col_has "Expense Amount" _ _ _ _ E5)),
              <- (proj1 (@map_col_has "Expense Amount" _ _ _ _ E6)),
              <- (proj1 (@map_col_has "Expense Amount" _ _ _ _ E7)).
      apply (Hx numeric_cell). congruence.
    - rewrite <- (proj1 (@map_col_has "Income Amount" _ _ _ _ E4)),
              <- (proj1 (@map_col_has "Income Amount" _ _ _ _ E5)),
              <- (proj1 (@map_col_has "Income Amount" _ _ _ _ E6)),
              <- (proj1 (@map_col_has "Income Amount" _ _ _ _ E7)),
              <- (proj1 (@map_col_has "Income Amount" _ _ _ _ E8)).
      apply (Hx numeric_cell). congruence. }
  rewrite (Hall n Hn) in Hmiss. discriminate.
Qed.

End LoadFacts.

(** A file of one record that has no [Merchant Name] column. *)
Definition no_merchant : raw_frame :=
  mkRaw [0]
        [ ("Report Name", [Str "R9"]);
          ("Expense Date", [Stamp (mkDate 2025 6 1)]);
          ("Expense Amount", [Num 5]);
          ("Income Amount", [Num 0]);
          ("Expense Description", [Str "pens"]);
          ("Expense Category", [Str "Office"]) ].

(** The same file with the column, and a [Total] column. *)
Definition with_merchant : raw_frame :=
  mkRaw [0]
        (raw_cols no_merchant ++ [("Merchant Name", [NaN]); ("Total", [Num 5])]).

(** A complete file is loaded, converted and analysed. *)
Example load_file_complete :
  option_map (fun r => (df (state_of r), filtered_df (state_of r), shown_of r))
             (@load_file pandas_keep (Some "june.csv") (Delivered with_merchant)
                         after_query)
  = Some (Some (Table [mkRow 0 (Some "R9") (Some (mkDate 2025 6 1)) 5 0
                             (Some "pens") "Office" "Unknown" "" 0]),
          Some [mk_bal (mkRow 0 (Some "R9") (Some (mkDate 2025 6 1)) 5 0
                              (Some "pens") "Office" "Unknown" "" 0)],
          []).
Proof. reflexivity. Qed.

(** C2, as stated, fails: on a store holding the two records of [spring],
    loading a file without the [Merchant Name] column shows the error, and
    the store then holds the frame read from that file, not the two
    records. *)
Lemma failed_load_overwrites_store :
  exists st1 t',
    @load_file pandas_keep (Some "june.csv") (Delivered no_merchant) after_query
    = Some (Returns st1 [ErrorLoad]) /\
    df after_query = Some (Table spring) /\
    df st1 = Some (Raw t') /\
    raw_cols t' = raw_cols no_merchant
                  ++ [("original_index", [Num 0]); ("Paid Through", [Str ""])].
Proof. eexists; eexists. repeat split. Qed.

(** C2, amended.  A load that fails shows the error and sets the status to
    "Load Failed".  When the file could not be read at all, the record
    store, the filters and the filtered frame are those of before the load.
    When the file was read and one of the columns [Merchant Name],
    [Expense Category], [Expense Date], [Expense Amount], [Income Amount] is
    missing, the store holds the frame read from the file, with the
    [original_index] column already added: the previous content is not
    kept. *)
Theorem failed_load_and_the_store {P : Pandas} (p : string) (st : app) :
  (exists st',
      load_file (Some p) Unreadable st = Some (Returns st' [ErrorLoad]) /\
      df st' = df st /\
      filters st' = filters st /\
      filtered_df st' = filtered_df st /\
      status_label st' = StatusLoadFailed) /\
  (forall t n,
      In n required_columns ->
      has_col n t = false ->
      exists st' t',
        load_file (Some p) (Delivered t) st = Some (Returns st' [ErrorLoad]) /\
        df st' = Some (Raw t') /\
        raw_index t' = raw_index t /\
        has_col "original_index" t' = true /\
        filtered_df st' = filtered_df st /\
        status_label st' = StatusLoadFailed).
Proof.
  split.
  - eexists. repeat split.
  - intros t n Hn Hmiss.
    destruct (convert_missing t Hn Hmiss) as (t' & Hc & Hi & Ho & _).
    eexists; exists t'. unfold load_file. rewrite Hc.
    repeat split; assumption.
Qed.

Lemma failed_load_and_the_store_witness :
  exists st' t',
    @load_file pandas_keep (Some "june.csv") (Delivered no_merchant) after_query
    = Some (Returns st' [ErrorLoad]) /\
    df st' = Some (Raw t') /\
    raw_index t' = [0].
Proof.
  destruct (proj2 (@failed_load_and_the_store pandas_keep "june.csv" after_query)
                  no_merchant "Merchant Name" (or_introl eq_refl) eq_refl)
    as (st' & t' & H1 & H2 & H3 & _).
  exists st', t'. auto.
Defined.

(* ================================================================== *)
(** ** Stable ids under add and delete *)

(** One user action on the store. *)
Inductive action :=
| Add (g : dialog)
| Delete (selected : list tree_item) (confirm : bool).

(** The converted frame of the store, if it holds one. *)
Definition store_rows (st : app) : option (list row) :=
  match df st with
  | Some (Table rows) => Some rows
  | _ => None
  end.

Section Sessions.
Context {P : Pandas}.

Definition step (a : action) (st : app) : option app :=
  match a with
  | Add g => option_map state_of (save ModeAdd g st)
  | Delete selected confirm =>
      option_map state_of (delete_record selected confirm st)
  end.

Fixpoint run (acts : list action) (st : app) : option app :=
  match acts with
  | [] => Some st
  | a :: rest => st' <- step a st ;; run rest st'
  end.

End Sessions.

Lemma max_list_spec (l : list Z) (z : Z) :
  z <= max_list z l /\
  (forall i, In i l -> i <= max_list z l) /\
  In (max_list z l) (z :: l).
Proof.
  unfold max_list. revert z.
  induction l as [|x l IH]; intros z; simpl.
  - repeat split; [lia | tauto | auto].
  - destruct (IH (Z.max z x)) as (H1 & H2 & H3).
    repeat split.
    + lia.
    + intros i [<-|Hi]; [lia | auto].
    + destruct H3 as [H3|H3]; [|auto].
      rewrite <- H3. destruct (Z.max_spec z x) as [[_ ->]|[_ ->]]; auto.
Qed.

Lemma new_idx_above (rows : list row) (i : Z) :
  In i (ids rows) -> i < new_idx rows.
Proof.
  unfold new_idx. destruct (ids rows) as [|z l]; [intros []|].
  destruct (max_list_spec l z) as (H1 & H2 & _).
  intros [<-|Hi]; [lia|]. specialize (H2 i Hi). lia.
Qed.

Lemma new_idx_fresh (rows : list row) : ~ In (new_idx rows) (ids rows).
Proof. intros H. apply new_idx_above in H. lia. Qed.

Lemma new_idx_max (rows : list row) :
  rows <> [] -> In (new_idx rows - 1) (ids rows).
Proof.
  unfold new_idx. destruct rows as [|r rows]; [intros H; now destruct H|].
  intros _. simpl.
  destruct (max_list_spec (ids rows) (original_index r)) as (_ & _ & H3).
  replace (max_list (original_index r) (ids rows) + 1 - 1)
    with (max_list (original_index r) (ids rows)) by lia.
  exact H3.
Qed.

Lemma ids_relabel (n : Z) (rows : list row) : ids (relabel n rows) = ids rows.
Proof.
  revert n. induction rows as [|r rows IH]; intros n; simpl; [reflexivity|].
  unfold ids in *. simpl. now rewrite IH.
Qed.

Lemma ids_add_row (dt : option date) (inc exp : Z) (g : dialog) (rows : list row) :
  ids (add_row dt inc exp g rows) = ids rows ++ [new_idx rows].
Proof.
  unfold add_row. rewrite ids_relabel. unfold ids. now rewrite map_app.
Qed.

Lemma ids_filter_NoDup (keep : row -> bool) (rows : list row) :
  NoDup (ids rows) -> NoDup (ids (filter keep rows)).
Proof.
  unfold ids. induction rows as [|r rows IH]; simpl; intros H; [constructor|].
  apply NoDup_cons_iff in H as [Hfresh Hrest].
  destruct (keep r); simpl; [|auto].
  apply NoDup_cons; [|auto].
  intros Hin. apply Hfresh. apply in_map_iff in Hin as (y & Hy & Hin).
  apply filter_In in Hin as [Hin _]. apply in_map_iff. eauto.
Qed.

Lemma delete_loop_ids (selected : list tree_item) (rows : list row) (count : Z) :
  NoDup (ids rows) -> NoDup (ids (fst (delete_loop selected rows count))).
Proof.
  revert rows count.
  induction selected as [|item rest IH]; intros rows count H; simpl; [exact H|].
  destruct (in_index (ti_id item) rows); apply IH; [|exact H].
  unfold drop. now apply ids_filter_NoDup.
Qed.

Lemma delete_loop_count (selected : list tree_item) (rows : list row) (count : Z) :
  count <= snd (delete_loop selected rows count) /\
  (snd (delete_loop selected rows count) = count ->
   fst (delete_loop selected rows count) = rows).
Proof.
  revert rows count.
  induction selected as [|item rest IH]; intros rows count; simpl.
  - split; [lia | reflexivity].
  - destruct (in_index (ti_id item) rows).
    + destruct (IH (drop (ti_id item) rows) (count + 1)) as [H1 _].
      split; [lia | intros H; lia].
    + apply IH.
Qed.

Section SessionFacts.
Context {P : Pandas}.

Lemma analyze_table_df (rows : list row) (st : app) :
  df (state_of (analyze_table rows st)) = df st.
Proof.
  unfold analyze_table.
  destruct (query (filters st) rows) as [[|r q]|]; reflexivity.
Qed.

(** An add with well-formed entries appends the record under the id
    [new_idx]. *)
Lemma save_add_rows (g : dialog) (st : app) (rows : list row)
      (dt : option date) (inc exp : Z) :
  store_rows st = Some rows ->
  in_date g = Parsed dt -> in_inc g = Parsed inc -> in_exp g = Parsed exp ->
  exists st' shown,
    save ModeAdd g st = Some (Returns st' (InfoAdded :: shown)) /\
    store_rows st' = Some (add_row dt inc exp g rows).
Proof.
  unfold store_rows, save.
  destruct (df st) as [[rows0|t]|]; try discriminate.
  intros H; inversion H; subst rows0; clear H.
  intros -> -> ->.
  pose proof (analyze_table_df (add_row dt inc exp g rows)
                (set_df (Some (Table (add_row dt inc exp g rows))) st)) as Hdf.
  destruct (analyze_table _ _) as [st' shown|st' shown];
    simpl in Hdf; eexists; eexists; (split; [reflexivity|]); now rewrite Hdf.
Qed.

Lemma step_rows (a : action) (st : app) (rows : list row) :
  store_rows st = Some rows ->
  NoDup (ids rows) ->
  exists st' rows',
    step a st = Some st' /\ store_rows st' = Some rows' /\ NoDup (ids rows').
Proof.
  intros Hs Hn. destruct a as [g|selected confirm]; simpl.
  - destruct (in_date g) as [|dt] eqn:Ed;
      [|destruct (in_inc g) as [|inc] eqn:Ei;
        [|destruct (in_exp g) as [|exp] eqn:Ee]].
    4: { destruct (save_add_rows g st Hs Ed Ei Ee) as (st' & shown & -> & Hr).
         exists st', (add_row dt inc exp g rows). repeat split; auto.
         rewrite ids_add_row. apply NoDup_app.
         - exact Hn.
         - repeat constructor. intros [].
         - intros i Hi [<-|[]]. exact (new_idx_fresh rows Hi). }
    all: unfold store_rows in Hs; unfold save;
      destruct (df st) as [[rows0|t]|] eqn:Edf; try discriminate;
      rewrite ?Ed, ?Ei, ?Ee; exists st, rows; repeat split; auto;
      unfold store_rows; rewrite Edf; exact Hs.
  - unfold store_rows in Hs. unfold delete_record.
    destruct (df st) as [[rows0|t]|] eqn:Edf; try discriminate.
    inversion Hs; subst rows0; clear Hs.
    destruct (edit_mode st); simpl;
      [|exists st, rows; repeat split; auto; unfold store_rows; now rewrite Edf].
    destruct selected as [|item rest];
      [exists st, rows; repeat split; auto; unfold store_rows; now rewrite Edf|].
    destruct confirm;
      [|exists st, rows; repeat split; auto; unfold store_rows; now rewrite Edf].
    pose proof (delete_loop_ids (item :: rest) rows 0 Hn) as Hn'.
    destruct (delete_loop (item :: rest) rows 0) as [rows' count].
    simpl in Hn'.
    destruct (0 <? count).
    + pose proof (analyze_table_df rows' (set_df (Some (Table rows')) st)) as Hdf.
      destruct (analyze_table _ _) as [st' shown|st' shown];
        simpl in *; exists st', rows'; repeat split; auto;
        unfold store_rows; now rewrite Hdf.
    + eexists; exists rows'. repeat split; auto.
Qed.

Lemma run_rows (acts : list action) (st : app) (rows : list row) :
  store_rows st = Some rows ->
  NoDup (ids rows) ->
  exists st' rows',
    run acts st = Some st' /\ store_rows st' = Some rows' /\ NoDup (ids rows').
Proof.
  revert st rows.
  induction acts as [|a acts IH]; intros st rows Hs Hn; simpl.
  - exists st, rows. auto.
  - destruct (step_rows a st Hs Hn) as (st1 & rows1 & -> & Hs1 & Hn1).
    apply (IH st1 rows1 Hs1 Hn1).
Qed.

End SessionFacts.

(** A store of three records with ids 0, 1, 2, analysed, in edit mode. *)
Definition rec_a : row := ledger_row 0 (Some (mkDate 2024 1 1)) 10 0 "a" "Food" "Cafe".
Definition rec_b : row := ledger_row 1 (Some (mkDate 2024 1 2)) 20 0 "b" "Food" "Cafe".
Definition rec_c : row := ledger_row 2 (Some (mkDate 2024 1 3)) 30 0 "c" "Food" "Cafe".

Definition three : list row := [rec_a; rec_b; rec_c].

(** The line of the raw data tree that shows a record. *)
Definition item_of (r : row) : tree_item := tree_item_of (mk_bal r).

(** The file that holds them. *)
Definition three_raw : raw_frame :=
  mkRaw [0; 1; 2]
        [ ("Report Name", [Str "R1"; Str "R1"; Str "R1"]);
          ("Expense Date", [Stamp (mkDate 2024 1 1); Stamp (mkDate 2024 1 2);
                            Stamp (mkDate 2024 1 3)]);
          ("Expense Amount", [Num 10; Num 20; Num 30]);
          ("Income Amount", [Num 0; Num 0; Num 0]);
          ("Expense Description", [Str "a"; Str "b"; Str "c"]);
          ("Expense Category", [Str "Food"; Str "Food"; Str "Food"]);
          ("Merchant Name", [Str "Cafe"; Str "Cafe"; Str "Cafe"]) ].

(** The session after the file is loaded and edit mode is enabled. *)
Definition loaded3 : app :=
  match @load_file pandas_keep (Some "ledger.csv") (Delivered three_raw)
                   initial_app with
  | Some r => enable_edit_mode (state_of r)
  | None => initial_app
  end.

Example loaded3_store :
  store_rows loaded3 = Some three /\
  tree loaded3 = [item_of rec_c; item_of rec_b; item_of rec_a].
Proof. split; reflexivity. Qed.

(** A new expense typed into the record dialog. *)
Definition entry_new : dialog :=
  mkDialog (Parsed (Some (mkDate 2024 1 4))) "new" "Food" "Cafe" ""
           (Parsed 0) (Parsed 7).

(** C3, as stated, fails: after the record with id 2 (the largest id) is
    deleted, the next add gives id 2 to the new record, an id that the
    deleted record held. *)
Lemma deleted_id_is_reused :
  exists st1 st2 rows1 rows2 added,
    store_rows loaded3 = Some three /\
    In rec_c three /\ original_index rec_c = 2 /\
    In (item_of rec_c) (tree loaded3) /\
    @step pandas_keep (Delete [item_of rec_c] true) loaded3 = Some st1 /\
    store_rows st1 = Some rows1 /\ ids rows1 = [0; 1] /\
    @step pandas_keep (Add entry_new) st1 = Some st2 /\
    store_rows st2 = Some rows2 /\
    In added rows2 /\ original_index added = 2 /\
    expense_description added = Some "new" /\
    expense_description rec_c = Some "c".
Proof.
  do 4 eexists.
  exists (mkRow 2 (Some "Manual Entry") (Some (mkDate 2024 1 4)) 7 0
                (Some "new") "Food" "Cafe" "" 2).
  repeat split; try reflexivity; simpl; auto.
Qed.

(** C3, amended.  After a load and any sequence of add and remove
    operations, the stable ids of the live records are pairwise distinct, and
    an add assigns the new record the maximum stable id of the live records
    plus 1 (0 when the store is empty), which is distinct from the stable id
    of every live record.  The id of a deleted record can be assigned
    again. *)
Theorem add_assigns_max_plus_one {P : Pandas}
        (acts : list action) (st0 : app) (rows0 : list row) :
  store_rows st0 = Some rows0 ->
  NoDup (ids rows0) ->
  exists st rows,
    run acts st0 = Some st /\
    store_rows st = Some rows /\
    NoDup (ids rows) /\
    forall g dt inc exp,
      in_date g = Parsed dt -> in_inc g = Parsed inc -> in_exp g = Parsed exp ->
      exists st' shown rows',
        save ModeAdd g st = Some (Returns st' (InfoAdded :: shown)) /\
        store_rows st' = Some rows' /\
        ids rows' = ids rows ++ [new_idx rows] /\
        NoDup (ids rows') /\
        ~ In (new_idx rows) (ids rows) /\
        (rows = [] -> new_idx rows = 0) /\
        (rows <> [] ->
         In (new_idx rows - 1) (ids rows) /\
         forall i, In i (ids rows) -> i < new_idx rows).
Proof.
  intros Hs Hn.
  destruct (run_rows acts st0 Hs Hn) as (st & rows & Hrun & Hrows & Hnd).
  exists st, rows. repeat split; try assumption.
  intros g dt inc exp Hd Hi He.
  destruct (save_add_rows g st Hrows Hd Hi He) as (st' & shown & Hsave & Hr').
  exists st', shown, (add_row dt inc exp g rows).
  repeat split; try assumption.
  - apply ids_add_row.
  - rewrite ids_add_row. apply NoDup_app.
    + exact Hnd.
    + repeat constructor. intros [].
    + intros i Hin [<-|[]]. exact (new_idx_fresh rows Hin).
  - apply new_idx_fresh.
  - intros ->. reflexivity.
  - now apply new_idx_max.
  - intros i. apply new_idx_above.
Qed.

Lemma add_assigns_max_plus_one_witness :
  exists st rows,
    @run pandas_keep [Delete [item_of rec_a] true; Add entry_new] loaded3
    = Some st /\
    store_rows st = Some rows /\
    NoDup (ids rows).
Proof.
  assert (Hn : NoDup (ids three)).
  { repeat constructor; simpl; intuition discriminate. }
  destruct (@add_assigns_max_plus_one pandas_keep
              [Delete [item_of rec_a] true; Add entry_new] loaded3 three
              eq_refl Hn) as (st & rows & H1 & H2 & H3 & _).
  exists st, rows. auto.
Defined.

(* ================================================================== *)
(** ** Delete *)

(** Every index label of the frame is the stable id of its row, as after a
    load. *)
Definition aligned (rows : list row) : Prop :=
  forall r, In r rows -> idx r = original_index r.

Lemma in_index_aligned (i : Z) (rows : list row) :
  aligned rows -> (in_index i rows = true <-> In i (ids rows)).
Proof.
  intros Ha. unfold in_index, ids. rewrite existsb_exists, in_map_iff.
  split; intros (r & H1 & H2).
  - exists r. apply Z.eqb_eq in H2. rewrite <- (Ha r H1). auto.
  - exists r. split; [exact H2|]. apply Z.eqb_eq. rewrite (Ha r H2). exact H1.
Qed.

(** On a store whose index labels are the stable ids, deleting the shown
    line of an id removes the records of that id and counts 1 when the id is
    there, and changes nothing and counts 0 when it is not. *)
Lemma delete_loop_aligned (item : tree_item) (rows : list row) :
  aligned rows ->
  (In (ti_id item) (ids rows) ->
   delete_loop [item] rows 0
   = (filter (fun r => negb (original_index r =? ti_id item)) rows, 1)) /\
  (~ In (ti_id item) (ids rows) -> delete_loop [item] rows 0 = (rows, 0)).
Proof.
  intros Ha. simpl. split; intros H.
  - apply (in_index_aligned _ Ha) in H. rewrite H. f_equal.
    unfold drop. apply filter_ext_in. intros r Hr. now rewrite (Ha r Hr).
  - destruct (in_index (ti_id item) rows) eqn:E; [|reflexivity].
    apply (in_index_aligned _ Ha) in E. contradiction.
Qed.

(** C9 (code evaluated at the failing input).  Three records with ids 0, 1,
    2 are loaded; the record with id 0 is deleted and a record is added.
    The store then holds the ids 1, 2, 3 under the index labels 0, 1, 2.
    Deleting the shown line of the record with id 3 reports that nothing
    could be deleted and leaves the store as it is, although a record with
    id 3 exists; deleting the shown line of the record with id 1 removes the
    record with id 2 instead. *)
Theorem delete_record_looks_up_index_label :
  exists st2 rows2,
    @run pandas_keep [Delete [item_of rec_a] true; Add entry_new] loaded3
    = Some st2 /\
    store_rows st2 = Some rows2 /\
    ids rows2 = [1; 2; 3] /\
    labels_of rows2 = [0; 1; 2] /\
    (exists item3,
        In item3 (tree st2) /\ ti_id item3 = 3 /\
        @delete_record pandas_keep [item3] true st2
        = Some (Returns st2 [WarnCouldNotDelete])) /\
    (exists item1,
        In item1 (tree st2) /\ ti_id item1 = 1 /\
        option_map (fun r => (option_map ids (store_rows (state_of r)), shown_of r))
                   (@delete_record pandas_keep [item1] true st2)
        = Some (Some [1; 3], [InfoDeleted 1])).
Proof.
  do 2 eexists. split; [reflexivity|]. split; [reflexivity|].
  split; [reflexivity|]. split; [reflexivity|]. split.
  - eexists. split; [left; reflexivity|]. split; reflexivity.
  - eexists. split; [right; right; left; reflexivity|]. split; reflexivity.
Qed.

(* ================================================================== *)
(** ** Stable ids after a load *)

Lemma get_col_put (n n' : string) (vals : list cell)
      (cols : list (string * list cell)) :
  option_map snd (find (fun c => (fst c =? n)%string) (put_col n' vals cols))
  = if (n' =? n)%string then Some vals
    else option_map snd (find (fun c => (fst c =? n)%string) cols).
Proof.
  induction cols as [|c cs IH]; simpl.
  - now destruct (n' =? n)%string.
  - destruct (fst c =? n')%string eqn:E1; simpl.
    + apply String.eqb_eq in E1. rewrite E1.
      now destruct (n' =? n)%string.
    + destruct (fst c =? n)%string eqn:E2; simpl.
      * apply String.eqb_eq in E2. subst n.
        rewrite String.eqb_sym, E1. reflexivity.
      * exact IH.
Qed.

Lemma get_col_as_find (n : string) (t : raw_frame) :
  get_col n t = option_map snd (find (fun c => (fst c =? n)%string) (raw_cols t)).
Proof. unfold get_col. now destruct (find _ _). Qed.

Lemma get_col_set (n n' : string) (vals : list cell) (t : raw_frame) :
  get_col n (set_col n' vals t)
  = if (n' =? n)%string then Some vals else get_col n t.
Proof. rewrite !get_col_as_find. apply get_col_put. Qed.

Lemma get_col_drop (n n' : string) (t : raw_frame) :
  (n =? n')%string = false -> get_col n (drop_col n' t) = get_col n t.
Proof.
  intros Hne. rewrite !get_col_as_find. unfold drop_col; simpl.
  induction (raw_cols t) as [|c cs IH]; simpl; [reflexivity|].
  destruct (fst c =? n')%string eqn:E1; simpl.
  - destruct (fst c =? n)%string eqn:E2; [|exact IH].
    apply String.eqb_eq in E1, E2. subst. now rewrite String.eqb_refl in Hne.
  - now destruct (fst c =? n)%string.
Qed.

Lemma map_col_other (n n' : string) (f : cell -> cell) (t t' : raw_frame) :
  (n' =? n)%string = false ->
  map_col n' f t = Some t' -> get_col n t' = get_col n t.
Proof.
  intros Hne. unfold map_col.
  destruct (get_col n' t) as [vals|]; [|discriminate].
  intros H; inversion H; subst t'. now rewrite get_col_set, Hne.
Qed.

Lemma stage_original_index (t : raw_frame) :
  get_col "original_index" (stage t) = Some (map Num (raw_index t)).
Proof.
  unfold stage.
  set (t1 := set_col "original_index" (map Num (raw_index t)) t).
  assert (H1 : get_col "original_index" t1 = Some (map Num (raw_index t))).
  { unfold t1. now rewrite get_col_set. }
  destruct (has_col "Total" t1).
  - destruct (has_col "Paid Through" (drop_col "Total" t1)).
    + now rewrite get_col_drop.
    + rewrite get_col_set. simpl. now rewrite get_col_drop.
  - destruct (has_col "Paid Through" t1); [exact H1|].
    rewrite get_col_set. exact H1.
Qed.

Lemma all_some_Forall2 (A B : Type) (f : A -> option B) (l : list A)
      (out : list B) :
  all_some (map f l) = Some out -> Forall2 (fun x y => f x = Some y) l out.
Proof.
  revert out. induction l as [|x l IH]; simpl; intros out H.
  - inversion H. constructor.
  - destruct (f x) as [y|] eqn:Ex; [|discriminate].
    fold (all_some (map f l)) in H.
    destruct (all_some (map f l)) as [ys|]; [|discriminate].
    inversion H; subst out. constructor; auto.
Qed.

Lemma nth_error_combine_seq (A : Type) (l : list A) (s i : nat) (x : A) :
  In (i, x) (combine (seq s (List.length l)) l) ->
  (s <= i)%nat /\ nth_error l (i - s) = Some x.
Proof.
  revert s. induction l as [|y l IH]; intros s; simpl; [intros []|].
  intros [H|H].
  - inversion H; subst. split; [lia|]. now rewrite Nat.sub_diag.
  - apply IH in H as [H1 H2]. split; [lia|].
    replace (i - s)%nat with (S (i - S s)) by lia. exact H2.
Qed.

Lemma combine_seq_snd (A : Type) (l : list A) (s : nat) :
  map snd (combine (seq s (List.length l)) l) = l.
Proof.
  revert s. induction l as [|y l IH]; intros s; simpl; [reflexivity|].
  now rewrite IH.
Qed.

(** The typed rows of a frame whose [original_index] column is its index
    carry, in order, the index labels both as label and as stable id. *)
Lemma to_rows_ids (t : raw_frame) (rows : list row) :
  get_col "original_index" t = Some (map Num (raw_index t)) ->
  to_rows t = Some rows ->
  labels_of rows = raw_index t /\ ids rows = raw_index t.
Proof.
  intros Hoi Hrows. unfold to_rows in Hrows.
  apply all_some_Forall2 in Hrows.
  assert (Hin : forall p, In p (combine (seq 0 (List.length (raw_index t)))
                                        (raw_index t)) ->
                          nth_error (raw_index t) (fst p) = Some (snd p)).
  { intros [i x] Hp. apply nth_error_combine_seq in Hp as [_ Hp].
    simpl. now rewrite Nat.sub_0_r in Hp. }
  assert (G : forall ps rs,
             Forall2 (fun p r => row_at t (fst p) (snd p) = Some r) ps rs ->
             (forall p, In p ps -> nth_error (raw_index t) (fst p) = Some (snd p)) ->
             map idx rs = map snd ps /\ map original_index rs = map snd ps).
  { clear Hrows Hin. intros ps rs HF.
    induction HF as [|p r ps rs Hp Hps IH]; intros Hnth; simpl; [auto|].
    destruct IH as [IH1 IH2]; [intros q Hq; apply Hnth; now right|].
    specialize (Hnth p (or_introl eq_refl)).
    unfold row_at, cell_at in Hp. rewrite Hoi in Hp.
    repeat match type of Hp with
           | match ?e with Some _ => _ | None => None end = Some _ =>
               let E := fresh "E" in destruct e eqn:E; [|discriminate]
           end.
    inversion Hp; subst r; simpl. rewrite IH1, IH2.
    split; [reflexivity|]. f_equal.
    match goal with
    | H : nth_error (map Num _) _ = Some ?c |- _ =>
        rewrite nth_error_map, Hnth in H; simpl in H; inversion H; subst c
    end.
    match goal with
    | H : num_cell (Num _) = Some _ |- _ => simpl in H; now inversion H
    end. }
  destruct (G _ _ Hrows Hin) as [G1 G2].
  unfold labels_of, ids. rewrite G1, G2, combine_seq_snd. auto.
Qed.

Section LoadIds.
Context {P : Pandas}.

Lemma convert_original_index (t t' : raw_frame) :
  convert t = Converted t' ->
  get_col "original_index" t' = Some (map Num (raw_index t)) /\
  raw_index t' = raw_index t.
Proof.
  unfold convert.
  pose proof (stage_original_index t) as H0.
  pose proof (stage_index t) as I0.
  set (t3 := stage t) in *. clearbody t3.
  destruct (map_col "Merchant Name" _ t3) as [t4|] eqn:E4; [|discriminate].
  destruct (map_col "Expense Category" _ t4) as [t5|] eqn:E5; [|discriminate].
  destruct (map_col "Paid Through" _ t5) as [t6|] eqn:E6; [|discriminate].
  destruct (map_col "Expense Date" _ t6) as [t7|] eqn:E7; [|discriminate].
  destruct (map_col "Expense Amount" _ t7) as [t8|] eqn:E8; [|discriminate].
  destruct (map_col "Income Amount" _ t8) as [t9|] eqn:E9; [|discriminate].
  intros H; inversion H; subst t'. split.
  - rewrite (@map_col_other "original_index" "Income Amount" _ _ _ eq_refl E9),
            (@map_col_other "original_index" "Expense Amount" _ _ _ eq_refl E8),
            (@map_col_other "original_index" "Expense Date" _ _ _ eq_refl E7),
            (@map_col_other "original_index" "Paid Through" _ _ _ eq_refl E6),
            (@map_col_other "original_index" "Expense Category" _ _ _ eq_refl E5),
            (@map_col_other "original_index" "Merchant Name" _ _ _ eq_refl E4).
    exact H0.
  - rewrite (proj2 (@map_col_has "original_index" _ _ _ _ E9)),
            (proj2 (@map_col_has "original_index" _ _ _ _ E8)),
            (proj2 (@map_col_has "original_index" _ _ _ _ E7)),
            (proj2 (@map_col_has "original_index" _ _ _ _ E6)),
            (proj2 (@map_col_has "original_index" _ _ _ _ E5)),
            (proj2 (@map_col_has "original_index" _ _ _ _ E4)).
    exact I0.
Qed.

Lemma update_combos_df (st st' : app) :
  update_combos st = Some st' -> df st' = df st.
Proof.
  unfold update_combos. destruct (df st) as [[rows|t]|] eqn:E.
  - destruct (updating_combos st); intros H; inversion H; subst; auto.
  - destruct (updating_combos st); [|discriminate].
    intros H; inversion H; subst; auto.
  - intros H; inversion H; subst; auto.
Qed.

(** After a load that ends with a converted frame in the store, the rows
    carry the index the reader delivered both as index label and as stable
    id: with the reader's default index the ids are 0 .. n-1 in input order,
    and every label is the stable id of its row. *)
Lemma load_file_ids (p : string) (t : raw_frame) (st : app) (r : result)
      (rows : list row) :
  load_file (Some p) (Delivered t) st = Some r ->
  store_rows (state_of r) = Some rows ->
  ids rows = raw_index t /\ labels_of rows = raw_index t /\ aligned rows.
Proof.
  unfold load_file.
  destruct (convert t) as [t'|t'] eqn:Ec.
  { intros H; inversion H; subst r. discriminate. }
  destruct (has_col "Report Name" t'); simpl.
  2: { intros H; inversion H; subst r. discriminate. }
  destruct (to_rows t') as [rows0|] eqn:Er; [|discriminate].
  unfold create_filter_widgets.
  destruct (update_combos _) as [st2|] eqn:Eu; [|discriminate].
  apply update_combos_df in Eu. simpl in Eu.
  unfold analyze. rewrite Eu.
  intros H; inversion H; subst r; clear H.
  pose proof (analyze_table_df rows0 st2) as Hdf.
  unfold store_rows.
  destruct (analyze_table rows0 st2) as [st3 shown|st3 shown]; simpl in *;
    rewrite Hdf, Eu; intros H; inversion H; subst rows0;
    destruct (convert_original_index _ Ec) as [Ho Hi];
    rewrite <- Hi in Ho;
    destruct (to_rows_ids _ Ho Er) as [Hl Hid];
    (repeat split; [congruence | congruence |]);
    intros x Hx; clear - Hl Hid Hx;
    unfold labels_of, ids in *;
    (assert (Hmap : map idx rows = map original_index rows) by congruence);
    clear Hl Hid;
    (induction rows as [|y ys IH]; [destruct Hx|]);
    simpl in Hmap; inversion Hmap; destruct Hx as [<-|Hx]; auto.
Qed.

End LoadIds.

(* ================================================================== *)
(** ** Delete on a store whose labels are the stable ids *)

Lemma set_df_same (st : app) (f : frame) :
  df st = Some f -> set_df (Some f) st = st.
Proof. destruct st; simpl; intros ->; reflexivity. Qed.

Lemma drop_aligned (i : Z) (rows : list row) :
  aligned rows -> aligned (drop i rows).
Proof.
  intros Ha r Hr. apply Ha. unfold drop in Hr.
  now apply filter_In in Hr.
Qed.

Section DeleteFacts.
Context {P : Pandas}.

(** With index labels equal to the stable ids (the situation after a load,
    and after deletions and edits that follow it), deleting the shown line
    of an id that is in the store removes the records of that id and counts
    one deletion; for an id that is not in the store nothing changes and the
    warning "Could not delete records." is shown. *)
Lemma delete_record_aligned (item : tree_item) (st : app) (rows : list row) :
  store_rows st = Some rows ->
  edit_mode st = true ->
  aligned rows ->
  (In (ti_id item) (ids rows) ->
   exists r,
     delete_record [item] true st = Some r /\
     store_rows (state_of r)
     = Some (filter (fun x => negb (original_index x =? ti_id item)) rows) /\
     (forall st' shown, r = Returns st' shown -> In (InfoDeleted 1) shown)) /\
  (~ In (ti_id item) (ids rows) ->
   delete_record [item] true st = Some (Returns st [WarnCouldNotDelete])).
Proof.
  intros Hs He Ha. unfold store_rows in Hs.
  destruct (df st) as [[rows0|t]|] eqn:Edf; try discriminate.
  inversion Hs; subst rows0; clear Hs.
  destruct (delete_loop_aligned item Ha) as [Hin Hout].
  unfold delete_record. rewrite He, Edf. simpl negb. cbv iota.
  split; intros H.
  - rewrite (Hin H). simpl.
    set (rows' := filter (fun x => negb (original_index x =? ti_id item)) rows).
    pose proof (analyze_table_df rows' (set_df (Some (Table rows')) st)) as Hdf.
    destruct (analyze_table rows' (set_df (Some (Table rows')) st))
      as [st' shown|st' shown]; simpl in Hdf;
      eexists; (split; [reflexivity|]); unfold store_rows; simpl;
      rewrite Hdf; (split; [reflexivity|]).
    + intros st'' shown' Hr. inversion Hr; subst.
      apply in_or_app. right. now left.
    + intros st'' shown' Hr. discriminate Hr.
  - rewrite (Hout H). simpl. now rewrite (set_df_same _ Edf).
Qed.

End DeleteFacts.

(* ================================================================== *)
(** ** More on [analyze]: what is shown, and when nothing is *)

(** A row of the store has a date and passes every active filter. *)
Definition matches {P : Pandas} (f : filters_t) (rows : list row) (r : row) : Prop :=
  In r rows /\ expense_date r <> None /\
  text_ok (vars f) r /\ range_ok (adv f) r.

Lemma no_member_nil (A : Type) (l : list A) : (forall a, ~ In a l) -> l = [].
Proof.
  destruct l as [|a l]; [reflexivity|].
  intros H. destruct (H a). now left.
Qed.

Lemma mk_bal_In (r : row) (q : list row) : In (mk_bal r) (map mk_bal q) <-> In r q.
Proof.
  rewrite in_map_iff. split.
  - intros (x & Hx & Hin). inversion Hx. now subst.
  - intros H. now exists r.
Qed.

Section ShownFacts.
Context {P : Pandas}.

Lemma query_In (f : filters_t) (rows q : list row) (r : row) :
  well_formed (adv f) = true ->
  query f rows = Some q ->
  (In r q <-> matches f rows r).
Proof.
  intros Hwf. unfold query, matches.
  destruct (text_filters (vars f) (dropna_date rows)) as [d|] eqn:Et; [|discriminate].
  intros H; inversion H; subst q; clear H.
  rewrite (@advanced_filters_In _ _ r Hwf), (@text_filters_In _ _ _ _ r Et).
  unfold dropna_date. rewrite filter_In. unfold has_date.
  destruct (expense_date r) as [t|]; split.
  - intros ((( Hin & _) & Ht) & Hr).
    split; [exact Hin | split; [discriminate | split; assumption]].
  - intros (Hin & _ & Ht & Hr). auto.
  - intros ((( _ & Hd) & _) & _). discriminate.
  - intros (_ & Hd & _). now destruct Hd.
Qed.

Lemma text_filters_nil (s : selection) (d : list row) :
  text_filters s [] = Some d -> d = [].
Proof.
  intros H. apply no_member_nil. intros r Hr.
  apply (proj1 (@text_filters_In _ _ _ _ r H)) in Hr. now destruct Hr.
Qed.

Lemma advanced_filters_nil (a : ranges) : fst (advanced_filters a []) = [].
Proof.
  apply no_member_nil. intros r Hr.
  rewrite advanced_filters_effective in Hr.
  apply (proj1 (@advanced_filters_In _ _ r (effective_well_formed a))) in Hr.
  now destruct Hr.
Qed.

End ShownFacts.

(** X1.  With no malformed range bound, [analyze] is exact: when it shows
    rows, a row is among them if and only if it is a row of the store that
    has a date and passes every active filter; when it reports "No records
    found." the state is the one before the call and no row of the store
    passes. *)
Theorem analyze_shows_exactly_the_matches {P : Pandas}
        (st st' : app) (rows : list row) (shown : list message) :
  df st = Some (Table rows) ->
  well_formed (adv (filters st)) = true ->
  analyze st = Some (Returns st' shown) ->
  (shown = [] /\
   exists d, filtered_df st' = Some d /\
             forall r, In (mk_bal r) d <-> matches (filters st) rows r) \/
  (shown = [InfoNoRecords] /\ st' = st /\
   forall r, ~ matches (filters st) rows r).
Proof.
  intros Hdf Hwf. unfold analyze, analyze_table. rewrite Hdf.
  destruct (query (filters st) rows) as [q|] eqn:Eq; [|discriminate].
  destruct q as [|r0 q]; intros H; inversion H; subst; clear H.
  - right. repeat split. intros r Hm.
    apply (proj2 (@query_In _ _ _ _ r Hwf Eq)) in Hm. destruct Hm.
  - left. split; [reflexivity|]. eexists. split; [reflexivity|].
    intros r. rewrite <- (@query_In _ _ _ _ r Hwf Eq), <- mk_bal_In.
    split; apply Permutation_in;
      [apply Permutation_sym|]; apply sort_values_perm.
Qed.

Lemma analyze_shows_exactly_the_matches_witness :
  exists d,
    filtered_df (state_of (@analyze_table pandas_keep spring
                             (app_with spring lunch_search))) = Some d /\
    forall r, In (mk_bal r) d <-> @matches pandas_keep lunch_search spring r.
Proof.
  destruct (@analyze_shows_exactly_the_matches pandas_keep
              (app_with spring lunch_search)
              (state_of (@analyze_table pandas_keep spring
                           (app_with spring lunch_search)))
              spring [] eq_refl eq_refl eq_refl) as [[_ H]|[H _]].
  - exact H.
  - discriminate H.
Defined.

(** Two bounds of one range exclude each other. *)
Definition crossed (a : ranges) : Prop :=
  (exists lo hi, exp_min a = Entered lo /\ exp_max a = Entered hi /\ hi < lo) \/
  (exists lo hi, inc_min a = Entered lo /\ inc_max a = Entered hi /\ hi < lo) \/
  (exists s e, date_start a = Entered s /\ date_end a = Entered e /\
               date_leb s e = false).

(** What [analyze] does when the frame is empty at [if d.empty]: the regular
    expressions of the text filters are compiled all the same. *)
Definition nothing_shown {P : Pandas} (st : app) (rows : list row) : result :=
  match text_filters (vars (filters st)) (dropna_date rows) with
  | None => Raises st []
  | Some _ => Returns st [InfoNoRecords]
  end.

(** X2.  A minimum above the maximum (expense amounts, income amounts) or a
    start date after the end date is no error: with no malformed bound,
    [analyze] lets no row through, reports "No records found." and leaves
    the state as it was (an invalid text pattern still raises, as it does
    with any bounds). *)
Theorem crossed_bounds_show_nothing {P : Pandas} (st : app) (rows : list row) :
  df st = Some (Table rows) ->
  well_formed (adv (filters st)) = true ->
  crossed (adv (filters st)) ->
  analyze st = Some (nothing_shown st rows).
Proof.
  intros Hdf Hwf Hx. unfold analyze, analyze_table, nothing_shown. rewrite Hdf.
  destruct (query (filters st) rows) as [q|] eqn:Eq.
  - assert (Hq : q = []).
    { apply no_member_nil. intros r Hr.
      apply (proj1 (@query_In _ _ _ _ r Hwf Eq)) in Hr.
      destruct Hr as (_ & _ & _ & Hs & He & H1 & H2 & H3 & H4).
      destruct Hx as [(lo & hi & E1 & E2 & Hlt)|
                      [(lo & hi & E1 & E2 & Hlt)|(s & e & E1 & E2 & Hlt)]].
      - specialize (H1 lo E1). specialize (H2 hi E2). lia.
      - specialize (H3 lo E1). specialize (H4 hi E2). lia.
      - specialize (Hs s E1). specialize (He e E2).
        unfold date_ge, date_le in *.
        destruct (expense_date r) as [t|]; [|discriminate].
        rewrite (date_leb_trans _ _ _ Hs He) in Hlt. discriminate. }
    subst q. unfold query in Eq.
    now destruct (text_filters (vars (filters st)) (dropna_date rows)).
  - unfold query in Eq.
    now destruct (text_filters (vars (filters st)) (dropna_date rows)).
Qed.

(** Expenses between 40 and 10. *)
Definition crossed_amounts : filters_t :=
  with_ranges (mkRanges Blank Blank (Entered 40) (Entered 10) Blank Blank).

Lemma crossed_bounds_show_nothing_witness :
  @analyze pandas_keep (app_with spring crossed_amounts)
  = Some (Returns (app_with spring crossed_amounts) [InfoNoRecords]).
Proof.
  assert (Hx : crossed (adv crossed_amounts)).
  { left. exists 40, 10. repeat split. }
  exact (@crossed_bounds_show_nothing pandas_keep
           (app_with spring crossed_amounts) spring eq_refl eq_refl Hx).
Defined.

(** X3.  On a store none of whose rows has a date, [analyze] never shows
    anything, whatever the filters and the range bounds (malformed ones
    included): it reports "No records found." and leaves the state as it
    was, the rows staying in the store. *)
Theorem undated_store_shows_nothing {P : Pandas} (st : app) (rows : list row) :
  df st = Some (Table rows) ->
  (forall r, In r rows -> expense_date r = None) ->
  analyze st = Some (nothing_shown st rows) /\
  df (state_of (nothing_shown st rows)) = Some (Table rows).
Proof.
  intros Hdf Hnone.
  assert (Hd : dropna_date rows = []).
  { apply no_member_nil. intros r Hr. unfold dropna_date in Hr.
    apply filter_In in Hr as [Hin Hr]. unfold has_date in Hr.
    now rewrite (Hnone r Hin) in Hr. }
  unfold analyze, analyze_table, nothing_shown, query. rewrite Hdf, Hd.
  destruct (text_filters (vars (filters st)) []) as [d|] eqn:Et.
  - apply text_filters_nil in Et. subst d.
    rewrite advanced_filters_nil. split; [reflexivity|exact Hdf].
  - split; [reflexivity|exact Hdf].
Qed.

(** Two records without a date. *)
Definition undated : list row :=
  [ ledger_row 0 None 5 0 "x" "Food" "Cafe";
    ledger_row 1 None 7 0 "y" "Food" "Cafe" ].

Lemma undated_store_shows_nothing_witness :
  @analyze pandas_keep (app_with undated (with_ranges bad_start))
  = Some (Returns (app_with undated (with_ranges bad_start)) [InfoNoRecords]).
Proof.
  assert (H : forall r, In r undated -> expense_date r = None).
  { intros r [<-|[<-|[]]]; reflexivity. }
  exact (proj1 (@undated_store_shows_nothing pandas_keep
                  (app_with undated (with_ranges bad_start)) undated eq_refl H)).
Defined.

(** X4.  [analyze] is idempotent: whatever a call returned or raised, a
    second call on the state it left ends the same way in the same state. *)
Theorem analyze_twice_is_analyze_once {P : Pandas} (st : app) (r : result) :
  analyze st = Some r -> analyze (state_of r) = Some r.
Proof.
  unfold analyze. destruct (df st) as [[rows|t]|] eqn:Edf; [| discriminate |].
  - unfold analyze_table.
    destruct (query (filters st) rows) as [[|r0 q]|] eqn:Eq;
      intros H; inversion H; subst r; simpl; rewrite ?Edf; simpl;
      rewrite ?Eq; reflexivity.
  - intros H; inversion H; subst r; simpl. now rewrite Edf.
Qed.

Lemma analyze_twice_is_analyze_once_witness :
  @analyze pandas_keep
           (state_of (@analyze_table pandas_keep spring
                        (app_with spring lunch_search)))
  = Some (@analyze_table pandas_keep spring (app_with spring lunch_search)).
Proof.
  exact (@analyze_twice_is_analyze_once pandas_keep
           (app_with spring lunch_search) _ eq_refl).
Defined.

(* ================================================================== *)
(** ** Filters without regular-expression metacharacters *)

(** Every active text selection and the search text are plain. *)
Definition plain (s : selection) : Prop :=
  (forall k val, active (text_var k s) = Some val ->
                 Text.regex_plain val = true) /\
  Text.regex_plain (desc_of s) = true.

(** A row passes the text filters read as substring searches: the
    selections ignoring case, the search text (stripped and lowered)
    in the lowered description, a missing cell being the text "nan". *)
Definition passes (s : selection) (r : row) : Prop :=
  (forall k val, active (text_var k s) = Some val ->
     Text.contains (Text.lower val) (Text.lower (col_text k r)) = true) /\
  (forall y, year_var s = Some y -> year_is y r = true) /\
  (forall m, month_var s = Some m -> month_is m r = true) /\
  (desc_of s <> EmptyString -> Text.contains (desc_of s) (desc_col r) = true).

Section PlainFilters.
Context {P : Pandas}.

Lemma text_ok_plain (s : selection) (r : row) :
  plain s -> (text_ok s r <-> passes s r).
Proof.
  intros [Ht Hd]. unfold text_ok, passes. split.
  - intros (H1 & H2 & H3 & H4). repeat split; auto.
    + intros k val Hv. destruct (H1 k val Hv) as (m & Hm & Hr).
      destruct (re_compile_plain true val (Ht k val Hv)) as (m' & Hm' & Hs).
      rewrite Hm in Hm'. inversion Hm'; subst m'. now rewrite <- Hs.
    + intros Hne. destruct (H4 Hne) as (m & Hm & Hr).
      destruct (re_compile_plain false (desc_of s) Hd) as (m' & Hm' & Hs).
      rewrite Hm in Hm'. inversion Hm'; subst m'. now rewrite <- Hs.
  - intros (H1 & H2 & H3 & H4). repeat split; auto.
    + intros k val Hv.
      destruct (re_compile_plain true val (Ht k val Hv)) as (m & Hm & Hs).
      exists m. split; [exact Hm|]. rewrite Hs. now apply H1.
    + intros Hne.
      destruct (re_compile_plain false (desc_of s) Hd) as (m & Hm & Hs).
      exists m. split; [exact Hm|]. rewrite Hs. now apply H4.
Qed.

Lemma contains_filter_plain (v : string) (col : row -> string) (d : list row) :
  (forall val, active v = Some val -> Text.regex_plain val = true) ->
  exists d', contains_filter v col d = Some d'.
Proof.
  intros H. unfold contains_filter, str_contains.
  destruct (active v) as [pat|]; [|eauto].
  destruct (re_compile_plain true pat (H pat eq_refl)) as (m & -> & _). eauto.
Qed.

Lemma text_filters_plain (s : selection) (d : list row) :
  plain s -> exists d', text_filters s d = Some d'.
Proof.
  intros [Ht Hd]. unfold text_filters.
  destruct (@contains_filter_plain (report_var s) (col_text KReport) d
              (Ht KReport)) as (d1 & ->).
  destruct (@contains_filter_plain (category_var s) (col_text KCategory)
              (opt_filter (month_var s) month_is
                          (opt_filter (year_var s) year_is d1))
              (Ht KCategory)) as (d4 & ->).
  destruct (@contains_filter_plain (merchant_var s) (col_text KMerchant) d4
              (Ht KMerchant)) as (d5 & ->).
  destruct (@contains_filter_plain (paid_var s) (col_text KPaid) d5
              (Ht KPaid)) as (d6 & ->).
  destruct (desc_of s) as [|c rest] eqn:Ed; [eauto|].
  unfold str_contains.
  destruct (re_compile_plain false (String c rest) Hd) as (m & -> & _). eauto.
Qed.

End PlainFilters.

(** X25.  When no active selection and no search text holds a
    regular-expression metacharacter and no range bound is malformed,
    [analyze] never raises and its text filters are substring searches: a
    row is shown if and only if it is a dated row of the store, each
    selected text occurs in its column ignoring case, its year and month are
    the selected ones, the search text (stripped, lowered) occurs in its
    lowered description, and it is within the range bounds.  A missing
    description counts as the text "nan". *)
Theorem plain_filters_are_substring_searches {P : Pandas}
        (st : app) (rows : list row) :
  df st = Some (Table rows) ->
  well_formed (adv (filters st)) = true ->
  plain (vars (filters st)) ->
  let shows r :=
    In r rows /\ expense_date r <> None /\
    passes (vars (filters st)) r /\ range_ok (adv (filters st)) r in
  exists st' shown,
    analyze st = Some (Returns st' shown) /\
    ((shown = [] /\
      exists d, filtered_df st' = Some d /\
                forall r, In (mk_bal r) d <-> shows r) \/
     (shown = [InfoNoRecords] /\ st' = st /\ forall r, ~ shows r)).
Proof.
  intros Hdf Hwf Hplain shows.
  assert (Hq : exists q, query (filters st) rows = Some q).
  { unfold query.
    destruct (@text_filters_plain _ _ (dropna_date rows) Hplain) as (d' & ->). eauto. }
  destruct Hq as (q & Eq).
  assert (Hin : forall r, In r q <-> shows r).
  { intros r. rewrite (@query_In _ _ _ _ r Hwf Eq). unfold matches, shows.
    now rewrite (@text_ok_plain _ _ r Hplain). }
  unfold analyze, analyze_table. rewrite Hdf, Eq.
  destruct q as [|r0 q].
  - exists st, [InfoNoRecords]. split; [reflexivity|]. right.
    repeat split. intros r Hr. now apply Hin in Hr.
  - eexists; exists []. split; [reflexivity|]. left. split; [reflexivity|].
    eexists. split; [reflexivity|].
    intros r. rewrite <- Hin, <- mk_bal_In.
    split; apply Permutation_in;
      [apply Permutation_sym|]; apply sort_values_perm.
Qed.

(** A search for "NA": the record without description is found. *)
Definition search_na : filters_t :=
  mkFilters (mkSelection "All" None None "All" "All" "All" " NA ")
            no_ranges (mkCombos [] [] [] [] [] []).

Definition no_description : row :=
  mkRow 2 (Some "R1") (Some (mkDate 2024 2 2)) 12 0 None "Food" "Cafe" "" 2.

Lemma plain_filters_are_substring_searches_witness :
  exists d,
    filtered_df (state_of (@analyze_table pandas_keep (spring ++ [no_description])
                             (app_with (spring ++ [no_description]) search_na)))
    = Some d /\
    In (mk_bal no_description) d.
Proof.
  assert (Hplain : plain (vars search_na)).
  { split; [intros [] val Hv; discriminate Hv | reflexivity]. }
  destruct (@plain_filters_are_substring_searches pandas_keep
              (app_with (spring ++ [no_description]) search_na)
              (spring ++ [no_description]) eq_refl eq_refl Hplain)
    as (st' & shown & Han & [(_ & d & Hd & Hin)|(Hs & _ & _)]).
  - injection Han as <- _. exists d. split; [exact Hd|].
    apply Hin. split; [simpl; auto|]. split; [discriminate|].
    split; [|repeat split; discriminate].
    repeat split; try discriminate. intros [] val Hv; discriminate Hv.
  - injection Han as _ <-. discriminate Hs.
Defined.

(* ================================================================== *)
(** ** The summary lines add up to the totals *)

Lemma sum_Z_app (l l' : list Z) : sum_Z (l ++ l') = sum_Z l + sum_Z l'.
Proof. unfold sum_Z. induction l as [|a l IH]; simpl; lia. Qed.

Lemma sum_Z_ones (A : Type) (l : list A) :
  sum_Z (map (fun _ => 1) l) = Z.of_nat (List.length l).
Proof.
  unfold sum_Z. induction l as [|a l IH]; [reflexivity|].
  cbn [map fold_right List.length]. rewrite Nat2Z.inj_succ, IH. lia.
Qed.

Lemma sum_Z_zero (A : Type) (f : A -> Z) (l : list A) :
  (forall a, In a l -> f a = 0) -> sum_Z (map f l) = 0.
Proof.
  unfold sum_Z. induction l as [|a l IH]; simpl; intros H; [reflexivity|].
  rewrite (H a), IH; auto.
Qed.

Lemma sum_Z_plus (A : Type) (f g : A -> Z) (l : list A) :
  sum_Z (map (fun a => f a + g a) l) = sum_Z (map f l) + sum_Z (map g l).
Proof. unfold sum_Z. induction l as [|a l IH]; simpl; lia. Qed.

(** Among distinct keys, exactly one is the key of a given row. *)
Lemma sum_Z_one_key (ks : list (string * string)) (k0 : string * string) (v : Z) :
  NoDup ks -> In k0 ks ->
  sum_Z (map (fun k => if key_eqb k k0 then v else 0) ks) = v.
Proof.
  induction 1 as [|k ks Hnin Hnd IH]; intros Hin; [destruct Hin|].
  change (sum_Z (map ?f (k :: ks))) with (f k + sum_Z (map f ks)). cbv beta.
  destruct (key_eqb k k0) eqn:E.
  - apply key_eqb_spec in E. subst k0.
    rewrite sum_Z_zero; [lia|].
    intros k' Hk'. destruct (key_eqb k' k) eqn:E'; [|reflexivity].
    apply key_eqb_spec in E'. now subst k'.
  - destruct Hin as [->|Hin].
    + rewrite (proj2 (key_eqb_spec k0 k0) eq_refl) in E. discriminate.
    + rewrite IH by exact Hin. lia.
Qed.

Section GroupSums.
Context {D : Dtype} {R : Type} {C : Columns D R}.

(** Summing a column group by group gives the sum of the column. *)
Lemma sum_by_group (f : R -> Z) (ks : list (string * string)) (d : list R) :
  NoDup ks -> (forall r, In r d -> In (group_key r) ks) ->
  sum_Z (map (fun k => sum_Z (map f (group_of k d))) ks) = sum_Z (map f d).
Proof.
  intros Hnd. induction d as [|r d IH]; intros Hin.
  - apply sum_Z_zero. reflexivity.
  - change (sum_Z (map f (r :: d))) with (f r + sum_Z (map f d)).
    rewrite <- IH by (intros x Hx; apply Hin; now right).
    rewrite <- (@sum_Z_one_key ks (group_key r) (f r) Hnd) at 1
      by (apply Hin; now left).
    rewrite <- sum_Z_plus. apply sum_Z_ext. intros k _.
    unfold group_of. simpl filter.
    destruct (key_eqb k (group_key r)); reflexivity.
Qed.

Lemma sum_grp_column (f : R -> Z) (col : @group_row D -> Z) (d : list R) :
  (forall k, col (aggregate_group d k) = sum_Z (map f (group_of k d))) ->
  sum_Z (map col (sum_grp d)) = sum_Z (map f d).
Proof.
  intros H. unfold sum_grp. rewrite map_map.
  rewrite (@sum_Z_ext _ (fun k => col (aggregate_group d k))
                      (fun k => sum_Z (map f (group_of k d)))) by (intros; apply H).
  apply sum_by_group; [apply group_keys_NoDup|].
  intros r Hr. apply group_keys_In. now exists r.
Qed.

Lemma sum_grp_counts (d : list R) :
  sum_Z (map g_count (sum_grp d)) = lbl_records (totals_of d).
Proof.
  rewrite (@sum_grp_column (fun _ => 1) g_count d).
  - apply sum_Z_ones.
  - intros k. simpl. now rewrite sum_Z_ones.
Qed.

End GroupSums.

(** X5.  Whatever the dtype of the amounts, the counts of the summary lines
    add up to the number of rows of the frame: the grouping loses no row and
    counts none twice.  In a store of whole-number amounts, whenever
    [analyze] shows rows, the lines of the summary tree add up to the labels
    above it: the counts to Total Records, the income sums to Total Income,
    the expense sums to Total Expense and the line totals to Net Balance. *)
Theorem summary_lines_add_up {P : Pandas}
        (st st' : app) (rows : list row) :
  df st = Some (Table rows) ->
  analyze st = Some (Returns st' []) ->
  (exists t : @totals int64, labels st' = Some t /\
     sum_Z (map g_count (sum_tree st')) = lbl_records t /\
     sum_Z (map g_inc (sum_tree st')) = lbl_inc t /\
     sum_Z (map g_exp (sum_tree st')) = lbl_exp t /\
     sum_Z (map g_total (sum_tree st')) = lbl_bal t) /\
  (forall (D : Dtype) (R : Type) (C : Columns D R) (d : list R),
     sum_Z (map g_count (sum_grp d)) = Z.of_nat (List.length d)).
Proof.
  intros Hdf Han. split; [|intros D R C d; apply sum_grp_counts].
  destruct (@analyze_shown _ _ _ _ Hdf Han) as (q & _ & _ & ->).
  set (d := sort_values_desc (map mk_bal q)).
  exists (totals_of d). split; [reflexivity|]. simpl.
  repeat split.
  - apply (sum_grp_counts d).
  - exact (@sum_grp_column int64 brow _ (@income int64 brow _)
                           (@g_inc int64) d (fun k => eq_refl)).
  - exact (@sum_grp_column int64 brow _ (@expense int64 brow _)
                           (@g_exp int64) d (fun k => eq_refl)).
  - rewrite (@sum_grp_column int64 brow brow_columns bal (@g_total int64) d
                             (fun k => eq_refl)).
    change (sum_Z (map bal d) =
            sum_Z (map (fun r => income_amount (base r)) d) -
            sum_Z (map (fun r => expense_amount (base r)) d)).
    rewrite <- (@sum_Z_sub brow). apply sum_Z_ext. intros r Hr.
    apply (Permutation_in _ (Permutation_sym (sort_values_perm _))) in Hr.
    apply in_map_iff in Hr as (x & <- & _). reflexivity.
Qed.

Lemma summary_lines_add_up_witness :
  exists t,
    labels (state_of (@analyze_table pandas_keep spring
                        (app_with spring lunch_search))) = Some t /\
    sum_Z (map g_count (sum_tree (state_of (@analyze_table pandas_keep spring
                        (app_with spring lunch_search))))) = lbl_records t.
Proof.
  destruct (@summary_lines_add_up pandas_keep (app_with spring lunch_search)
              _ spring eq_refl eq_refl) as ((t & Ht & Hc & _) & _).
  exists t. split; [exact Ht | exact Hc].
Defined.

(* ================================================================== *)
(** ** More on [update_combos]: the cascade *)

Lemma mem_In (s : string) (l : list string) : mem s l = true <-> In s l.
Proof.
  unfold mem. rewrite existsb_exists. split.
  - intros (x & Hx & E). apply String.eqb_eq in E. now subst.
  - intros H. exists s. split; [exact H | apply String.eqb_refl].
Qed.

Lemma combo_list_In (values : list string) (v : string) :
  In v (combo_list values) <-> v = "All" \/ In v values.
Proof.
  unfold combo_list. simpl. rewrite sort_by_In. split; intros [H|H]; auto.
Qed.

Lemma text_domain_In (k : text_key) (d : list row) (v : string) :
  In v (text_domain k d) <-> exists r, In r d /\ column k r = Some v.
Proof.
  unfold text_domain.
  rewrite (@unique_In string String.eqb String.eqb_eq _ _), somes_In, in_map_iff.
  split; intros (r & H1 & H2); exists r; auto.
Qed.

Lemma year_domain_In (d : list row) (s : string) :
  In s (year_domain d) <->
  exists r t, In r d /\ expense_date r = Some t /\ s = Text.str_of_Z (year t).
Proof.
  unfold year_domain. rewrite in_map_iff. split.
  - intros (m & <- & Hm).
    apply (proj1 (@unique_In Z Z.eqb Z.eqb_eq _ _)) in Hm.
    apply in_map_iff in Hm as (t & <- & Ht).
    apply somes_In, in_map_iff in Ht as (r & Hr & Hin).
    now exists r, t.
  - intros (r & t & Hin & Hr & ->).
    exists (year t). split; [reflexivity|].
    apply (proj2 (@unique_In Z Z.eqb Z.eqb_eq _ _)), in_map_iff.
    exists t. split; [reflexivity|].
    apply somes_In, in_map_iff. now exists r.
Qed.

Lemma active_All (v : string) : active v = None -> v = "All"%string.
Proof.
  unfold active. destruct (v =? "All")%string eqn:E; [|discriminate].
  intros _. now apply String.eqb_eq.
Qed.

Lemma active_Some (v val : string) :
  active v = Some val <-> v = val /\ val <> "All"%string.
Proof.
  unfold active. destruct (v =? "All")%string eqn:E.
  - apply String.eqb_eq in E. split; [discriminate|]. intros [-> H]. now destruct H.
  - apply String.eqb_neq in E. split.
    + intros H; inversion H; subst. auto.
    + now intros [-> _].
Qed.

(** [update] leaves a variable alone when its value is offered. *)
Lemma reset_text_keep (curr : string) (values : list string) :
  (forall val, active curr = Some val -> In val values) ->
  reset_text curr values = curr.
Proof.
  intros H. unfold reset_text.
  destruct (curr =? "All")%string eqn:E; [reflexivity|]. cbn [negb andb].
  assert (Hin : In curr (combo_list values)).
  { apply combo_list_In. right. apply H. apply active_Some. split; [reflexivity|].
    now apply String.eqb_neq. }
  apply mem_In in Hin. now rewrite Hin.
Qed.

Lemma reset_text_nil (curr : string) : reset_text curr [] = "All"%string.
Proof.
  unfold reset_text, combo_list, mem. simpl. rewrite orb_false_r.
  destruct (curr =? "All")%string eqn:E; [now apply String.eqb_eq|reflexivity].
Qed.

Lemma reset_num_keep (render : Z -> string) (curr : option Z) (values : list string) :
  (forall n, curr = Some n -> In (render n) values) ->
  reset_num render curr values = curr.
Proof.
  intros H. unfold reset_num. destruct curr as [n|]; [|reflexivity].
  assert (Hin : In (render n) (combo_list values)).
  { apply combo_list_In. right. now apply H. }
  apply mem_In in Hin. now rewrite Hin.
Qed.

(** The state of the variables after a selection that nothing passes. *)
Definition cleared (s : selection) : selection :=
  mkSelection "All" None None "All" "All" "All" (desc_var s).

Definition no_values : combo_values :=
  mkCombos ["All"] ["All"] ["All"] ["All"] ["All"] ["All"].

(** The rendering of a number is never the text "All". *)
Lemma str_of_Z_not_All (z : Z) : Text.str_of_Z z <> "All"%string.
Proof.
  unfold Text.str_of_Z. destruct (Z.to_int z) as [d|d]; destruct d; discriminate.
Qed.

Lemma fmt02_not_All (m : Z) : Text.fmt02 m <> "All"%string.
Proof.
  unfold Text.fmt02. destruct (m <? 10); [discriminate | apply str_of_Z_not_All].
Qed.

(** X6.  The cascade of [update_combos] is all or nothing.  If some dated
    record passes every active combo selection, every variable keeps its
    value.  If none does, every combo variable is set back to "All" and
    every combo is left offering "All" alone; the search text is kept. *)
Theorem update_combos_keeps_or_clears (st : app) (rows : list row) :
  df st = Some (Table rows) ->
  updating_combos st = false ->
  exists st',
    update_combos st = Some st' /\
    df st' = df st /\
    (narrowed (vars (filters st)) rows <> [] ->
       vars (filters st') = vars (filters st)) /\
    (narrowed (vars (filters st)) rows = [] ->
       vars (filters st') = cleared (vars (filters st)) /\
       combos (filters st') = no_values).
Proof.
  intros Hdf Hup.
  exists (set_filters (refresh_filters (filters st) rows) st).
  split; [unfold update_combos; now rewrite Hdf, Hup|].
  split; [reflexivity|].
  remember (vars (filters st)) as s eqn:Es.
  split.
  - intros Hne. destruct (narrowed s rows) as [|r0 d] eqn:En; [now destruct Hne|].
    assert (Hr0 : In r0 (narrowed s rows)) by (rewrite En; now left).
    apply narrowed_In in Hr0 as (_ & _ & Ht & Hyr & Hmo).
    assert (Htext : forall k val, active (text_var k s) = Some val ->
                                  In val (text_domain k (r0 :: d))).
    { intros k val Hv. apply text_domain_In. exists r0. split; [now left|].
      specialize (Ht k val Hv). unfold combo_match in Ht.
      destruct (column k r0) as [c|]; [|discriminate].
      apply String.eqb_eq in Ht. now subst. }
    simpl. rewrite <- Es, En.
    rewrite !reset_text_keep by (apply Htext with (k := KReport)
                                 || apply Htext with (k := KCategory)
                                 || apply Htext with (k := KMerchant)
                                 || apply Htext with (k := KPaid)).
    rewrite !reset_num_keep.
    + now destruct s.
    + intros n Hn. apply month_domain_In. specialize (Hmo n Hn).
      unfold month_is in Hmo. destruct (expense_date r0) as [t|] eqn:Ed; [|discriminate].
      apply Z.eqb_eq in Hmo. subst n. exists r0, t. repeat split; auto. now left.
    + intros n Hn. apply year_domain_In. specialize (Hyr n Hn).
      unfold year_is in Hyr. destruct (expense_date r0) as [t|] eqn:Ed; [|discriminate].
      apply Z.eqb_eq in Hyr. subst n. exists r0, t. repeat split; auto. now left.
  - intros En. simpl. rewrite <- Es, En. unfold cleared, no_values.
    change (text_domain _ []) with (@nil string).
    change (year_domain []) with (@nil string).
    change (month_domain []) with (@nil string).
    rewrite !reset_text_nil. split; [|reflexivity].
    assert (Hyn : reset_num Text.str_of_Z (year_var s) [] = None).
    { unfold reset_num. destruct (year_var s) as [y|] eqn:E; [|reflexivity].
      destruct (mem (Text.str_of_Z y) (combo_list [])) eqn:Em; [|reflexivity].
      apply mem_In, combo_list_In in Em as [Em|[]]. now destruct (str_of_Z_not_All y). }
    assert (Hmn : reset_num Text.fmt02 (month_var s) [] = None).
    { unfold reset_num. destruct (month_var s) as [m|] eqn:E; [|reflexivity].
      destruct (mem (Text.fmt02 m) (combo_list [])) eqn:Em; [|reflexivity].
      apply mem_In, combo_list_In in Em as [Em|[]]. now destruct (fmt02_not_All m). }
    now rewrite Hyn, Hmn.
Qed.

Lemma update_combos_keeps_or_clears_witness :
  exists st',
    update_combos (app_with two_years (select_year 2030)) = Some st' /\
    vars (filters st') = cleared (vars (select_year 2030)) /\
    combos (filters st') = no_values.
Proof.
  destruct (@update_combos_keeps_or_clears
              (app_with two_years (select_year 2030)) two_years eq_refl eq_refl)
    as (st' & H & _ & _ & Hc).
  exists st'. split; [exact H | apply Hc; reflexivity].
Defined.

(** The second selection keeps every active selection of the first. *)
Definition keeps_selections (s1 s2 : selection) : Prop :=
  (forall k val, active (text_var k s1) = Some val -> text_var k s2 = val) /\
  (forall y, year_var s1 = Some y -> year_var s2 = Some y) /\
  (forall m, month_var s1 = Some m -> month_var s2 = Some m).

Lemma narrowed_incl (s1 s2 : selection) (rows : list row) :
  keeps_selections s1 s2 -> incl (narrowed s2 rows) (narrowed s1 rows).
Proof.
  intros (Ht & Hy & Hm) r Hr.
  apply narrowed_In in Hr as (Hin & Hd & St & Sy & Sm).
  apply narrowed_In. repeat split; auto.
  intros k val Hv. apply St. apply active_Some. split.
  - now apply Ht.
  - now apply active_Some in Hv.
Qed.

Lemma combo_list_incl (v1 v2 : list string) :
  incl v2 v1 -> incl (combo_list v2) (combo_list v1).
Proof.
  intros H v Hv. apply combo_list_In in Hv as [->|Hv]; apply combo_list_In; auto.
Qed.

Lemma text_domain_incl (k : text_key) (d1 d2 : list row) :
  incl d2 d1 -> incl (text_domain k d2) (text_domain k d1).
Proof.
  intros H v Hv. apply text_domain_In in Hv as (r & Hr & Hc).
  apply text_domain_In. exists r. auto.
Qed.

Lemma year_domain_incl (d1 d2 : list row) :
  incl d2 d1 -> incl (year_domain d2) (year_domain d1).
Proof.
  intros H v Hv. apply year_domain_In in Hv as (r & t & Hr & Hc).
  apply year_domain_In. exists r, t. split; [now apply H | exact Hc].
Qed.

Lemma month_domain_incl (d1 d2 : list row) :
  incl d2 d1 -> incl (month_domain d2) (month_domain d1).
Proof.
  intros H v Hv. apply month_domain_In in Hv as (r & t & Hr & Hc).
  apply month_domain_In. exists r, t. split; [now apply H | exact Hc].
Qed.

(** X7.  Selecting more never offers more: when a selection keeps every
    active combo selection of another one (and possibly adds some), each of
    the six lists that [update_combos] computes for it is included in the
    list computed for the other one, on the same store. *)
Theorem more_selections_fewer_options (f1 f2 : filters_t) (rows : list row) :
  keeps_selections (vars f1) (vars f2) ->
  let c1 := combos (refresh_filters f1 rows) in
  let c2 := combos (refresh_filters f2 rows) in
  incl (report_values c2) (report_values c1) /\
  incl (year_values c2) (year_values c1) /\
  incl (month_values c2) (month_values c1) /\
  incl (category_values c2) (category_values c1) /\
  incl (merchant_values c2) (merchant_values c1) /\
  incl (paid_values c2) (paid_values c1).
Proof.
  intros H. pose proof (narrowed_incl rows H) as Hn. simpl.
  repeat split; apply combo_list_incl;
    first [ now apply text_domain_incl
          | now apply year_domain_incl
          | now apply month_domain_incl ].
Qed.

Lemma more_selections_fewer_options_witness :
  incl (month_values (combos (refresh_filters (select_year 2024) two_years)))
       (month_values (combos (refresh_filters fresh_filters two_years))).
Proof.
  assert (H : keeps_selections (vars fresh_filters) (vars (select_year 2024))).
  { repeat split; try discriminate. intros [] val Hv; discriminate Hv. }
  exact (proj1 (proj2 (proj2
           (@more_selections_fewer_options fresh_filters (select_year 2024)
                                           two_years H)))).
Defined.

(* ================================================================== *)
(** ** The record dialog: edit, add and failed saves *)

(** Two rows of a frame with the same value in a column whose values are
    pairwise distinct are the same row. *)
Lemma distinct_column (col : row -> Z) (rows : list row) (a b : row) :
  NoDup (map col rows) -> In a rows -> In b rows -> col a = col b -> a = b.
Proof.
  induction rows as [|r rows IH]; intros Hnd Ha Hb E; [destruct Ha|].
  simpl in Hnd. inversion Hnd as [|x l Hnin Hnd']; subst.
  destruct Ha as [->|Ha], Hb as [->|Hb]; auto.
  - destruct Hnin. rewrite E. now apply in_map.
  - destruct Hnin. rewrite <- E. now apply in_map.
Qed.

(** The record with stable id [oi] takes the values of the dialog. *)
Definition overwrite_id (dt : option date) (inc exp : Z) (g : dialog)
           (oi : Z) (rows : list row) : list row :=
  map (fun r => if original_index r =? oi then overwrite dt inc exp g r else r)
      rows.

Lemma edit_row_by_id (dt : option date) (inc exp : Z) (g : dialog)
      (oi : Z) (rows : list row) :
  NoDup (labels_of rows) -> NoDup (ids rows) -> In oi (ids rows) ->
  edit_row dt inc exp g oi rows = Some (overwrite_id dt inc exp g oi rows).
Proof.
  intros Hl Hi Hin. unfold edit_row, overwrite_id.
  destruct (find (fun r => original_index r =? oi) rows) as [hit|] eqn:Ef.
  - apply find_some in Ef as [Hhit Eh]. apply Z.eqb_eq in Eh.
    f_equal. apply map_ext_in. intros r Hr.
    destruct (idx r =? idx hit) eqn:E1, (original_index r =? oi) eqn:E2;
      try reflexivity.
    + apply Z.eqb_eq in E1. apply Z.eqb_neq in E2.
      destruct E2. now rewrite (@distinct_column idx rows r hit Hl Hr Hhit E1).
    + apply Z.eqb_eq in E2. apply Z.eqb_neq in E1.
      destruct E1. f_equal.
      apply (@distinct_column original_index rows r hit Hi Hr Hhit). congruence.
  - unfold ids in Hin. apply in_map_iff in Hin as (r & Er & Hr).
    apply (find_none _ _ Ef) in Hr. apply Z.eqb_neq in Hr. now destruct Hr.
Qed.

Lemma overwrite_id_columns (dt : option date) (inc exp : Z) (g : dialog)
      (oi : Z) (rows : list row) :
  ids (overwrite_id dt inc exp g oi rows) = ids rows /\
  labels_of (overwrite_id dt inc exp g oi rows) = labels_of rows /\
  map report_name (overwrite_id dt inc exp g oi rows) = map report_name rows.
Proof.
  unfold overwrite_id, ids, labels_of. rewrite !map_map.
  repeat split; apply map_ext; intros r;
    destruct (original_index r =? oi); reflexivity.
Qed.

(** X8.  Editing a record through the dialog, on a store whose index labels
    and stable ids are pairwise distinct: the record whose stable id is the
    one of the edited line, and no other, takes the date, amounts,
    description, category, merchant and payment method of the dialog; the
    stable ids, the index labels, the report names and the order of the
    store are unchanged, and "Record updated." is shown. *)
Theorem edit_overwrites_the_record_with_the_id {P : Pandas}
        (st : app) (rows : list row) (g : dialog) (oi : Z)
        (dt : option date) (inc exp : Z) :
  df st = Some (Table rows) ->
  in_date g = Parsed dt -> in_inc g = Parsed inc -> in_exp g = Parsed exp ->
  NoDup (labels_of rows) -> NoDup (ids rows) -> In oi (ids rows) ->
  exists st' shown,
    save (ModeEdit oi) g st = Some (Returns st' (InfoUpdated :: shown)) /\
    store_rows st' = Some (overwrite_id dt inc exp g oi rows) /\
    ids (overwrite_id dt inc exp g oi rows) = ids rows /\
    labels_of (overwrite_id dt inc exp g oi rows) = labels_of rows /\
    map report_name (overwrite_id dt inc exp g oi rows) = map report_name rows.
Proof.
  intros Hdf Hd Hi He Hl Hids Hin.
  pose proof (overwrite_id_columns dt inc exp g oi rows) as Hcols.
  unfold save. rewrite Hdf, Hd, Hi, He, (@edit_row_by_id dt inc exp g oi rows Hl Hids Hin).
  set (rows' := overwrite_id dt inc exp g oi rows) in *.
  pose proof (analyze_table_df rows' (set_df (Some (Table rows')) st)) as Hs.
  destruct (analyze_table rows' (set_df (Some (Table rows')) st))
    as [st' shown|st' shown]; simpl in Hs.
  - exists st', shown. split; [reflexivity|].
    split; [unfold store_rows; now rewrite Hs | exact Hcols].
  - exists st', (shown ++ [ErrorOperation]). split; [reflexivity|].
    split; [unfold store_rows; now rewrite Hs | exact Hcols].
Qed.

Ltac distinct_numbers := vm_compute; repeat constructor; simpl; intuition discriminate.

(** The second record of the ledger, retyped as a dinner of 25. *)
Definition entry_dinner : dialog :=
  mkDialog (Parsed (Some (mkDate 2024 2 9))) "dinner" "Food" "Bistro" "Card"
           (Parsed 0) (Parsed 25).

Lemma edit_overwrites_the_record_with_the_id_witness :
  exists st' shown,
    @save pandas_keep (ModeEdit 1) entry_dinner loaded3
    = Some (Returns st' (InfoUpdated :: shown)) /\
    store_rows st'
    = Some [ rec_a;
             mkRow 1 (Some "R1") (Some (mkDate 2024 2 9)) 25 0 (Some "dinner")
                   "Food" "Bistro" "Card" 1;
             rec_c ].
Proof.
  assert (Hl : NoDup (labels_of three)) by distinct_numbers.
  assert (Hi : NoDup (ids three)) by distinct_numbers.
  assert (Hin : In 1 (ids three)) by (vm_compute; auto).
  destruct (@edit_overwrites_the_record_with_the_id pandas_keep loaded3 three
              entry_dinner 1 _ _ _ eq_refl eq_refl eq_refl eq_refl Hl Hi Hin)
    as (st' & shown & H1 & H2 & _).
  exists st', shown. split; [exact H1 | exact H2].
Defined.

(** X9.  A save of the record dialog that fails changes nothing.  A date or
    an amount that does not parse gives "Validation Error", in both modes
    and before the store is looked at; an edit of a stable id that no record
    of the store holds gives "Operation failed".  In both cases one error
    box is shown and the state is the one before the save. *)
Theorem failed_save_changes_nothing {P : Pandas}
        (m : dialog_mode) (g : dialog) (st : app) (rows : list row) :
  df st = Some (Table rows) ->
  (in_date g = ParseError \/ in_inc g = ParseError \/ in_exp g = ParseError ->
   save m g st = Some (Returns st [ErrorValidation])) /\
  (forall oi dt inc exp,
     m = ModeEdit oi ->
     in_date g = Parsed dt -> in_inc g = Parsed inc -> in_exp g = Parsed exp ->
     ~ In oi (ids rows) ->
     save m g st = Some (Returns st [ErrorOperation])).
Proof.
  intros Hdf. unfold save. rewrite Hdf. split.
  - intros [H|[H|H]]; rewrite H;
      destruct (in_date g); try destruct (in_inc g); reflexivity.
  - intros oi dt inc exp -> -> -> -> Hnin. unfold edit_row.
    destruct (find (fun r => original_index r =? oi) rows) as [hit|] eqn:Ef;
      [|reflexivity].
    apply find_some in Ef as [Hhit Eh]. apply Z.eqb_eq in Eh.
    destruct Hnin. unfold ids. rewrite <- Eh. now apply in_map.
Qed.

(** An edit of the record with id 7, which the ledger does not hold. *)
Lemma failed_save_changes_nothing_witness :
  @save pandas_keep (ModeEdit 7) entry_dinner loaded3
  = Some (Returns loaded3 [ErrorOperation]).
Proof.
  assert (Hnin : ~ In 7 (ids three)) by (vm_compute; intuition discriminate).
  exact (proj2 (@failed_save_changes_nothing pandas_keep (ModeEdit 7)
                  entry_dinner loaded3 three eq_refl)
               7 _ _ _ eq_refl eq_refl eq_refl eq_refl Hnin).
Defined.

Lemma relabel_app (n : Z) (l : list row) (x : row) :
  relabel n (l ++ [x])
  = relabel n l ++ [with_idx (n + Z.of_nat (List.length l)) x].
Proof.
  revert n. induction l as [|r l IH]; intros n.
  - simpl. now rewrite Z.add_0_r.
  - cbn [List.app relabel List.length]. rewrite IH, Nat2Z.inj_succ.
    replace (n + 1 + Z.of_nat (List.length l))
      with (n + Z.succ (Z.of_nat (List.length l))) by lia.
    reflexivity.
Qed.

Lemma relabel_bounds (n : Z) (l : list row) (r : row) :
  In r (relabel n l) -> n <= idx r < n + Z.of_nat (List.length l).
Proof.
  revert n. induction l as [|x l IH]; intros n; [intros []|].
  cbn [relabel List.length]. rewrite Nat2Z.inj_succ. intros [<-|H].
  - simpl. lia.
  - apply IH in H. lia.
Qed.

Lemma labels_relabel (n : Z) (l : list row) :
  labels_of (relabel n l)
  = map (fun k => n + Z.of_nat k) (seq 0 (List.length l)).
Proof.
  revert n. induction l as [|x l IH]; intros n; [reflexivity|].
  cbn [relabel List.length seq map labels_of]. fold (labels_of (relabel (n + 1) l)).
  rewrite IH, <- seq_shift, map_map. f_equal; [simpl; lia|].
  apply map_ext. intros k. lia.
Qed.

Lemma relabel_fields (n : Z) (l : list row) :
  map (with_idx 0) (relabel n l) = map (with_idx 0) l.
Proof.
  revert n. induction l as [|x l IH]; intros n; [reflexivity|].
  cbn [relabel map]. now rewrite IH.
Qed.

(** X10.  Adding a record through the dialog appends it after the records of
    the store with the report name "Manual Entry" and the values of the
    dialog, keeps every field of the older records except the index label,
    and renumbers the index labels to 0, 1, ..., n whatever they were
    ([ignore_index=True]); the stable ids of the older records are kept. *)
Theorem add_appends_and_renumbers {P : Pandas}
        (st : app) (rows : list row) (g : dialog)
        (dt : option date) (inc exp : Z) :
  df st = Some (Table rows) ->
  in_date g = Parsed dt -> in_inc g = Parsed inc -> in_exp g = Parsed exp ->
  exists st' shown rows',
    save ModeAdd g st = Some (Returns st' (InfoAdded :: shown)) /\
    store_rows st' = Some rows' /\
    map (with_idx 0) rows'
    = map (with_idx 0) rows ++ [new_row dt inc exp g (new_idx rows)] /\
    labels_of rows' = map Z.of_nat (seq 0 (S (List.length rows))) /\
    ids rows' = ids rows ++ [new_idx rows].
Proof.
  intros Hdf Hd Hi He.
  assert (Hs : store_rows st = Some rows) by (unfold store_rows; now rewrite Hdf).
  destruct (@save_add_rows _ g st rows dt inc exp Hs Hd Hi He)
    as (st' & shown & H1 & H2).
  exists st', shown, (add_row dt inc exp g rows).
  split; [exact H1|]. split; [exact H2|]. unfold add_row. repeat split.
  - now rewrite relabel_fields, map_app.
  - rewrite labels_relabel, length_app, Nat.add_comm. reflexivity.
  - apply ids_add_row.
Qed.

Lemma add_appends_and_renumbers_witness :
  exists st' shown rows',
    @save pandas_keep ModeAdd entry_new loaded3
    = Some (Returns st' (InfoAdded :: shown)) /\
    store_rows st' = Some rows' /\
    labels_of rows' = [0; 1; 2; 3] /\ ids rows' = [0; 1; 2; 3].
Proof.
  destruct (@add_appends_and_renumbers pandas_keep loaded3 three entry_new
              _ _ _ eq_refl eq_refl eq_refl eq_refl)
    as (st' & shown & rows' & H1 & H2 & _ & H3 & H4).
  exists st', shown, rows'. repeat split; assumption.
Defined.

Lemma find_in_last (p : row -> bool) (l : list row) (x : row) :
  (forall r, In r l -> p r = false) -> p x = true ->
  find p (l ++ [x]) = Some x.
Proof.
  intros Hl Hx. induction l as [|r l IH]; simpl.
  - now rewrite Hx.
  - rewrite (Hl r) by now left. apply IH. intros y Hy. apply Hl. now right.
Qed.

(** An edit of the record that was just added reaches that record only. *)
Lemma edit_row_added (dt dt' : option date) (inc exp inc' exp' : Z)
      (g g' : dialog) (rows : list row) :
  edit_row dt' inc' exp' g' (new_idx rows) (add_row dt inc exp g rows)
  = Some (add_row dt' inc' exp' g' rows).
Proof.
  unfold edit_row, add_row. rewrite !relabel_app. simpl Z.add.
  set (n := Z.of_nat (List.length rows)).
  rewrite find_in_last.
  - f_equal. rewrite map_app. f_equal.
    + rewrite <- (map_id (relabel 0 rows)) at 2. apply map_ext_in.
      intros r Hr. apply relabel_bounds in Hr. simpl idx.
      destruct (idx r =? n) eqn:E; [|reflexivity].
      apply Z.eqb_eq in E. unfold n in E. lia.
    + simpl. now rewrite Z.eqb_refl.
  - intros r Hr. apply Z.eqb_neq. intros E.
    apply (@new_idx_fresh rows). rewrite <- E, <- (ids_relabel 0 rows).
    unfold ids. now apply in_map.
  - simpl. apply Z.eqb_refl.
Qed.

(** X11.  A record added through the dialog and then edited (its line is
    opened and saved with other values) leaves the store as if the record had
    been added with the later values: the edit reaches the added record and
    no other, on any store. *)
Theorem add_then_edit_is_add {P : Pandas}
        (st : app) (rows : list row) (g g' : dialog)
        (dt dt' : option date) (inc exp inc' exp' : Z) :
  df st = Some (Table rows) ->
  in_date g = Parsed dt -> in_inc g = Parsed inc -> in_exp g = Parsed exp ->
  in_date g' = Parsed dt' -> in_inc g' = Parsed inc' -> in_exp g' = Parsed exp' ->
  exists st1 shown1 st2 shown2,
    save ModeAdd g st = Some (Returns st1 (InfoAdded :: shown1)) /\
    save (ModeEdit (new_idx rows)) g' st1
    = Some (Returns st2 (InfoUpdated :: shown2)) /\
    store_rows st2 = Some (add_row dt' inc' exp' g' rows).
Proof.
  intros Hdf Hd Hi He Hd' Hi' He'.
  assert (Hs : store_rows st = Some rows) by (unfold store_rows; now rewrite Hdf).
  destruct (@save_add_rows _ g st rows dt inc exp Hs Hd Hi He)
    as (st1 & shown1 & H1 & H2).
  exists st1, shown1.
  assert (Hdf1 : df st1 = Some (Table (add_row dt inc exp g rows))).
  { unfold store_rows in H2. destruct (df st1) as [[x|x]|]; try discriminate.
    now inversion H2. }
  unfold save at 2. rewrite Hdf1, Hd', Hi', He', edit_row_added.
  set (rows' := add_row dt' inc' exp' g' rows).
  pose proof (analyze_table_df rows' (set_df (Some (Table rows')) st1)) as Hdf2.
  destruct (analyze_table rows' (set_df (Some (Table rows')) st1))
    as [st2 shown2|st2 shown2]; simpl in Hdf2.
  - exists st2, shown2. split; [exact H1|]. split; [reflexivity|].
    unfold store_rows. now rewrite Hdf2.
  - exists st2, (shown2 ++ [ErrorOperation]). split; [exact H1|].
    split; [reflexivity|]. unfold store_rows. now rewrite Hdf2.
Qed.

Lemma add_then_edit_is_add_witness :
  exists st1 shown1 st2 shown2,
    @save pandas_keep ModeAdd entry_new loaded3
    = Some (Returns st1 (InfoAdded :: shown1)) /\
    @save pandas_keep (ModeEdit 3) entry_dinner st1
    = Some (Returns st2 (InfoUpdated :: shown2)) /\
    store_rows st2
    = Some (three ++ [mkRow 3 (Some "Manual Entry") (Some (mkDate 2024 2 9))
                            25 0 (Some "dinner") "Food" "Bistro" "Card" 3]).
Proof.
  exact (@add_then_edit_is_add pandas_keep loaded3 three entry_new entry_dinner
           _ _ _ _ _ _ eq_refl eq_refl eq_refl eq_refl eq_refl eq_refl eq_refl).
Defined.

(* ================================================================== *)
(** ** [delete_record] on several selected lines *)

(** The rows that a selection leaves: those whose index label is the last
    column of no selected line. *)
Definition kept (selected : list tree_item) (r : row) : bool :=
  negb (existsb (fun item => idx r =? ti_id item) selected).

Lemma drop_one (i : Z) (rows : list row) :
  NoDup (labels_of rows) -> in_index i rows = true ->
  S (List.length (drop i rows)) = List.length rows.
Proof.
  unfold in_index, drop. induction rows as [|r rows IH]; [discriminate|].
  intros Hnd Hin. simpl in Hnd. inversion Hnd as [|x l Hnin Hnd']; subst.
  simpl in *. destruct (idx r =? i) eqn:E; simpl.
  - apply Z.eqb_eq in E. f_equal.
    rewrite forallb_filter_id; [reflexivity|].
    apply forallb_forall. intros y Hy. apply negb_true_iff, Z.eqb_neq.
    intros Ey. apply Hnin. rewrite E, <- Ey. now apply in_map.
  - f_equal. now apply IH.
Qed.

Lemma drop_absent (i : Z) (rows : list row) :
  in_index i rows = false -> drop i rows = rows.
Proof.
  unfold in_index, drop. induction rows as [|r rows IH]; [reflexivity|].
  simpl. intros H. apply orb_false_iff in H as [H1 H2].
  rewrite H1. simpl. now rewrite IH.
Qed.

Lemma drop_labels (i : Z) (rows : list row) :
  NoDup (labels_of rows) -> NoDup (labels_of (drop i rows)).
Proof.
  unfold drop, labels_of. induction rows as [|r rows IH]; simpl; intros H.
  - constructor.
  - inversion H as [|x l Hnin Hnd]; subst.
    destruct (negb (idx r =? i)); simpl; auto.
    constructor; auto. intros Hin. apply Hnin.
    apply in_map_iff in Hin as (y & Ey & Hy).
    apply filter_In in Hy as [Hy _]. rewrite <- Ey. now apply in_map.
Qed.

Lemma kept_cons (item : tree_item) (rest : list tree_item) (rows : list row) :
  filter (kept (item :: rest)) rows
  = filter (kept rest) (drop (ti_id item) rows).
Proof.
  unfold drop. induction rows as [|r rows IH]; [reflexivity|].
  cbn [filter]. rewrite IH. unfold kept at 1. cbn [existsb].
  destruct (idx r =? ti_id item); cbn [negb orb filter]; reflexivity.
Qed.

Lemma delete_loop_kept (selected : list tree_item) (rows : list row) (count : Z) :
  NoDup (labels_of rows) ->
  delete_loop selected rows count
  = (filter (kept selected) rows,
     count + (Z.of_nat (List.length rows)
              - Z.of_nat (List.length (filter (kept selected) rows)))).
Proof.
  revert rows count. induction selected as [|item rest IH]; intros rows count Hnd.
  - simpl. unfold kept. simpl.
    rewrite forallb_filter_id by (now apply forallb_forall).
    f_equal. lia.
  - cbn [delete_loop].
    pose proof (kept_cons item rest rows) as Hf.
    destruct (in_index (ti_id item) rows) eqn:Ein.
    + rewrite IH by now apply drop_labels. rewrite Hf. f_equal.
      pose proof (@drop_one _ rows Hnd Ein). lia.
    + rewrite IH by exact Hnd. rewrite Hf, (@drop_absent _ rows Ein). reflexivity.
Qed.

(** X12.  Deleting a confirmed, non-empty selection from a store whose
    index labels are pairwise distinct removes exactly the rows whose index
    label is the last column of a selected line, keeps the other rows in
    their order, and the number in "n record(s) deleted." is the number of
    rows removed; when no selected line names an index label the store is
    left as it was and "Could not delete records." is shown. *)
Theorem delete_reports_the_rows_removed {P : Pandas}
        (selected : list tree_item) (st : app) (rows : list row) :
  df st = Some (Table rows) ->
  edit_mode st = true ->
  selected <> [] ->
  NoDup (labels_of rows) ->
  let rows' := filter (kept selected) rows in
  let n := Z.of_nat (List.length rows) - Z.of_nat (List.length rows') in
  exists r,
    delete_record selected true st = Some r /\
    store_rows (state_of r) = Some rows' /\
    (n = 0 -> r = Returns st [WarnCouldNotDelete]) /\
    (0 < n -> forall st' shown,
       r = Returns st' shown -> exists s, shown = s ++ [InfoDeleted n]).
Proof.
  intros Hdf Hedit Hsel Hnd rows' n.
  unfold delete_record. rewrite Hedit, Hdf. cbn [negb].
  destruct selected as [|item rest]; [now destruct Hsel|].
  pose proof (delete_loop_count (item :: rest) rows 0) as [_ Hsame].
  rewrite (@delete_loop_kept (item :: rest) rows 0 Hnd) in *.
  fold rows' in Hsame |- *. fold n in Hsame |- *. cbn [fst snd] in Hsame.
  rewrite Z.add_0_l in *.
  destruct (0 <? n) eqn:En.
  - apply Z.ltb_lt in En.
    pose proof (analyze_table_df rows' (set_df (Some (Table rows')) st)) as Hs.
    destruct (analyze_table rows' (set_df (Some (Table rows')) st))
      as [st' shown|st' shown]; simpl in Hs; eexists; split; try reflexivity;
      (split; [unfold store_rows; simpl; now rewrite Hs|]);
      (split; [lia|]); intros _ st2 shown2 E; inversion E; subst; eauto.
  - apply Z.ltb_ge in En.
    assert (Hn : n = 0).
    { pose proof (filter_length_le (kept (item :: rest)) rows).
      unfold n, rows' in *. lia. }
    rewrite (Hsame Hn), (@set_df_same st _ Hdf).
    eexists; split; [reflexivity|].
    split; [unfold store_rows; simpl; now rewrite Hdf|].
    split; [reflexivity | lia].
Qed.

Lemma delete_reports_the_rows_removed_witness :
  exists r,
    @delete_record pandas_keep [item_of rec_a; item_of rec_c] true loaded3
    = Some r /\
    store_rows (state_of r) = Some [rec_b] /\
    (forall st' shown, r = Returns st' shown ->
       exists s, shown = s ++ [InfoDeleted 2]).
Proof.
  assert (Hsel : [item_of rec_a; item_of rec_c] <> []) by discriminate.
  assert (Hl : NoDup (labels_of three)) by distinct_numbers.
  destruct (@delete_reports_the_rows_removed pandas_keep
              [item_of rec_a; item_of rec_c] loaded3 three
              eq_refl eq_refl Hsel Hl) as (r & H1 & H2 & _ & H3).
  exists r. split; [exact H1|]. split; [exact H2|].
  apply H3. reflexivity.
Defined.

(* ================================================================== *)
(** ** Editing sessions *)

(** [ExpenseAnalyzer.add_record]; [g] is what the user types into the
    dialog before pressing [Save]. *)
Definition add_record {P : Pandas} (g : dialog) (st : app) : option result :=
  match df st with
  | None => Some (Returns st [])
  | Some _ => save ModeAdd g st
  end.

(** [ExpenseAnalyzer.on_tree_double_click] on the line [item], followed by
    [Save] in the dialog it opens; the stable id is [int(values[8])]. *)
Definition on_tree_double_click {P : Pandas} (item : tree_item) (g : dialog)
           (st : app) : option result :=
  if negb (edit_mode st) then Some (Returns st [])
  else save (ModeEdit (ti_id item)) g st.

Inductive command :=
| CmdAdd (g : dialog)
| CmdEdit (item : tree_item) (g : dialog)
| CmdDelete (selected : list tree_item) (confirm : bool)
| CmdAnalyze.

Definition exec {P : Pandas} (c : command) (st : app) : option app :=
  option_map state_of
    match c with
    | CmdAdd g => add_record g st
    | CmdEdit item g => on_tree_double_click item g st
    | CmdDelete selected confirm => delete_record selected confirm st
    | CmdAnalyze => analyze st
    end.

Fixpoint session {P : Pandas} (cs : list command) (st : app) : option app :=
  match cs with
  | [] => Some st
  | c :: rest => st' <- exec c st ;; session rest st'
  end.

(** Index labels and stable ids are both pairwise distinct. *)
Definition distinct (rows : list row) : Prop :=
  NoDup (labels_of rows) /\ NoDup (ids rows).

Lemma labels_filter_NoDup (keep : row -> bool) (rows : list row) :
  NoDup (labels_of rows) -> NoDup (labels_of (filter keep rows)).
Proof.
  unfold labels_of. induction rows as [|r rows IH]; simpl; intros H.
  - constructor.
  - inversion H as [|x l Hnin Hnd]; subst.
    destruct (keep r); simpl; auto.
    constructor; auto. intros Hin. apply Hnin.
    apply in_map_iff in Hin as (y & Ey & Hy).
    apply filter_In in Hy as [Hy _]. rewrite <- Ey. now apply in_map.
Qed.

Lemma labels_add_row (dt : option date) (inc exp : Z) (g : dialog)
      (rows : list row) :
  NoDup (labels_of (add_row dt inc exp g rows)).
Proof.
  unfold add_row. rewrite labels_relabel.
  apply Finite.Injective_map_NoDup; [|apply seq_NoDup].
  intros a b H. lia.
Qed.

Lemma distinct_add_row (dt : option date) (inc exp : Z) (g : dialog)
      (rows : list row) :
  NoDup (ids rows) -> distinct (add_row dt inc exp g rows).
Proof.
  intros Hn. split; [apply labels_add_row|].
  rewrite ids_add_row. apply NoDup_app.
  - exact Hn.
  - repeat constructor. intros [].
  - intros i Hi [<-|[]]. exact (new_idx_fresh rows Hi).
Qed.

Lemma edit_row_distinct (dt : option date) (inc exp : Z) (g : dialog)
      (oi : Z) (rows rows' : list row) :
  edit_row dt inc exp g oi rows = Some rows' ->
  distinct rows -> distinct rows'.
Proof.
  unfold edit_row. destruct (find _ rows) as [hit|]; [|discriminate].
  intros H [Hl Hi]; inversion H; subst rows'; clear H.
  unfold distinct, labels_of, ids. rewrite !map_map.
  split.
  - erewrite map_ext; [exact Hl|].
    intros r. destruct (idx r =? idx hit); reflexivity.
  - erewrite map_ext; [exact Hi|].
    intros r. destruct (idx r =? idx hit); reflexivity.
Qed.

Section SessionInvariant.
Context {P : Pandas}.

Lemma save_distinct (m : dialog_mode) (g : dialog) (st : app) (rows : list row) :
  store_rows st = Some rows -> distinct rows ->
  exists r rows',
    save m g st = Some r /\ store_rows (state_of r) = Some rows' /\
    distinct rows'.
Proof.
  intros Hs Hd. unfold store_rows in Hs.
  destruct (df st) as [[rows0|t]|] eqn:Edf; try discriminate.
  inversion Hs; subst rows0; clear Hs.
  assert (Hsame : store_rows st = Some rows)
    by (unfold store_rows; now rewrite Edf).
  assert (Hkeep : forall rows', distinct rows' ->
            exists r rows2,
              match analyze_table rows' (set_df (Some (Table rows')) st) with
              | Returns st' shown => Some (Returns st' (InfoUpdated :: shown))
              | Raises st' shown =>
                  Some (Returns st' (InfoUpdated :: shown ++ [ErrorOperation]))
              end = Some r /\
              store_rows (state_of r) = Some rows2 /\ distinct rows2).
  { intros rows' Hd'.
    pose proof (analyze_table_df rows' (set_df (Some (Table rows')) st)) as Hv.
    destruct (analyze_table rows' (set_df (Some (Table rows')) st))
      as [st' shown|st' shown]; simpl in Hv;
      eexists; exists rows'; (split; [reflexivity|]);
      (split; [unfold store_rows; simpl; now rewrite Hv | exact Hd']). }
  unfold save. rewrite Edf.
  destruct (in_date g) as [|dt]; [now exists (Returns st [ErrorValidation]), rows|].
  destruct (in_inc g) as [|inc]; [now exists (Returns st [ErrorValidation]), rows|].
  destruct (in_exp g) as [|exp]; [now exists (Returns st [ErrorValidation]), rows|].
  destruct m as [|oi].
  - pose proof (@distinct_add_row dt inc exp g rows (proj2 Hd)) as Hd'.
    set (rows' := add_row dt inc exp g rows) in *.
    pose proof (analyze_table_df rows' (set_df (Some (Table rows')) st)) as Hv.
    destruct (analyze_table rows' (set_df (Some (Table rows')) st))
      as [st' shown|st' shown]; simpl in Hv;
      eexists; exists rows'; (split; [reflexivity|]);
      (split; [unfold store_rows; simpl; now rewrite Hv | exact Hd']).
  - destruct (edit_row dt inc exp g oi rows) as [rows'|] eqn:Ee.
    + apply Hkeep. exact (@edit_row_distinct _ _ _ _ _ _ _ Ee Hd).
    + now exists (Returns st [ErrorOperation]), rows.
Qed.

Lemma exec_distinct (c : command) (st : app) (rows : list row) :
  store_rows st = Some rows -> distinct rows ->
  exists st' rows',
    exec c st = Some st' /\ store_rows st' = Some rows' /\ distinct rows'.
Proof.
  intros Hs Hd.
  assert (Hdf : df st = Some (Table rows)).
  { unfold store_rows in Hs. destruct (df st) as [[x|x]|]; try discriminate.
    now inversion Hs. }
  destruct c as [g|item g|selected confirm|]; unfold exec.
  - unfold add_record. rewrite Hdf.
    destruct (save_distinct ModeAdd g st Hs Hd) as (r & rows' & -> & H2 & H3).
    now exists (state_of r), rows'.
  - unfold on_tree_double_click. destruct (edit_mode st); simpl.
    + destruct (save_distinct (ModeEdit (ti_id item)) g st Hs Hd)
        as (r & rows' & -> & H2 & H3).
      now exists (state_of r), rows'.
    + now exists st, rows.
  - unfold delete_record. rewrite Hdf.
    destruct (edit_mode st); simpl; [|now exists st, rows].
    destruct selected as [|item rest]; [now exists st, rows|].
    destruct confirm; [|now exists st, rows].
    rewrite (@delete_loop_kept (item :: rest) rows 0 (proj1 Hd)).
    set (rows' := filter (kept (item :: rest)) rows).
    assert (Hd' : distinct rows').
    { split; [apply labels_filter_NoDup | apply ids_filter_NoDup]; apply Hd. }
    destruct (0 <? _).
    + pose proof (analyze_table_df rows' (set_df (Some (Table rows')) st)) as Hv.
      destruct (analyze_table rows' (set_df (Some (Table rows')) st))
        as [st' shown|st' shown]; simpl in *; exists st', rows';
        repeat split; try apply Hd'; unfold store_rows; now rewrite Hv.
    + eexists; exists rows'. repeat split; apply Hd'.
  - unfold analyze. rewrite Hdf. simpl.
    exists (state_of (analyze_table rows st)), rows. split; [reflexivity|].
    split; [|exact Hd]. unfold store_rows. now rewrite analyze_table_df, Hdf.
Qed.

End SessionInvariant.

(** X13.  Through any session of adds, edits of shown lines, deletions and
    analyses, starting from a store whose index labels and stable ids are
    both pairwise distinct, every command is carried out and the store keeps
    labels and ids pairwise distinct; so the preconditions under which an
    edit reaches one record and a deletion reports the rows it removed hold
    all along. *)
Theorem session_keeps_rows_distinct {P : Pandas}
        (cs : list command) (st : app) (rows : list row) :
  store_rows st = Some rows ->
  distinct rows ->
  exists st' rows',
    session cs st = Some st' /\ store_rows st' = Some rows' /\ distinct rows'.
Proof.
  revert st rows. induction cs as [|c cs IH]; intros st rows Hs Hd; simpl.
  - now exists st, rows.
  - destruct (exec_distinct c st Hs Hd) as (st1 & rows1 & -> & Hs1 & Hd1).
    exact (IH st1 rows1 Hs1 Hd1).
Qed.

Lemma session_keeps_rows_distinct_witness :
  exists st' rows',
    @session pandas_keep
             [CmdDelete [item_of rec_a] true; CmdAdd entry_new;
              CmdEdit (item_of rec_b) entry_dinner; CmdAnalyze] loaded3
    = Some st' /\
    store_rows st' = Some rows' /\ distinct rows'.
Proof.
  assert (Hd : distinct three) by (split; distinct_numbers).
  exact (@session_keeps_rows_distinct pandas_keep _ loaded3 three eq_refl Hd).
Defined.

(* ================================================================== *)
(** ** What [load_file] leaves in the store *)

Lemma map_col_self (n : string) (f : cell -> cell) (t t' : raw_frame) :
  map_col n f t = Some t' ->
  exists vals, get_col n t = Some vals /\ get_col n t' = Some (map f vals).
Proof.
  unfold map_col. destruct (get_col n t) as [vals|]; [|discriminate].
  intros H; inversion H; subst t'. exists vals. split; [reflexivity|].
  now rewrite get_col_set, String.eqb_refl.
Qed.

Lemma stage_no_total (t : raw_frame) : has_col "Total" (stage t) = false.
Proof.
  unfold stage.
  set (t1 := set_col "original_index" (map Num (raw_index t)) t).
  destruct (has_col "Total" t1) eqn:E1.
  - destruct (has_col "Paid Through" (drop_col "Total" t1));
      rewrite ?has_col_set, has_col_drop; reflexivity.
  - destruct (has_col "Paid Through" t1); [exact E1|].
    rewrite has_col_set. exact E1.
Qed.

(** A cell that holds a value. *)
Definition filled (c : cell) : Prop := c <> NaN.

Definition is_number (c : cell) : Prop := exists z, c = Num z.

Definition is_date_or_missing (c : cell) : Prop :=
  c = NaN \/ exists d, c = Stamp d.

Lemma fillna_filled (v : cell) (vals : list cell) :
  filled v -> Forall filled (map (fillna v) vals).
Proof.
  intros Hv. apply Forall_forall. intros c Hc.
  apply in_map_iff in Hc as (x & <- & _). destruct x; simpl; auto; discriminate.
Qed.

(** X14.  When the conversions of [load_file] complete, the frame has the
    index the reader delivered and no [Total] column; the columns
    [Merchant Name], [Expense Category] and [Paid Through] exist and hold no
    missing value; every cell of [Expense Amount] and [Income Amount] is a
    number; every cell of [Expense Date] is a timestamp or missing. *)
Theorem converted_frame_is_normalised {P : Pandas} (t t' : raw_frame) :
  convert t = Converted t' ->
  raw_index t' = raw_index t /\
  has_col "Total" t' = false /\
  (forall n, In n ["Merchant Name"; "Expense Category"; "Paid Through"]%string ->
     exists vals, get_col n t' = Some vals /\ Forall filled vals) /\
  (forall n, In n ["Expense Amount"; "Income Amount"]%string ->
     exists vals, get_col n t' = Some vals /\ Forall is_number vals) /\
  (exists vals, get_col "Expense Date" t' = Some vals /\
                Forall is_date_or_missing vals).
Proof.
  unfold convert.
  pose proof (stage_no_total t) as T0.
  pose proof (stage_index t) as I0.
  set (t3 := stage t) in *. clearbody t3.
  destruct (map_col "Merchant Name" _ t3) as [t4|] eqn:E4; [|discriminate].
  destruct (map_col "Expense Category" _ t4) as [t5|] eqn:E5; [|discriminate].
  destruct (map_col "Paid Through" _ t5) as [t6|] eqn:E6; [|discriminate].
  destruct (map_col "Expense Date" _ t6) as [t7|] eqn:E7; [|discriminate].
  destruct (map_col "Expense Amount" _ t7) as [t8|] eqn:E8; [|discriminate].
  destruct (map_col "Income Amount" _ t8) as [t9|] eqn:E9; [|discriminate].
  intros H; inversion H; subst t'; clear H.
  destruct (@map_col_self _ _ _ _ E4) as (v4 & _ & G4).
  destruct (@map_col_self _ _ _ _ E5) as (v5 & _ & G5).
  destruct (@map_col_self _ _ _ _ E6) as (v6 & _ & G6).
  destruct (@map_col_self _ _ _ _ E7) as (v7 & _ & G7).
  destruct (@map_col_self _ _ _ _ E8) as (v8 & _ & G8).
  destruct (@map_col_self _ _ _ _ E9) as (v9 & _ & G9).
  split; [|split; [|split; [|split]]].
  - rewrite (proj2 (@map_col_has "Total" _ _ _ _ E9)),
            (proj2 (@map_col_has "Total" _ _ _ _ E8)),
            (proj2 (@map_col_has "Total" _ _ _ _ E7)),
            (proj2 (@map_col_has "Total" _ _ _ _ E6)),
            (proj2 (@map_col_has "Total" _ _ _ _ E5)),
            (proj2 (@map_col_has "Total" _ _ _ _ E4)).
    exact I0.
  - rewrite (proj1 (@map_col_has "Total" _ _ _ _ E9)),
            (proj1 (@map_col_has "Total" _ _ _ _ E8)),
            (proj1 (@map_col_has "Total" _ _ _ _ E7)),
            (proj1 (@map_col_has "Total" _ _ _ _ E6)),
            (proj1 (@map_col_has "Total" _ _ _ _ E5)),
            (proj1 (@map_col_has "Total" _ _ _ _ E4)).
    exact T0.
  - intros n [<-|[<-|[<-|[]]]].
    + exists (map (fillna (Str "Unknown")) v4). split; [|now apply fillna_filled].
      rewrite (@map_col_other "Merchant Name" "Income Amount" _ _ _ eq_refl E9),
              (@map_col_other "Merchant Name" "Expense Amount" _ _ _ eq_refl E8),
              (@map_col_other "Merchant Name" "Expense Date" _ _ _ eq_refl E7),
              (@map_col_other "Merchant Name" "Paid Through" _ _ _ eq_refl E6),
              (@map_col_other "Merchant Name" "Expense Category" _ _ _ eq_refl E5).
      exact G4.
    + exists (map (fillna (Str "Uncategorized")) v5).
      split; [|now apply fillna_filled].
      rewrite (@map_col_other "Expense Category" "Income Amount" _ _ _ eq_refl E9),
              (@map_col_other "Expense Category" "Expense Amount" _ _ _ eq_refl E8),
              (@map_col_other "Expense Category" "Expense Date" _ _ _ eq_refl E7),
              (@map_col_other "Expense Category" "Paid Through" _ _ _ eq_refl E6).
      exact G5.
    + exists (map (fillna (Str "")) v6). split; [|now apply fillna_filled].
      rewrite (@map_col_other "Paid Through" "Income Amount" _ _ _ eq_refl E9),
              (@map_col_other "Paid Through" "Expense Amount" _ _ _ eq_refl E8),
              (@map_col_other "Paid Through" "Expense Date" _ _ _ eq_refl E7).
      exact G6.
  - intros n [<-|[<-|[]]].
    + exists (map numeric_cell v8). split.
      * rewrite (@map_col_other "Expense Amount" "Income Amount" _ _ _ eq_refl E9).
        exact G8.
      * apply Forall_forall. intros c Hc. apply in_map_iff in Hc as (x & <- & _).
        unfold numeric_cell, is_number. destruct (to_numeric x); eauto.
    + exists (map numeric_cell v9). split; [exact G9|].
      apply Forall_forall. intros c Hc. apply in_map_iff in Hc as (x & <- & _).
      unfold numeric_cell, is_number. destruct (to_numeric x); eauto.
  - exists (map datetime_cell v7). split.
    + rewrite (@map_col_other "Expense Date" "Income Amount" _ _ _ eq_refl E9),
              (@map_col_other "Expense Date" "Expense Amount" _ _ _ eq_refl E8).
      exact G7.
    + apply Forall_forall. intros c Hc. apply in_map_iff in Hc as (x & <- & _).
      unfold datetime_cell, is_date_or_missing. destruct (to_datetime x); eauto.
Qed.

Lemma converted_frame_is_normalised_witness :
  exists t',
    @convert pandas_keep with_merchant = Converted t' /\
    has_col "Total" t' = false /\
    exists vals, get_col "Merchant Name" t' = Some vals /\ Forall filled vals.
Proof.
  eexists. split; [reflexivity|].
  destruct (@converted_frame_is_normalised pandas_keep with_merchant _ eq_refl)
    as (_ & Ht & Hm & _).
  split; [exact Ht|]. apply Hm. now left.
Defined.

Lemma refresh_fresh (rows : list row) :
  vars (refresh_filters fresh_filters rows) = fresh_selection /\
  adv (refresh_filters fresh_filters rows) = no_ranges.
Proof. split; reflexivity. Qed.

Section FreshLoad.
Context {P : Pandas}.

Lemma query_fresh (f : filters_t) (rows : list row) :
  vars f = fresh_selection -> adv f = no_ranges ->
  query f rows = Some (dropna_date rows).
Proof. intros Hv Ha. unfold query. rewrite Hv, Ha. reflexivity. Qed.

Lemma analyze_fresh (st : app) (rows : list row) :
  df st = Some (Table rows) ->
  vars (filters st) = fresh_selection -> adv (filters st) = no_ranges ->
  analyze st
  = Some (match dropna_date rows with
          | [] => Returns st [InfoNoRecords]
          | d => Returns (set_views (sort_values_desc (map mk_bal d)) st) []
          end).
Proof.
  intros Hdf Hv Ha. unfold analyze, analyze_table.
  rewrite Hdf, (query_fresh _ rows Hv Ha).
  now destruct (dropna_date rows).
Qed.

Lemma create_filter_widgets_fresh (st : app) (rows : list row) :
  df st = Some (Table rows) ->
  exists f,
    create_filter_widgets st = Some (set_filters f st) /\
    vars f = fresh_selection /\ adv f = no_ranges.
Proof.
  intros Hdf. unfold create_filter_widgets, update_combos.
  cbn [set_filters df updating_combos]. rewrite Hdf.
  destruct (updating_combos st).
  - exists fresh_filters. repeat split.
  - exists (refresh_filters fresh_filters rows). repeat split.
Qed.

End FreshLoad.

(** X15.  A load whose conversions complete on a frame with the ledger
    columns always succeeds (the analysis it ends with cannot raise): the
    typed rows are in the store, edit mode is off, the path and the status
    name the file, and the filters are fresh.  If some row has a date, all
    dated rows are shown, each once; if none has, "No records found." is
    shown and the filtered frame and the raw data tree are still those of
    the file loaded before. *)
Theorem loaded_file_is_shown_in_full {P : Pandas}
        (p : string) (t t' : raw_frame) (rows : list row) (st : app) :
  convert t = Converted t' ->
  has_col "Report Name" t' = true ->
  to_rows t' = Some rows ->
  exists st' shown,
    load_file (Some p) (Delivered t) st = Some (Returns st' shown) /\
    df st' = Some (Table rows) /\
    edit_mode st' = false /\
    current_file_path st' = Some p /\
    status_label st' = StatusLoaded p /\
    vars (filters st') = fresh_selection /\
    adv (filters st') = no_ranges /\
    (dropna_date rows = [] ->
       shown = [InfoNoRecords] /\
       filtered_df st' = filtered_df st /\ tree st' = tree st) /\
    (dropna_date rows <> [] ->
       shown = [] /\
       exists d, filtered_df st' = Some d /\
                 Permutation (map mk_bal (dropna_date rows)) d).
Proof.
  intros Hc Hr Ht. unfold load_file. rewrite Hc, Hr, Ht. cbn [negb].
  set (st1 := set_df (Some (Table rows)) (begin_load p st)).
  destruct (@create_filter_widgets_fresh st1 rows eq_refl) as (f & -> & Hv & Ha).
  rewrite (@analyze_fresh _ (set_filters f st1) rows eq_refl Hv Ha).
  destruct (dropna_date rows) as [|r0 q] eqn:Ed.
  - eexists; eexists. split; [reflexivity|]. cbn.
    do 4 (split; [reflexivity|]). split; [exact Hv|]. split; [exact Ha|].
    split; [auto|]. intros Hne. now destruct Hne.
  - eexists; eexists. split; [reflexivity|]. cbn.
    do 4 (split; [reflexivity|]). split; [exact Hv|]. split; [exact Ha|].
    split; [discriminate|]. intros _. split; [reflexivity|].
    eexists. split; [reflexivity|]. apply sort_values_perm.
Qed.

Lemma loaded_file_is_shown_in_full_witness :
  exists st' d,
    @load_file pandas_keep (Some "june.csv") (Delivered with_merchant) after_query
    = Some (Returns st' []) /\
    edit_mode st' = false /\
    filtered_df st' = Some d /\ List.length d = 1%nat.
Proof.
  assert (Hne : dropna_date
                  [mkRow 0 (Some "R9") (Some (mkDate 2025 6 1)) 5 0
                         (Some "pens") "Office" "Unknown" "" 0] <> [])
    by discriminate.
  destruct (@loaded_file_is_shown_in_full pandas_keep "june.csv" with_merchant
              _ _ after_query eq_refl eq_refl eq_refl)
    as (st' & shown & H1 & _ & H2 & _ & _ & _ & _ & _ & H3).
  destruct (H3 Hne) as (-> & d & Hd & Hp).
  exists st', d. repeat split; auto.
  rewrite <- (Permutation_length Hp). reflexivity.
Defined.

Lemma analyze_table_cases {P : Pandas} (rows : list row) (st : app) :
  analyze_table rows st = Raises st [] \/
  analyze_table rows st = Returns st [InfoNoRecords] \/
  exists d, analyze_table rows st = Returns (set_views d st) [].
Proof.
  unfold analyze_table. destruct (query (filters st) rows) as [[|r q]|]; eauto.
Qed.

(** X16.  Every load for which a path is given, whatever its outcome
    (unreadable file, missing column, success), leaves edit mode off and
    records the path as the current file; the status then says "Load
    Failed" exactly when the error box was shown, and names the file
    otherwise.  Without a path (the file dialog was cancelled) nothing
    changes. *)
Theorem every_load_ends_edit_mode {P : Pandas}
        (p : string) (read : read_result) (st : app) (r : result) :
  load_file (Some p) read st = Some r ->
  load_file None read st = Some (Returns st []) /\
  edit_mode (state_of r) = false /\
  current_file_path (state_of r) = Some p /\
  ((In ErrorLoad (shown_of r) /\ status_label (state_of r) = StatusLoadFailed) \/
   (~ In ErrorLoad (shown_of r) /\ status_label (state_of r) = StatusLoaded p)).
Proof.
  intros H. split; [reflexivity|]. revert H. unfold load_file.
  assert (Hfail : forall st0 r0,
            edit_mode st0 = false -> current_file_path st0 = Some p ->
            Some (load_failed st0 []) = Some r0 ->
            edit_mode (state_of r0) = false /\
            current_file_path (state_of r0) = Some p /\
            ((In ErrorLoad (shown_of r0) /\
              status_label (state_of r0) = StatusLoadFailed) \/
             (~ In ErrorLoad (shown_of r0) /\
              status_label (state_of r0) = StatusLoaded p))).
  { intros st0 r0 He Hp E. inversion E; subst r0; simpl.
    split; [exact He|]. split; [exact Hp|].
    left. split; [now left | reflexivity]. }
  destruct read as [|t|t]; try (apply Hfail; reflexivity).
  destruct (convert t) as [t'|t']; [apply Hfail; reflexivity|].
  destruct (has_col "Report Name" t'); cbn [negb]; [|apply Hfail; reflexivity].
  destruct (to_rows t') as [rows|]; [|discriminate].
  set (st1 := set_df (Some (Table rows)) (begin_load p st)).
  destruct (@create_filter_widgets_fresh st1 rows eq_refl) as (f & -> & _ & _).
  unfold analyze. cbn [df set_filters set_df st1].
  fold st1. set (st2 := set_filters f st1).
  change (mkApp (Some (Table rows)) f (filtered_df st1) (labels st1)
                (sum_tree st1) (tree st1) (edit_mode st1) (updating_combos st1)
                (current_file_path st1) (status_label st1)) with st2.
  intros E. inversion E; subst r; clear E.
  destruct (analyze_table_cases rows st2) as [->|[->|(d & ->)]]; simpl.
  - repeat split. left. split; [now left | reflexivity].
  - repeat split. right. split; [|reflexivity]. intros [H|[]]. discriminate H.
  - repeat split. right. split; [|reflexivity]. intros [].
Qed.

Lemma every_load_ends_edit_mode_witness :
  exists r,
    @load_file pandas_keep (Some "june.csv") (Delivered no_merchant) loaded3
    = Some r /\
    edit_mode loaded3 = true /\
    edit_mode (state_of r) = false /\
    current_file_path (state_of r) = Some "june.csv"%string /\
    status_label (state_of r) = StatusLoadFailed.
Proof.
  eexists. split; [reflexivity|]. split; [reflexivity|].
  destruct (@every_load_ends_edit_mode pandas_keep "june.csv"
              (Delivered no_merchant) loaded3 _ eq_refl) as (_ & H1 & H2 & _).
  split; [exact H1|]. split; [exact H2 | reflexivity].
Defined.

(* ================================================================== *)
(** ** Charts and report: the figures drawn from the filtered frame *)

Section Partition.
Variable K : Type.
Variable eqb : K -> K -> bool.
Hypothesis eqb_spec : forall a b, eqb a b = true <-> a = b.
Variable key : brow -> K.
Variable f : brow -> Z.

Lemma sum_Z_at_key (ks : list K) (k0 : K) (v : Z) :
  NoDup ks -> In k0 ks ->
  sum_Z (map (fun k => if eqb k k0 then v else 0) ks) = v.
Proof.
  induction 1 as [|k ks Hnin Hnd IH]; intros Hin; [destruct Hin|].
  change (sum_Z (map ?g (k :: ks))) with (g k + sum_Z (map g ks)). cbv beta.
  destruct (eqb k k0) eqn:E.
  - apply eqb_spec in E. subst k0.
    rewrite sum_Z_zero; [lia|].
    intros k' Hk'. destruct (eqb k' k) eqn:E'; [|reflexivity].
    apply eqb_spec in E'. now subst k'.
  - destruct Hin as [->|Hin].
    + rewrite (proj2 (eqb_spec k0 k0) eq_refl) in E. discriminate.
    + rewrite IH by exact Hin. lia.
Qed.

(** A column summed group by group is the column summed. *)
Lemma sum_partition (ks : list K) (d : list brow) :
  NoDup ks -> (forall r, In r d -> In (key r) ks) ->
  sum_Z (map (fun k => sum_Z (map f (filter (fun r => eqb k (key r)) d))) ks)
  = sum_Z (map f d).
Proof.
  intros Hnd. induction d as [|r d IH]; intros Hin.
  - apply sum_Z_zero. reflexivity.
  - change (sum_Z (map f (r :: d))) with (f r + sum_Z (map f d)).
    rewrite <- IH by (intros x Hx; apply Hin; now right).
    rewrite <- (@sum_Z_at_key ks (key r) (f r) Hnd) at 1
      by (apply Hin; now left).
    rewrite <- sum_Z_plus. apply sum_Z_ext. intros k _.
    simpl filter. destruct (eqb k (key r)); reflexivity.
Qed.

End Partition.

Section Charts.
Context {D : Dtype} {R : Type} {C : Columns D R}.

(** The index of [df.groupby('Expense Category')]: the categories, sorted. *)
Definition categories (d : list R) : list string :=
  sort_by String.leb (unique String.eqb (map category d)).

Definition category_expense (d : list R) (c : string) : num :=
  group_sum (map expense (filter (fun r => (c =? category r)%string) d)).

(** [df.groupby('Expense Category')['Expense Amount'].sum()] *)
Definition grouped_expense (d : list R) : list (string * num) :=
  map (fun c => (c, category_expense d c)) (categories d).

(** [cat_exp = cat_exp[cat_exp > 0]] *)
Definition cat_exp (d : list R) : list (string * num) :=
  filter (fun p => gt_zero (snd p)) (grouped_expense d).

Lemma categories_NoDup (d : list R) : NoDup (categories d).
Proof. apply sort_by_NoDup, (@unique_NoDup _ _ String.eqb_eq). Qed.

Lemma categories_In (d : list R) (c : string) :
  In c (categories d) <-> exists r, In r d /\ category r = c.
Proof.
  unfold categories.
  rewrite sort_by_In, (@unique_In _ _ String.eqb_eq), in_map_iff.
  split; intros (r & H1 & H2); exists r; auto.
Qed.

Lemma cat_exp_NoDup (d : list R) : NoDup (map fst (cat_exp d)).
Proof.
  unfold cat_exp.
  assert (Hg : NoDup (map fst (grouped_expense d))).
  { unfold grouped_expense. rewrite map_map. cbn [fst]. rewrite map_id.
    apply categories_NoDup. }
  revert Hg. generalize (grouped_expense d). intros g.
  induction g as [|p g IH]; intros Hg; [constructor|].
  cbn [map] in Hg. inversion Hg as [|x y Hnin Hg']; subst.
  cbn [filter]. destruct (gt_zero (snd p)); [|now apply IH].
  cbn [map]. constructor; [|now apply IH].
  intros Hin. apply Hnin. apply in_map_iff in Hin as (q & Eq & Hq).
  apply filter_In in Hq as [Hq _]. rewrite <- Eq. now apply in_map.
Qed.

Lemma cat_exp_In (d : list R) (c : string) (v : num) :
  In (c, v) (cat_exp d) <->
  (exists r, In r d /\ category r = c) /\
  v = category_expense d c /\ gt_zero v = true.
Proof.
  unfold cat_exp, grouped_expense. rewrite filter_In, in_map_iff. cbn [snd].
  split.
  - intros [(k & E & Hk) Hpos]. injection E as <- <-.
    split; [now apply categories_In|]. split; [reflexivity | exact Hpos].
  - intros (Hc & -> & Hpos). split; [|exact Hpos].
    exists c. split; [reflexivity | now apply categories_In].
Qed.

End Charts.

(** What [show_charts] draws: the slices of the pie (none: the text
    "No Expenses") and the two bars. *)
Record charts := mkCharts {
  pie : list (string * Z);
  bar_income : Z;
  bar_expense : Z
}.

(** [ExpenseAnalyzer.show_charts]; [None]: the function returns at its
    first line. *)
Definition show_charts (st : app) : option charts :=
  match filtered_df st with
  | None | Some [] => None
  | Some d => Some (mkCharts (cat_exp d) (total_income d) (total_expense d))
  end.

Lemma grouped_expense_total (d : list brow) :
  sum_Z (map snd (grouped_expense d)) = sum_Z (map expense d).
Proof.
  unfold grouped_expense, category_expense. rewrite map_map.
  cbn [snd].
  apply (@sum_partition string String.eqb String.eqb_eq
                        (@category int64 brow _) (@expense int64 brow _)).
  - apply categories_NoDup.
  - intros r Hr. apply categories_In. now exists r.
Qed.

Lemma positive_part (l : list (string * Z)) :
  sum_Z (map snd l) <= sum_Z (map snd (filter (fun p => 0 <? snd p) l)) /\
  ((forall p, In p l -> 0 <= snd p) ->
   sum_Z (map snd (filter (fun p => 0 <? snd p) l)) = sum_Z (map snd l)).
Proof.
  induction l as [|p l [IH1 IH2]]; [split; [reflexivity | auto]|].
  cbn [filter]. destruct (0 <? snd p) eqn:E.
  - change (sum_Z (map snd (p :: ?x))) with (snd p + sum_Z (map snd x)).
    split; [lia|]. intros H. rewrite IH2; [reflexivity|].
    intros q Hq. apply H. now right.
  - apply Z.ltb_ge in E.
    change (sum_Z (map snd (p :: l))) with (snd p + sum_Z (map snd l)).
    split; [lia|]. intros H. specialize (H p (or_introl eq_refl)) as Hp.
    rewrite IH2; [lia|]. intros q Hq. apply H. now right.
Qed.

Lemma sum_Z_nonneg (A : Type) (f : A -> Z) (l : list A) :
  (forall a, In a l -> 0 <= f a) -> 0 <= sum_Z (map f l).
Proof.
  induction l as [|a l IH]; intros H; [reflexivity|].
  change (sum_Z (map f (a :: l))) with (f a + sum_Z (map f l)).
  specialize (H a (or_introl eq_refl)) as Ha.
  assert (0 <= sum_Z (map f l)) by (apply IH; intros x Hx; apply H; now right).
  lia.
Qed.

Lemma slices_and_bar (shown : list brow) :
  total_expense shown <= sum_Z (map snd (cat_exp shown)) /\
  ((forall r, In r shown -> 0 <= expense_amount (base r)) ->
   sum_Z (map snd (cat_exp shown)) = total_expense shown).
Proof.
  change (total_expense shown) with (sum_Z (map expense shown)).
  rewrite <- grouped_expense_total.
  pose proof (positive_part (@grouped_expense int64 brow _ shown)) as [H1 H2].
  split; [exact H1|]. intros Hnn. apply H2.
  intros p Hp. unfold grouped_expense in Hp.
  apply in_map_iff in Hp as (k & <- & _). cbn [snd].
  unfold category_expense. change (@group_sum int64) with sum_Z.
  apply sum_Z_nonneg. intros r Hr. apply filter_In in Hr as [Hr _].
  apply (Hnn r Hr).
Qed.

(** X17.  Whatever the dtype of the amounts, the pie computed from a frame
    has exactly one slice for each category of the frame whose expenses sum
    to more than zero, and no other slice: a label and a value make a slice
    if and only if the label is the category of some row, the value is the
    sum of the expenses of the rows of that category, and the value is
    greater than zero; the labels are distinct.  [show_charts] draws that
    pie of the shown rows, with the total income and the total expense as
    bars, and draws nothing when there is no filtered frame or it is empty.
    In a store of whole-number amounts the slices add up to at least the
    Expense bar, and to exactly the Expense bar when no shown row has a
    negative expense. *)
Theorem pie_accounts_for_the_expenses
        (D : Dtype) (R : Type) (C : Columns D R) (d : list R) :
  NoDup (map fst (cat_exp d)) /\
  (forall c v,
     In (c, v) (cat_exp d) <->
     (exists r, In r d /\ category r = c) /\
     v = group_sum (map expense (filter (fun r => (c =? category r)%string) d)) /\
     gt_zero v = true) /\
  (forall (st : app) (ch : charts),
     show_charts st = Some ch ->
     exists shown,
       filtered_df st = Some shown /\ shown <> [] /\
       pie ch = cat_exp shown /\
       bar_income ch = sum_Z (map income shown) /\
       bar_expense ch = sum_Z (map expense shown) /\
       bar_expense ch <= sum_Z (map snd (pie ch)) /\
       ((forall r, In r shown -> 0 <= expense_amount (base r)) ->
        sum_Z (map snd (pie ch)) = bar_expense ch)) /\
  (forall st : app,
     filtered_df st = None \/ filtered_df st = Some [] -> show_charts st = None).
Proof.
  split; [apply cat_exp_NoDup|]. split; [intros c v; apply cat_exp_In|]. split.
  - intros st ch. unfold show_charts.
    destruct (filtered_df st) as [[|r0 d0]|]; try discriminate.
    intros H. injection H as <-.
    exists (r0 :: d0). split; [reflexivity|]. split; [discriminate|].
    cbn [pie bar_income bar_expense].
    split; [reflexivity|]. split; [reflexivity|]. split; [reflexivity|].
    exact (slices_and_bar (r0 :: d0)).
  - intros st [H|H]; unfold show_charts; now rewrite H.
Qed.

Lemma pie_accounts_for_the_expenses_witness :
  exists ch,
    show_charts (set_views food_travel (app_with [] fresh_filters)) = Some ch /\
    pie ch = [("Food"%string, 50); ("Travel"%string, 50)] /\
    (In ("Food"%string, 50) (cat_exp food_travel) <->
     (exists r, In r food_travel /\ category r = "Food"%string) /\
     50 = sum_Z (map expense
                     (filter (fun r => ("Food" =? category r)%string) food_travel)) /\
     (0 <? 50) = true) /\
    sum_Z (map snd (pie ch)) = bar_expense ch.
Proof.
  eexists. split; [reflexivity|]. split; [reflexivity|].
  destruct (pie_accounts_for_the_expenses brow_columns food_travel)
    as (_ & Hin & Hshow & _).
  split; [exact (Hin "Food"%string 50)|].
  destruct (Hshow (set_views food_travel (app_with [] fresh_filters)) _ eq_refl)
    as (shown & Hd & _ & _ & _ & _ & _ & Hsum).
  apply Hsum. injection Hd as <-.
  intros r Hr. unfold food_travel in Hr. apply in_map_iff in Hr as (x & <- & Hx).
  simpl in Hx. repeat (destruct Hx as [<-|Hx]; [simpl; lia|]). destruct Hx.
Defined.

(** The order of [Series.sort_values(ascending=False)]: larger amounts
    first. *)
Definition amount_desc (a b : string * Z) : Prop := snd b <= snd a.

(** [Series.sort_values(ascending=False)] with the default sort kind: the
    result is a rearrangement in descending order; the order of equal
    amounts is not part of the contract. *)
Class Series := {
  sort_amounts : list (string * Z) -> list (string * Z);
  sort_amounts_perm : forall l, Permutation l (sort_amounts l);
  sort_amounts_sorted : forall l, StronglySorted amount_desc (sort_amounts l)
}.

Definition date_min (a b : date) : date := if date_leb a b then a else b.

Definition date_max (a b : date) : date := if date_leb a b then b else a.

Definition dates_of (d : list brow) : list date :=
  somes (map (fun r => expense_date (base r)) d).

(** [min_date] and [max_date] of the report header; [None] is the period
    text "N/A" (no date in the frame). *)
Definition period (d : list brow) : option (date * date) :=
  match dates_of d with
  | [] => None
  | t :: ts => Some (fold_left date_min ts t, fold_left date_max ts t)
  end.

(** The figures printed by [generate_report]. *)
Record report := mkReport {
  rp_for : string;
  rp_path : string;
  rp_period : option (date * date);
  rp_inc : Z;
  rp_exp : Z;
  rp_bal : Z;
  rp_pie : list (string * Z);
  rp_top : list (string * Z)     (* "Top Expenses by Category" *)
}.

(** [ExpenseAnalyzer.generate_report]; [report_for] is the answer of the
    name dialog ([None]: cancelled) and [path] the answer of the save dialog
    (empty: cancelled).  [None]: the function returns before it writes. *)
Definition generate_report {S : Series} (report_for : option string)
           (path : string) (st : app) : option report :=
  match filtered_df st with
  | None | Some [] => None
  | Some d =>
      match report_for with
      | None | Some EmptyString => None
      | Some who =>
          match path with
          | EmptyString => None
          | _ =>
              let t_inc := total_income d in
              let t_exp := total_expense d in
              Some (mkReport who path (period d) t_inc t_exp (t_inc - t_exp)
                             (cat_exp d)
                             (firstn 10 (sort_amounts (cat_exp d))))
          end
      end
  end.

Definition amount_leb (a b : string * Z) : bool := snd b <=? snd a.

Lemma sort_by_amount_sorted (l : list (string * Z)) :
  StronglySorted amount_desc (sort_by amount_leb l).
Proof.
  eapply StronglySorted_impl; [|apply sort_by_sorted].
  - intros a b H. unfold amount_leb in H. apply Z.leb_le in H. exact H.
  - intros a b H. unfold amount_leb in *. apply Z.leb_gt in H.
    apply Z.leb_le. lia.
  - intros a b c H1 H2. unfold amount_leb in *.
    apply Z.leb_le in H1, H2. apply Z.leb_le. lia.
Qed.

#[local] Instance series_insertion : Series := {|
  sort_amounts := sort_by amount_leb;
  sort_amounts_perm := sort_by_perm amount_leb;
  sort_amounts_sorted := sort_by_amount_sorted
|}.

Lemma sorted_front_dominates (l : list (string * Z)) (n : nat)
      (a b : string * Z) :
  StronglySorted amount_desc l ->
  In a (firstn n l) -> In b (skipn n l) -> snd b <= snd a.
Proof.
  intros Hs. revert n. induction Hs as [|x l Hs IH Hx]; intros n Ha Hb.
  - rewrite firstn_nil in Ha. destruct Ha.
  - destruct n as [|n]; [destruct Ha|]. cbn [firstn skipn] in *.
    destruct Ha as [<-|Ha].
    + rewrite Forall_forall in Hx. apply (Hx b).
      rewrite <- (firstn_skipn n l). apply in_or_app. now right.
    + eapply IH; eassumption.
Qed.

Lemma firstn_sorted (l : list (string * Z)) (n : nat) :
  StronglySorted amount_desc l -> StronglySorted amount_desc (firstn n l).
Proof.
  intros Hs. revert n. induction Hs as [|x l Hs IH Hx]; intros n.
  - rewrite firstn_nil. constructor.
  - destruct n as [|n]; [constructor|]. cbn [firstn]. constructor; [apply IH|].
    rewrite Forall_forall in *. intros y Hy. apply Hx.
    rewrite <- (firstn_skipn n l). apply in_or_app. now left.
Qed.

Lemma generate_report_figures {S : Series}
      (report_for : option string) (path : string) (st : app) (rp : report) :
  generate_report report_for path st = Some rp ->
  exists d,
    filtered_df st = Some d /\ d <> [] /\
    rp_pie rp = cat_exp d /\
    rp_top rp = firstn 10 (sort_amounts (cat_exp d)) /\
    rp_period rp = period d /\
    rp_inc rp = total_income d /\ rp_exp rp = total_expense d /\
    rp_bal rp = rp_inc rp - rp_exp rp.
Proof.
  unfold generate_report.
  destruct (filtered_df st) as [[|r0 d0]|]; try discriminate.
  destruct report_for as [[|c who]|]; try discriminate.
  destruct path as [|c' path]; try discriminate.
  intros H. injection H as <-. exists (r0 :: d0).
  split; [reflexivity|]. split; [discriminate|]. repeat split.
Qed.

(** X18.  The table "Top Expenses by Category" of the report holds at most
    ten lines, in descending order of amount; each line is a slice of the
    pie (a category of the shown rows with a positive expense sum), no
    category twice; every slice left out is no larger than any line of the
    table; and when the pie has at most ten slices the table holds them
    all. *)
Theorem report_lists_the_largest_categories {S : Series}
        (report_for : option string) (path : string) (st : app) (rp : report) :
  generate_report report_for path st = Some rp ->
  (List.length (rp_top rp) <= 10)%nat /\
  StronglySorted amount_desc (rp_top rp) /\
  NoDup (map fst (rp_top rp)) /\
  incl (rp_top rp) (rp_pie rp) /\
  (forall p q, In p (rp_pie rp) -> ~ In p (rp_top rp) -> In q (rp_top rp) ->
               snd p <= snd q) /\
  ((List.length (rp_pie rp) <= 10)%nat -> Permutation (rp_pie rp) (rp_top rp)) /\
  rp_bal rp = rp_inc rp - rp_exp rp.
Proof.
  intros H.
  destruct (generate_report_figures _ _ _ H)
    as (d & _ & _ & -> & -> & _ & _ & _ & Hbal).
  set (l := cat_exp d).
  pose proof (sort_amounts_perm l) as Hperm.
  pose proof (sort_amounts_sorted l) as Hsorted.
  assert (Hnd : NoDup (map fst (sort_amounts l))).
  { apply (Permutation_NoDup (Permutation_map fst Hperm)).
    exact (cat_exp_NoDup d). }
  split; [apply firstn_le_length|].
  split; [now apply firstn_sorted|].
  split.
  { rewrite <- (firstn_skipn 10 (sort_amounts l)), map_app in Hnd.
    now apply NoDup_app_remove_r in Hnd. }
  split.
  { intros p Hp. apply (Permutation_in _ (Permutation_sym Hperm)).
    rewrite <- (firstn_skipn 10 (sort_amounts l)). apply in_or_app. now left. }
  split.
  { intros p q Hp Hnot Hq.
    apply (Permutation_in _ Hperm) in Hp.
    rewrite <- (firstn_skipn 10 (sort_amounts l)) in Hp.
    apply in_app_or in Hp as [Hp|Hp]; [now destruct Hnot|].
    exact (@sorted_front_dominates _ 10 _ _ Hsorted Hq Hp). }
  split; [|exact Hbal].
  intros Hlen. rewrite firstn_all2; [exact Hperm|].
  now rewrite <- (Permutation_length Hperm).
Qed.

(** A frame with twelve categories of expenses 1 to 12. *)
Definition twelve : list brow :=
  map (fun n => mk_bal (ledger_row n (Some (mkDate 2024 1 (n + 1))) (n + 1) 0
                                   "x" (Text.fmt02 n) "Shop"))
      [0; 1; 2; 3; 4; 5; 6; 7; 8; 9; 10; 11].

Lemma report_lists_the_largest_categories_witness :
  exists rp,
    generate_report (Some "Asha"%string) "report.pdf"
                    (set_views twelve (app_with [] fresh_filters)) = Some rp /\
    map snd (rp_top rp) = [12; 11; 10; 9; 8; 7; 6; 5; 4; 3] /\
    (List.length (rp_top rp) <= 10)%nat /\
    incl (rp_top rp) (rp_pie rp).
Proof.
  eexists. split; [reflexivity|]. split; [reflexivity|].
  destruct (@report_lists_the_largest_categories series_insertion
              (Some "Asha"%string) "report.pdf"
              (set_views twelve (app_with [] fresh_filters)) _ eq_refl)
    as (H1 & _ & _ & H2 & _).
  split; [exact H1 | exact H2].
Defined.

Lemma fold_date_min (ts : list date) (t : date) :
  In (fold_left date_min ts t) (t :: ts) /\
  forall x, In x (t :: ts) -> date_leb (fold_left date_min ts t) x = true.
Proof.
  revert t. induction ts as [|a ts IH]; intros t.
  - split; [now left|]. intros x [<-|[]]. apply date_leb_refl.
  - cbn [fold_left]. destruct (IH (date_min t a)) as [Hin Hle]. split.
    + destruct Hin as [Hin|Hin]; [|right; now right].
      rewrite <- Hin. unfold date_min. destruct (date_leb t a); [now left|].
      right; now left.
    + assert (Hm : date_leb (date_min t a) t = true /\
                   date_leb (date_min t a) a = true).
      { unfold date_min. destruct (date_leb t a) eqn:E.
        - split; [apply date_leb_refl | exact E].
        - split; [now apply date_leb_total | apply date_leb_refl]. }
      pose proof (Hle (date_min t a) (or_introl eq_refl)) as H0.
      intros x [<-|[<-|Hx]].
      * eapply date_leb_trans; [exact H0 | apply Hm].
      * eapply date_leb_trans; [exact H0 | apply Hm].
      * apply Hle. now right.
Qed.

Lemma fold_date_max (ts : list date) (t : date) :
  In (fold_left date_max ts t) (t :: ts) /\
  forall x, In x (t :: ts) -> date_leb x (fold_left date_max ts t) = true.
Proof.
  revert t. induction ts as [|a ts IH]; intros t.
  - split; [now left|]. intros x [<-|[]]. apply date_leb_refl.
  - cbn [fold_left]. destruct (IH (date_max t a)) as [Hin Hle]. split.
    + destruct Hin as [Hin|Hin]; [|right; now right].
      rewrite <- Hin. unfold date_max. destruct (date_leb t a); [|now left].
      right; now left.
    + assert (Hm : date_leb t (date_max t a) = true /\
                   date_leb a (date_max t a) = true).
      { unfold date_max. destruct (date_leb t a) eqn:E.
        - split; [exact E | apply date_leb_refl].
        - split; [apply date_leb_refl | now apply date_leb_total]. }
      pose proof (Hle (date_max t a) (or_introl eq_refl)) as H0.
      intros x [<-|[<-|Hx]].
      * eapply date_leb_trans; [apply Hm | exact H0].
      * eapply date_leb_trans; [apply Hm | exact H0].
      * apply Hle. now right.
Qed.

Lemma dates_of_In (d : list brow) (t : date) :
  In t (dates_of d) <-> exists r, In r d /\ expense_date (base r) = Some t.
Proof.
  unfold dates_of. rewrite somes_In, in_map_iff.
  split; intros (r & H1 & H2); exists r; auto.
Qed.

(** X19.  The period printed in the header of the report brackets the
    shown rows: its first date is the earliest and its second the latest
    date among them, both dates of shown rows; the period is "N/A" only when
    no shown row has a date. *)
Theorem report_period_brackets_the_dates {S : Series}
        (report_for : option string) (path : string) (st : app) (rp : report) :
  generate_report report_for path st = Some rp ->
  exists d,
    filtered_df st = Some d /\
    match rp_period rp with
    | None => forall r, In r d -> expense_date (base r) = None
    | Some (lo, hi) =>
        (exists r, In r d /\ expense_date (base r) = Some lo) /\
        (exists r, In r d /\ expense_date (base r) = Some hi) /\
        forall r t, In r d -> expense_date (base r) = Some t ->
                    date_leb lo t = true /\ date_leb t hi = true
    end.
Proof.
  intros H.
  destruct (generate_report_figures _ _ _ H)
    as (d & Hd & _ & _ & _ & -> & _).
  exists d. split; [exact Hd|]. unfold period.
  destruct (dates_of d) as [|t ts] eqn:Et.
  - intros r Hr. destruct (expense_date (base r)) as [x|] eqn:Ex; [|reflexivity].
    assert (Hin : In x (dates_of d)) by (apply dates_of_In; now exists r).
    rewrite Et in Hin. destruct Hin.
  - destruct (fold_date_min ts t) as [Hmin Hle].
    destruct (fold_date_max ts t) as [Hmax Hge].
    rewrite <- Et in Hmin, Hmax.
    split; [now apply dates_of_In|]. split; [now apply dates_of_In|].
    intros r x Hr Hx.
    assert (Hin : In x (t :: ts)).
    { rewrite <- Et. apply dates_of_In. now exists r. }
    split; [now apply Hle | now apply Hge].
Qed.

Lemma report_period_brackets_the_dates_witness :
  exists rp,
    generate_report (Some "Asha"%string) "report.pdf"
                    (set_views twelve (app_with [] fresh_filters)) = Some rp /\
    rp_period rp = Some (mkDate 2024 1 1, mkDate 2024 1 12) /\
    forall r t, In r twelve -> expense_date (base r) = Some t ->
                date_leb (mkDate 2024 1 1) t = true /\
                date_leb t (mkDate 2024 1 12) = true.
Proof.
  eexists. split; [reflexivity|]. split; [reflexivity|].
  destruct (@report_period_brackets_the_dates series_insertion
              (Some "Asha"%string) "report.pdf"
              (set_views twelve (app_with [] fresh_filters)) _ eq_refl)
    as (d & Hd & Hm).
  injection Hd as <-. exact (proj2 (proj2 Hm)).
Defined.

(* ================================================================== *)
(** ** The users file: [security_manager.SecurityManager] *)

(** A JSON object of texts, as [users.json] holds it: the keys in insertion
    order. *)
Definition dict : Type := list (string * string).

(** [d.get(k)] *)
Definition dict_get (k : string) (d : dict) : option string :=
  option_map snd (find (fun p => (fst p =? k)%string) d).

(** [d[k] = v] *)
Fixpoint dict_set (k v : string) (d : dict) : dict :=
  match d with
  | [] => [(k, v)]
  | p :: rest => if (fst p =? k)%string then (k, v) :: rest
                 else p :: dict_set k v rest
  end.

(** The libraries under [SecurityManager], for one key file: [json.dumps]
    and [json.loads] on objects of texts, [Fernet.encrypt] and
    [Fernet.decrypt] followed by [.decode()], and [bytes.decode] on the
    content of a file.  [None] is an exception. *)
Class Vault := {
  text : Type;
  bytes : Type;
  dumps : dict -> text;
  loads : text -> option dict;
  encrypt_data : text -> bytes;
  decrypt_data : bytes -> option text;
  decode : bytes -> option text;
  loads_dumps : forall d, loads (dumps d) = Some d;
  decrypt_encrypt : forall s, decrypt_data (encrypt_data s) = Some s
}.

Section SecurityManager.
Context {V : Vault}.

(** [SecurityManager.save_json_encrypted]: the content written. *)
Definition save_json_encrypted (data : dict) : bytes :=
  encrypt_data (dumps data).

(** [SecurityManager.load_json_encrypted]; [file] is the content of the
    file, [None] when it does not exist. *)
Definition load_json_encrypted (file : option bytes) (default : option dict)
  : dict :=
  let fallback := match default with Some d => d | None => [] end in
  match file with
  | None => fallback
  | Some content =>
      match (json <- decrypt_data content ;; loads json) with
      | Some d => d
      | None =>
          match (plain <- decode content ;; loads plain) with
          | Some d => d
          | None => fallback
          end
      end
  end.

End SecurityManager.

Lemma dict_get_set (k k' v : string) (d : dict) :
  dict_get k' (dict_set k v d)
  = if (k =? k')%string then Some v else dict_get k' d.
Proof.
  unfold dict_get. induction d as [|p d IH]; simpl.
  - now destruct (k =? k')%string.
  - destruct (fst p =? k)%string eqn:E1; simpl.
    + apply String.eqb_eq in E1. rewrite E1.
      now destruct (k =? k')%string.
    + destruct (fst p =? k')%string eqn:E2; simpl.
      * apply String.eqb_eq in E2. subst k'.
        rewrite String.eqb_sym, E1. reflexivity.
      * exact IH.
Qed.

(** X20.  What [save_json_encrypted] writes, [load_json_encrypted] reads
    back: the object saved, whatever the default.  A missing file gives the
    default (the empty object when there is none); a file that does not
    decrypt but holds plain JSON gives that object (the legacy format); a
    file that is neither gives the default. *)
Theorem encrypted_json_round_trip {V : Vault} (data : dict)
        (default : option dict) :
  load_json_encrypted (Some (save_json_encrypted data)) default = data /\
  load_json_encrypted None default
  = match default with Some d => d | None => [] end /\
  (forall content plain d,
     decrypt_data content = None -> decode content = Some plain ->
     loads plain = Some d ->
     load_json_encrypted (Some content) default = d) /\
  (forall content,
     decrypt_data content = None ->
     (forall plain, decode content = Some plain -> loads plain = None) ->
     load_json_encrypted (Some content) default
     = match default with Some d => d | None => [] end).
Proof.
  unfold load_json_encrypted, save_json_encrypted.
  split; [|split; [|split]].
  - now rewrite decrypt_encrypt, loads_dumps.
  - reflexivity.
  - intros content plain d -> -> ->. reflexivity.
  - intros content -> Hbad. destruct (decode content) as [plain|]; [|reflexivity].
    now rewrite (Hbad plain eq_refl).
Qed.

(** A symbolic vault: a text is a JSON object or something else, a file
    content is a token of the key or clear text. *)
Inductive json_text :=
| Object (d : dict)
| Garbled (s : string).

Inductive sealed :=
| Token (t : json_text)
| Clear (t : json_text).

#[local] Instance vault_symbolic : Vault := {|
  text := json_text;
  bytes := sealed;
  dumps := Object;
  loads := fun t => match t with Object d => Some d | Garbled _ => None end;
  encrypt_data := Token;
  decrypt_data := fun b => match b with Token t => Some t | Clear _ => None end;
  decode := fun b => match b with
                     | Clear t => Some t
                     | Token _ => Some (Garbled "gAAAAA")
                     end;
  loads_dumps := fun d => eq_refl;
  decrypt_encrypt := fun s => eq_refl
|}.

(** A users file written before encryption was introduced. *)
Lemma encrypted_json_round_trip_witness :
  load_json_encrypted (Some (Clear (Object [("admin", "s3cret")]))) None
  = [("admin"%string, "s3cret"%string)].
Proof.
  exact (proj1 (proj2 (proj2 (@encrypted_json_round_trip vault_symbolic
                                [] None)))
               (Clear (Object [("admin", "s3cret")])) _ _
               eq_refl eq_refl eq_refl).
Defined.

(* ================================================================== *)
(** ** Admin login, edit mode and the password *)

Module Access.

(** Message boxes of the login and settings code. *)
Inductive notice :=
| InvalidCredentials       (* "Invalid Credentials" *)
| EditModeDisabled         (* "Edit Mode Disabled." *)
| EditModeEnabled          (* "Double-click any row ... to edit." *)
| IncorrectOldPassword     (* "Incorrect old password." *)
| EmptyNewPassword         (* "New password cannot be empty." *)
| PasswordMismatch         (* "New passwords do not match." *)
| PasswordUpdated          (* "Password updated successfully." *)
| SaveUsersFailed.         (* "Failed to save users: ..." *)

(** [success_callback] of [show_login_dialog]: [None] (the edit button) or
    [self._open_settings_window] (the settings button). *)
Inductive callback := ToggleEdit | OpenSettings.

Section Desk.
Context {V : Vault}.

(** The part of the application state that the login code reads and
    writes, with the content of [users.json]. *)
Record desk := mkDesk {
  users_file : option bytes;
  edit_mode : bool;
  is_admin_authenticated : bool;
  settings_window : bool
}.

(** The state after [__init__]. *)
Definition initial (file : option bytes) : desk := mkDesk file false false false.

Definition default_users : dict := [("admin"%string, "admin123"%string)].

(** [ExpenseAnalyzer.load_users] *)
Definition load_users (s : desk) : dict :=
  load_json_encrypted (users_file s) (Some default_users).

(** [ExpenseAnalyzer.save_users]; [disk_ok] tells whether the file can be
    written.  The second component is the value returned. *)
Definition save_users (disk_ok : bool) (users : dict) (s : desk)
  : desk * bool * list notice :=
  if disk_ok
  then (mkDesk (Some (save_json_encrypted users)) (edit_mode s)
               (is_admin_authenticated s) (settings_window s), true, [])
  else (s, false, [SaveUsersFailed]).

(** [ExpenseAnalyzer.enable_edit_mode] *)
Definition enable_edit_mode (s : desk) : desk * list notice :=
  (mkDesk (users_file s) true (is_admin_authenticated s) (settings_window s),
   [EditModeEnabled]).

(** [ExpenseAnalyzer.toggle_edit_mode] *)
Definition toggle_edit_mode (s : desk) : desk * list notice :=
  if edit_mode s
  then (mkDesk (users_file s) false (is_admin_authenticated s)
               (settings_window s), [EditModeDisabled])
  else enable_edit_mode s.

Definition run_callback (cb : callback) (s : desk) : desk * list notice :=
  match cb with
  | ToggleEdit => toggle_edit_mode s
  | OpenSettings =>
      (mkDesk (users_file s) (edit_mode s) (is_admin_authenticated s) true, [])
  end.

(** [username in users and users[username] == password], on the texts of
    the two entries. *)
Definition accepted (s : desk) (c : string * string) : bool :=
  match dict_get (Text.strip (fst c)) (load_users s) with
  | Some p => (p =? Text.strip (snd c))%string
  | None => false
  end.

(** The closure [validate] of [show_login_dialog].  The last component
    tells whether the login window was destroyed. *)
Definition validate (cb : callback) (c : string * string) (s : desk)
  : desk * list notice * bool :=
  if accepted s c
  then let (s', shown) :=
         run_callback cb (mkDesk (users_file s) (edit_mode s) true
                                 (settings_window s)) in
       (s', shown, true)
  else (s, [InvalidCredentials], false).

(** [ExpenseAnalyzer.show_login_dialog].  When the admin is not
    authenticated the login window is opened and nothing else happens until
    its [Login] button is pressed. *)
Definition show_login_dialog (cb : callback) (s : desk) : desk * list notice :=
  if is_admin_authenticated s then run_callback cb s else (s, []).

(** [ExpenseAnalyzer.open_settings] *)
Definition open_settings (s : desk) : desk * list notice :=
  show_login_dialog OpenSettings s.

(** [users.get("admin", "admin123")] *)
Definition current_admin_pass (s : desk) : string :=
  match dict_get "admin" (load_users s) with
  | Some p => p
  | None => "admin123"
  end.

(** The closure [save_password] of the settings window, on the texts of
    the three entries. *)
Definition save_password (disk_ok : bool) (old new confirm : string) (s : desk)
  : desk * list notice :=
  let old_pass := Text.strip old in
  let new_pass := Text.strip new in
  let confirm_pass := Text.strip confirm in
  let users := load_users s in
  if negb (old_pass =? current_admin_pass s)%string
  then (s, [IncorrectOldPassword])
  else if (new_pass =? "")%string then (s, [EmptyNewPassword])
  else if negb (new_pass =? confirm_pass)%string then (s, [PasswordMismatch])
  else match save_users disk_ok (dict_set "admin" new_pass users) s with
       | (s', true, shown) => (s', shown ++ [PasswordUpdated])
       | (s', false, shown) => (s', shown)
       end.

(** What the user does.  The login window is not modal: [PressLogin cb c]
    is its [Login] button, in a window opened for [cb], with the texts [c]
    in its two entries, and may come at any later time (the windows that are
    open are not tracked, so that more sequences are allowed here than the
    program has).  The password is changed from the settings window;
    [load_file] resets edit mode at its start. *)
Inductive event :=
| PressEdit
| PressSettings
| PressLogin (cb : callback) (c : string * string)
| CloseSettings
| ChangePassword (disk_ok : bool) (old new confirm : string)
| LoadFile.

Definition step (e : event) (s : desk) : desk :=
  match e with
  | PressEdit => fst (show_login_dialog ToggleEdit s)
  | PressSettings => fst (open_settings s)
  | PressLogin cb c => fst (fst (validate cb c s))
  | CloseSettings =>
      mkDesk (users_file s) (edit_mode s) (is_admin_authenticated s) false
  | ChangePassword disk_ok old new confirm =>
      if settings_window s then fst (save_password disk_ok old new confirm s)
      else s
  | LoadFile =>
      mkDesk (users_file s) false (is_admin_authenticated s) (settings_window s)
  end.

Definition run (evs : list event) (s : desk) : desk :=
  fold_left (fun st e => step e st) evs s.

(** Edit mode and the settings window are reserved to a logged-in admin. *)
Definition guarded (s : desk) : Prop :=
  edit_mode s = true \/ settings_window s = true ->
  is_admin_authenticated s = true.

Lemma run_callback_auth (cb : callback) (s : desk) :
  is_admin_authenticated (fst (run_callback cb s)) = is_admin_authenticated s /\
  users_file (fst (run_callback cb s)) = users_file s.
Proof.
  destruct cb; simpl; [|auto]. unfold toggle_edit_mode.
  destruct (edit_mode s); simpl; auto.
Qed.

Lemma validate_state (cb : callback) (c : string * string) (s : desk) :
  (accepted s c = false /\ fst (fst (validate cb c s)) = s) \/
  (accepted s c = true /\
   fst (fst (validate cb c s))
   = fst (run_callback cb (mkDesk (users_file s) (edit_mode s) true
                                  (settings_window s)))).
Proof.
  unfold validate. destruct (accepted s c); [right | left; auto].
  split; [reflexivity|]. now destruct (run_callback cb _).
Qed.

Lemma step_auth (e : event) (s : desk) :
  is_admin_authenticated (step e s) = true ->
  is_admin_authenticated s = true \/
  exists cb c, e = PressLogin cb c /\ accepted s c = true.
Proof.
  assert (Hdialog : forall cb,
            is_admin_authenticated (fst (show_login_dialog cb s)) = true ->
            is_admin_authenticated s = true).
  { intros cb. unfold show_login_dialog.
    destruct (is_admin_authenticated s) eqn:Ea; [reflexivity|].
    simpl. now rewrite Ea. }
  destruct e as [| |cb c| |disk_ok old new confirm|]; simpl.
  - intros H. left. exact (Hdialog _ H).
  - intros H. left. exact (Hdialog _ H).
  - destruct (validate_state cb c s) as [[_ ->]|[Hacc _]]; [now left|].
    intros _. right. now exists cb, c.
  - now left.
  - destruct (settings_window s); [|now left].
    unfold save_password, save_users.
    destruct (negb _); [now left|]. destruct (_ =? "")%string; [now left|].
    destruct (negb _); [now left|]. destruct disk_ok; now left.
  - now left.
Qed.

Lemma change_password_keeps (disk_ok : bool) (old new confirm : string)
      (s : desk) :
  let s' := step (ChangePassword disk_ok old new confirm) s in
  edit_mode s' = edit_mode s /\
  is_admin_authenticated s' = is_admin_authenticated s /\
  settings_window s' = settings_window s.
Proof.
  simpl. destruct (settings_window s) eqn:Es; [|auto].
  unfold save_password, save_users.
  destruct (negb _); [auto|]. destruct (_ =? "")%string; [auto|].
  destruct (negb _); [auto|]. destruct disk_ok; simpl; auto.
Qed.

Lemma step_guarded (e : event) (s : desk) : guarded s -> guarded (step e s).
Proof.
  unfold guarded. intros Hg.
  assert (Hdialog : forall cb,
            edit_mode (fst (show_login_dialog cb s)) = true \/
            settings_window (fst (show_login_dialog cb s)) = true ->
            is_admin_authenticated (fst (show_login_dialog cb s)) = true).
  { intros cb. unfold show_login_dialog.
    destruct (is_admin_authenticated s) eqn:Ea.
    - intros _. now rewrite (proj1 (run_callback_auth cb s)).
    - simpl. rewrite Ea. exact Hg. }
  destruct e as [| |cb c| |disk_ok old new confirm|]; simpl.
  - apply Hdialog.
  - apply Hdialog.
  - destruct (validate_state cb c s) as [[_ ->]|[_ ->]]; [exact Hg|].
    intros _. now rewrite (proj1 (run_callback_auth cb _)).
  - intros [H|H]; [auto | discriminate].
  - destruct (change_password_keeps disk_ok old new confirm s) as (He & Ha & Hw).
    simpl in He, Ha, Hw. rewrite He, Ha, Hw. exact Hg.
  - intros [H|H]; [discriminate | auto].
Qed.

Lemma run_cons (e : event) (evs : list event) (s : desk) :
  run (e :: evs) s = run evs (step e s).
Proof. reflexivity. Qed.

Lemma run_guarded (evs : list event) (s : desk) : guarded s -> guarded (run evs s).
Proof.
  revert s. induction evs as [|e evs IH]; intros s Hg; [exact Hg|].
  rewrite run_cons. apply IH, step_guarded, Hg.
Qed.

Lemma run_auth (evs : list event) (s : desk) :
  is_admin_authenticated (run evs s) = true ->
  is_admin_authenticated s = true \/
  exists before cb c after,
    evs = before ++ PressLogin cb c :: after /\
    accepted (run before s) c = true.
Proof.
  revert s. induction evs as [|e evs IH]; intros s; [now left|].
  rewrite run_cons. intros H.
  destruct (IH _ H) as [Ha|(before & cb & c & after & -> & Hacc)].
  - destruct (step_auth e s Ha) as [Hs|(cb & c & -> & Hacc)]; [now left|].
    right. exists [], cb, c, evs. auto.
  - right. exists (e :: before), cb, c, after. auto.
Qed.

End Desk.

(** X21.  From start-up, through any sequence of presses of the edit and
    settings buttons, presses of [Login] in a login window (with any texts
    typed into it), password changes and file loads: edit mode is on or the
    settings window is open only if the admin is authenticated, and the
    admin is authenticated only if at some earlier point [Login] was pressed
    with a user name and password that the users file, as it was then, holds
    (after stripping the two texts). *)
Theorem edit_mode_needs_a_login {V : Vault} (file : option bytes)
        (evs : list event) :
  (edit_mode (run evs (initial file)) = true \/
   settings_window (run evs (initial file)) = true ->
   is_admin_authenticated (run evs (initial file)) = true) /\
  (is_admin_authenticated (run evs (initial file)) = true ->
   exists before cb c after,
     evs = before ++ PressLogin cb c :: after /\
     accepted (run before (initial file)) c = true).
Proof.
  split.
  - apply run_guarded. intros [H|H]; discriminate H.
  - intros H. destruct (run_auth evs (initial file) H) as [Hi|Hex].
    + discriminate Hi.
    + exact Hex.
Qed.

(** A wrong password, then the factory credentials typed with spaces. *)
Lemma edit_mode_needs_a_login_witness :
  edit_mode (run [PressEdit; PressLogin ToggleEdit ("admin", "guess");
                  PressLogin ToggleEdit (" admin ", "admin123 ")]
                 (@initial vault_symbolic None)) = true /\
  exists before cb c after,
    [PressEdit; PressLogin ToggleEdit ("admin"%string, "guess"%string);
     PressLogin ToggleEdit (" admin "%string, "admin123 "%string)]
    = before ++ PressLogin cb c :: after /\
    accepted (run before (@initial vault_symbolic None)) c = true.
Proof.
  split; [reflexivity|].
  apply (proj2 (@edit_mode_needs_a_login vault_symbolic None
                  [PressEdit; PressLogin ToggleEdit ("admin", "guess");
                   PressLogin ToggleEdit (" admin ", "admin123 ")])).
  reflexivity.
Defined.

Lemma step_keeps_auth {V : Vault} (e : event) (s : desk) :
  is_admin_authenticated s = true -> is_admin_authenticated (step e s) = true.
Proof.
  intros Ha.
  destruct e as [| |cb c| |disk_ok old new confirm|]; simpl; auto.
  - unfold show_login_dialog. rewrite Ha.
    now rewrite (proj1 (run_callback_auth ToggleEdit s)).
  - unfold open_settings, show_login_dialog. now rewrite Ha.
  - destruct (validate_state cb c s) as [[_ ->]|[_ ->]]; [exact Ha|].
    now rewrite (proj1 (run_callback_auth cb _)).
  - destruct (change_password_keeps disk_ok old new confirm s) as (_ & H & _).
    simpl in H. now rewrite H.
Qed.

(** X22.  The login is never revoked: once the admin is authenticated, no
    press of a button, closing of the settings window, password change or
    file load ends the authentication; from then on the edit button toggles
    edit mode and the settings button opens the settings window without the
    login window being shown, whatever the users file holds by then. *)
Theorem login_is_never_revoked {V : Vault} (s : desk) (evs : list event) :
  is_admin_authenticated s = true ->
  is_admin_authenticated (run evs s) = true /\
  show_login_dialog ToggleEdit (run evs s) = toggle_edit_mode (run evs s) /\
  edit_mode (step PressEdit (run evs s)) = negb (edit_mode (run evs s)) /\
  settings_window (step PressSettings (run evs s)) = true.
Proof.
  intros Ha.
  assert (H : is_admin_authenticated (run evs s) = true).
  { revert s Ha. induction evs as [|e evs IH]; intros s Ha; [exact Ha|].
    rewrite run_cons. apply IH, step_keeps_auth, Ha. }
  split; [exact H|]. simpl.
  unfold open_settings, show_login_dialog. rewrite H. simpl.
  split; [reflexivity|]. split; [|reflexivity].
  unfold toggle_edit_mode. now destruct (edit_mode (run evs s)).
Qed.

(** After a login the password is changed and edit mode switched off; the
    edit button then switches it on again, with no login window. *)
Lemma login_is_never_revoked_witness :
  edit_mode
    (step PressEdit
          (run [PressSettings; ChangePassword true "admin123" "s3cret" "s3cret";
                CloseSettings; PressEdit]
               (step (PressLogin ToggleEdit ("admin", "admin123"))
                     (@initial vault_symbolic None))))
  = true.
Proof.
  exact (proj1 (proj2 (proj2 (@login_is_never_revoked vault_symbolic
           (step (PressLogin ToggleEdit ("admin", "admin123"))
                 (@initial vault_symbolic None))
           [PressSettings; ChangePassword true "admin123" "s3cret" "s3cret";
            CloseSettings; PressEdit] eq_refl)))).
Defined.

Lemma load_users_saved {V : Vault} (users : dict) (e a w : bool) :
  load_users (mkDesk (Some (save_json_encrypted users)) e a w) = users.
Proof.
  unfold load_users, load_json_encrypted, save_json_encrypted. simpl.
  now rewrite decrypt_encrypt, loads_dumps.
Qed.

Lemma save_password_done {V : Vault} (s : desk) (old new confirm : string) :
  Text.strip old = current_admin_pass s ->
  Text.strip new <> ""%string ->
  Text.strip new = Text.strip confirm ->
  save_password true old new confirm s
  = (mkDesk (Some (save_json_encrypted
                     (dict_set "admin" (Text.strip new) (load_users s))))
            (edit_mode s) (is_admin_authenticated s) (settings_window s),
     [PasswordUpdated]).
Proof.
  intros Hold Hne Hconf. unfold save_password, save_users.
  apply String.eqb_neq in Hne.
  now rewrite Hold, String.eqb_refl, Hne, <- Hconf, String.eqb_refl.
Qed.

(** X23.  A password change with the current password, a new password that
    is not empty and its repetition is taken over by the next logins: the
    users file then accepts "admin" with the new password and with no other
    password, accepts every other user name exactly as before, and the
    change itself neither logs the admin in or out nor touches edit mode. *)
Theorem password_change_takes_effect {V : Vault} (s : desk)
        (old new confirm : string) :
  Text.strip old = current_admin_pass s ->
  Text.strip new <> ""%string ->
  Text.strip new = Text.strip confirm ->
  let s' := fst (save_password true old new confirm s) in
  snd (save_password true old new confirm s) = [PasswordUpdated] /\
  accepted s' ("admin"%string, new) = true /\
  (forall p, Text.strip p <> Text.strip new ->
             accepted s' ("admin"%string, p) = false) /\
  (forall u p, Text.strip u <> "admin"%string ->
               accepted s' (u, p) = accepted s (u, p)) /\
  is_admin_authenticated s' = is_admin_authenticated s /\
  edit_mode s' = edit_mode s.
Proof.
  intros Hold Hne Hconf. rewrite (@save_password_done _ s _ _ _ Hold Hne Hconf).
  cbn [fst snd]. split; [reflexivity|].
  unfold accepted. rewrite !load_users_saved. cbn [fst snd].
  change (Text.strip "admin") with "admin"%string.
  split; [|split; [|split; [|split]]]; try reflexivity.
  - rewrite dict_get_set. simpl. apply String.eqb_refl.
  - intros p Hp. rewrite dict_get_set. simpl.
    apply String.eqb_neq. congruence.
  - intros u p Hu. rewrite dict_get_set.
    destruct ("admin" =? Text.strip u)%string eqn:E; [|reflexivity].
    apply String.eqb_eq in E. now destruct Hu.
Qed.

Lemma password_change_takes_effect_witness :
  accepted (fst (save_password true "admin123" " s3cret" "s3cret "
                               (@initial vault_symbolic None)))
           ("admin"%string, " s3cret"%string) = true /\
  accepted (fst (save_password true "admin123" " s3cret" "s3cret "
                               (@initial vault_symbolic None)))
           ("admin"%string, "admin123"%string) = false.
Proof.
  assert (Hne : Text.strip " s3cret" <> ""%string) by discriminate.
  assert (Hp : Text.strip "admin123" <> Text.strip " s3cret") by discriminate.
  destruct (@password_change_takes_effect vault_symbolic (initial None)
              "admin123" " s3cret" "s3cret " eq_refl Hne eq_refl)
    as (_ & H1 & H2 & _).
  split; [exact H1 | exact (H2 "admin123"%string Hp)].
Defined.

(** X24.  A password change that is refused leaves the state, the users
    file included, as it was, and shows one error: "Incorrect old password."
    when the old password is not the current one; otherwise "New password
    cannot be empty."; otherwise "New passwords do not match."; otherwise,
    when the file cannot be written, the error of [save_users]. *)
Theorem refused_password_change_keeps_the_file {V : Vault} (s : desk)
        (disk_ok : bool) (old new confirm : string) :
  Text.strip old <> current_admin_pass s \/ Text.strip new = ""%string \/
  Text.strip new <> Text.strip confirm \/ disk_ok = false ->
  save_password disk_ok old new confirm s
  = (s, if negb (Text.strip old =? current_admin_pass s)%string
        then [IncorrectOldPassword]
        else if (Text.strip new =? "")%string then [EmptyNewPassword]
        else if negb (Text.strip new =? Text.strip confirm)%string
        then [PasswordMismatch]
        else [SaveUsersFailed]).
Proof.
  intros H. unfold save_password, save_users.
  destruct (Text.strip old =? current_admin_pass s)%string eqn:E1;
    [|reflexivity]. cbn [negb].
  destruct (Text.strip new =? "")%string eqn:E2; [reflexivity|].
  destruct (Text.strip new =? Text.strip confirm)%string eqn:E3;
    [|reflexivity]. cbn [negb].
  apply String.eqb_eq in E1, E3. apply String.eqb_neq in E2.
  destruct H as [H|[H|[H|H]]]; try contradiction.
  subst disk_ok. reflexivity.
Qed.

Lemma refused_password_change_keeps_the_file_witness :
  save_password true "admin" "s3cret" "s3cret" (@initial vault_symbolic None)
  = (initial None, [IncorrectOldPassword]).
Proof.
  assert (H : Text.strip "admin" <> current_admin_pass (@initial vault_symbolic None))
    by discriminate.
  exact (@refused_password_change_keeps_the_file vault_symbolic (initial None)
           true "admin" "s3cret" "s3cret" (or_introl H)).
Defined.

End Access.
